(** * A supervisor with hot upgrade: the byte buffer, the framed control
      pipe and the parent's control loop

    The Go package [daemon] is embedded function by function.  A method with
    a pointer receiver becomes a function from the old object to the new one;
    the files of the operating system are a state of their own, passed along;
    a run-time panic (slice bounds, a negative [make], a nil receiver) is the
    [None] of an [option] or the [Panics] of a [run]; [int] is the 64-bit
    two's-complement integer, carried in [Z] with the wrap-around written at
    every arithmetic step.  The embedding comes first, then the vocabulary of
    the properties, then the properties. *)

From Stdlib Require Import ZArith List Lia Bool.
From Stdlib.Strings Require Import Byte.
From Stdlib.Strings Require String.
Import String.StringSyntax.
Import ListNotations.
Local Open Scope Z_scope.

(** ** Machine integers and bytes *)

Definition int_min : Z := - 2 ^ 63.
Definition int_max : Z := 2 ^ 63 - 1.

(** The value an [int] holds after an operation whose exact result is [z]. *)
Definition wrap_int (z : Z) : Z := (z + 2 ^ 63) mod 2 ^ 64 - 2 ^ 63.

(** The conversion [uint32(z)]. *)
Definition uint32 (z : Z) : Z := z mod 2 ^ 32.

(** [len(s)], as an [int]. *)
Definition len {A : Type} (s : list A) : Z := Z.of_nat (length s).

Definition byte_to_Z (b : byte) : Z := Z.of_N (Byte.to_N b).

(** The conversion [byte(z)]: the low eight bits. *)
Definition byte_of_Z (z : Z) : byte :=
  match Byte.of_N (Z.to_N (z mod 256)) with
  | Some b => b
  | None => x00
  end.

Fixpoint bytes_eqb (a b : list byte) : bool :=
  match a, b with
  | [], [] => true
  | x :: a', y :: b' => Byte.eqb x y && bytes_eqb a' b'
  | _, _ => false
  end.

(** ** Go slices of bytes *)

(** [make([]T, n)] panics on a negative length. *)
Definition make {A : Type} (zero : A) (n : Z) : option (list A) :=
  if n <? 0 then None else Some (repeat zero (Z.to_nat n)).

(** [s[lo:hi]]; every slice of this package has its length equal to its
    capacity, so the bound on [hi] is [len s]. *)
Definition slice {A : Type} (s : list A) (lo hi : Z) : option (list A) :=
  if (0 <=? lo) && (lo <=? hi) && (hi <=? len s)
  then Some (firstn (Z.to_nat (hi - lo)) (skipn (Z.to_nat lo) s))
  else None.

(** [s[lo:]]. *)
Definition slice_from {A : Type} (s : list A) (lo : Z) : option (list A) :=
  slice s lo (len s).

(** The array [dst] after [copy(dst[off:], src)]: [min(len dst - off, len src)]
    elements move, the rest of [dst] stays.  [copy] reads its source before it
    writes ([memmove]), so an overlapping source is the list it was before. *)
Definition copy_at {A : Type} (dst : list A) (off : nat) (src : list A) : list A :=
  firstn off dst ++ firstn (length dst - off) src
    ++ skipn (off + length src) dst.

(** ** encoding/binary, big endian *)

(** The four bytes [binary.BigEndian.PutUint32] stores for [v]. *)
Definition PutUint32 (v : Z) : list byte :=
  [byte_of_Z (Z.shiftr v 24); byte_of_Z (Z.shiftr v 16);
   byte_of_Z (Z.shiftr v 8); byte_of_Z v].

(** [binary.BigEndian.Uint32(b)]; it panics when [b] is shorter than four. *)
Definition Uint32 (b : list byte) : option Z :=
  match b with
  | b0 :: b1 :: b2 :: b3 :: _ =>
      Some (Z.lor (Z.lor (Z.lor (byte_to_Z b3) (Z.shiftl (byte_to_Z b2) 8))
                         (Z.shiftl (byte_to_Z b1) 16))
                  (Z.shiftl (byte_to_Z b0) 24))
  | _ => None
  end.

(** ** The byte buffer *)

Module Buffer.

Record buffer : Type := mkBuffer {
  Internal : list byte;
  readIndex : Z;
  writeIndex : Z;
  markedReadIndex : Z;
  markedWriteIndex : Z
}.

(** [cap(object.Internal)] *)
Definition capacity (object : buffer) : Z := len (Internal object).

Definition with_Internal (object : buffer) (s : list byte) : buffer :=
  mkBuffer s (readIndex object) (writeIndex object)
           (markedReadIndex object) (markedWriteIndex object).

Definition NewBuffer (capacity : Z) : option buffer :=
  match make x00 capacity with
  | Some s => Some (mkBuffer s 0 0 0 0)
  | None => None
  end.

Definition growth (needSize : Z) (object : buffer) : option buffer :=
  if wrap_int (writeIndex object + needSize) >? capacity object then
    let size := wrap_int (2 * capacity object) in
    let size := if size =? 0 then needSize else size in
    match make x00 size with
    | Some copied => Some (with_Internal object (copy_at copied 0 (Internal object)))
    | None => None
    end
  else Some object.

Definition IsEmpty (object : buffer) : bool :=
  readIndex object =? writeIndex object.

Definition WriteableBytes (object : buffer) : Z :=
  wrap_int (capacity object - writeIndex object).

Definition ReadableBytes (object : buffer) : Z :=
  wrap_int (writeIndex object - readIndex object).

Definition GetReadIndex (object : buffer) : Z := readIndex object.

Definition GetWriteIndex (object : buffer) : Z := writeIndex object.

Definition SetReadIndex (index : Z) (object : buffer) : buffer :=
  mkBuffer (Internal object) index (writeIndex object)
           (markedReadIndex object) (markedWriteIndex object).

Definition SetWriteIndex (index : Z) (object : buffer) : buffer :=
  mkBuffer (Internal object) (readIndex object) index
           (markedReadIndex object) (markedWriteIndex object).

Definition MarkReadIndex (object : buffer) : buffer :=
  mkBuffer (Internal object) (readIndex object) (writeIndex object)
           (readIndex object) (markedWriteIndex object).

Definition MarkWriteIndex (object : buffer) : buffer :=
  mkBuffer (Internal object) (readIndex object) (writeIndex object)
           (markedReadIndex object) (writeIndex object).

Definition ResetReadIndex (object : buffer) : buffer :=
  mkBuffer (Internal object) (markedReadIndex object) (writeIndex object)
           0 (markedWriteIndex object).

Definition ResetWriteIndex (object : buffer) : buffer :=
  mkBuffer (Internal object) (readIndex object) (markedWriteIndex object)
           (markedReadIndex object) 0.

Definition WriteBytes (bytes : list byte) (object : buffer) : option buffer :=
  match growth (len bytes) object with
  | None => None
  | Some object =>
      match slice_from (Internal object) (writeIndex object) with
      | None => None
      | Some _ =>
          let stored :=
            copy_at (Internal object) (Z.to_nat (writeIndex object)) bytes in
          Some (SetWriteIndex (wrap_int (writeIndex object + len bytes))
                              (with_Internal object stored))
      end
  end.

(** [Slice(size)]: the view [Internal[readIndex : readIndex+size]]. *)
Definition Slice (size : Z) (object : buffer) : option (list byte) :=
  slice (Internal object) (readIndex object) (wrap_int (readIndex object + size)).

(** [PutUint32] panics unless four bytes are writable behind the cursor. *)
Definition WriteUint32 (v : Z) (object : buffer) : option buffer :=
  match growth 4 object with
  | None => None
  | Some object =>
      match slice_from (Internal object) (writeIndex object) with
      | None => None
      | Some window =>
          if len window <? 4 then None
          else
            let stored :=
              copy_at (Internal object) (Z.to_nat (writeIndex object))
                      (PutUint32 v) in
            Some (SetWriteIndex (wrap_int (writeIndex object + 4))
                                (with_Internal object stored))
      end
  end.

Definition ReadUint32 (object : buffer) : option (Z * buffer) :=
  match slice_from (Internal object) (readIndex object) with
  | None => None
  | Some window =>
      match Uint32 window with
      | None => None
      | Some v =>
          Some (v, SetReadIndex (wrap_int (readIndex object + 4)) object)
      end
  end.

Definition DiscardReadBytes (object : buffer) : option buffer :=
  match slice (Internal object) (readIndex object) (writeIndex object) with
  | None => None
  | Some src =>
      Some (mkBuffer (copy_at (Internal object) 0 src)
                     0
                     (wrap_int (writeIndex object - readIndex object))
                     (markedReadIndex object) (markedWriteIndex object))
  end.

End Buffer.

(** ** Errors, results and visitors *)

Inductive error : Type :=
| io_EOF                (* io.EOF *)
| ErrXPipeClosed        (* errors.New("XPipe closed") *)
| os_ErrInvalid         (* a method of a nil os.File *)
| os_ErrClosed          (* a method of a closed os.File *)
| os_Errno (e : nat).   (* any other error of the operating system *)

Definition is_EOF (e : error) : bool :=
  match e with io_EOF => true | _ => false end.

(** [nil != err] *)
Definition is_some {A : Type} (o : option A) : bool :=
  match o with Some _ => true | None => false end.

(** The result of running a loop with a step bound, or code that may panic. *)
Inductive run (A : Type) : Type :=
| Done (a : A)
| Panics
| OutOfFuel.

Arguments Done {A} a.
Arguments Panics {A}.
Arguments OutOfFuel {A}.

(** A visitor [func(data []byte) bool] is a closure over variables of its
    caller; [S] is the type of those variables. *)
Definition visitor (S : Type) : Type := S -> list byte -> S * bool.

(** Handing frames to a visitor one after the other until it returns
    [false]; the boolean tells whether it still wants more. *)
Fixpoint visit_frames {S : Type} (callback : visitor S) (st : S)
    (frames : list (list byte)) : S * bool :=
  match frames with
  | [] => (st, true)
  | f :: rest =>
      let '(st', more) := callback st f in
      if more then visit_frames callback st' rest else (st', false)
  end.

(** The visitor that keeps every payload it is given and asks for more. *)
Definition recorder : visitor (list (list byte)) :=
  fun seen data => (seen ++ [data], true).

(** ** The files of the operating system *)

(** Package [os] of the Go library, as far as the pipe uses it.  A file
    either is open or has been closed.  What its reads return is fixed by
    the pieces on their way to it and by what ends them; a read waits for
    data, so it returns at least one byte unless the stream has ended or the
    slice it is given is empty.  What its writes take is fixed by a plan, one
    step per call.  [Pipe] yields two new, open files; the errors of
    [os.Pipe], on which [NewXPipe] panics, are left out. *)

Module OS.

Definition fd : Type := nat.

(** How one call of [Write] on a file goes: [Accepts n] takes at most [n]
    bytes and reports no error, [Fails n e] takes at most [n] and reports
    [e]. *)
Inductive write_step : Type :=
| Accepts (n : nat)
| Fails (n : nat) (e : error).

Record File : Type := mkFile {
  f_open : bool;
  f_incoming : list (list byte);  (* what the next reads return, read by read *)
  f_incoming_end : error;         (* what a read returns once these are used up *)
  f_written : list byte;          (* the bytes the file has taken so far *)
  f_write_plan : list write_step  (* how the next writes go; a write takes all
                                     of its bytes once the plan is used up *)
}.

Record state : Type := mkState {
  file : fd -> File;
  next_fd : fd
}.

Definition set_file (os : state) (f : fd) (v : File) : state :=
  mkState (fun g => if Nat.eqb g f then v else file os g) (next_fd os).

Definition fresh_file : File := mkFile true [] io_EOF [] [].

(** [os.Pipe()]: two new descriptors, the read end first. *)
Definition Pipe (os : state) : fd * fd * state :=
  let r := next_fd os in
  let w := S r in
  (r, w,
   mkState (fun g => if Nat.eqb g r || Nat.eqb g w then fresh_file else file os g)
           (S w)).

(** The next non-empty piece a read into [room] bytes returns. *)
Fixpoint take_chunk (room : nat) (chunks : list (list byte))
    : option (list byte * list (list byte)) :=
  match chunks with
  | [] => None
  | [] :: rest => take_chunk room rest
  | c :: rest =>
      if (length c <=? room)%nat then Some (c, rest)
      else Some (firstn room c, skipn room c :: rest)
  end.

(** [Read(p)] of an [os.File] with [len(p) = room]: a read into an empty slice
    returns [0, nil] at once; otherwise at least one byte, or the error that
    ends the stream. *)
Definition Read (os : state) (f : option fd) (room : nat)
    : list byte * option error * state :=
  match f with
  | None => ([], Some os_ErrInvalid, os)
  | Some f =>
      let F := file os f in
      if negb (f_open F) then ([], Some os_ErrClosed, os)
      else
        match room with
        | O => ([], None, os)
        | _ =>
            match take_chunk room (f_incoming F) with
            | Some (data, rest) =>
                (data, None,
                 set_file os f (mkFile true rest (f_incoming_end F)
                                       (f_written F) (f_write_plan F)))
            | None =>
                ([], Some (f_incoming_end F),
                 set_file os f (mkFile true [] (f_incoming_end F)
                                       (f_written F) (f_write_plan F)))
            end
        end
  end.

(** [Write(b)] of an [os.File]: the count of bytes taken and the error. *)
Definition Write (os : state) (f : option fd) (b : list byte)
    : Z * option error * state :=
  match f with
  | None => (0, Some os_ErrInvalid, os)
  | Some f =>
      let F := file os f in
      if negb (f_open F) then (0, Some os_ErrClosed, os)
      else
        match f_write_plan F with
        | [] =>
            (len b, None,
             set_file os f (mkFile true (f_incoming F) (f_incoming_end F)
                                   (f_written F ++ b) []))
        | Accepts n :: plan =>
            let taken := firstn n b in
            (len taken, None,
             set_file os f (mkFile true (f_incoming F) (f_incoming_end F)
                                   (f_written F ++ taken) plan))
        | Fails n e :: plan =>
            let taken := firstn n b in
            (len taken, Some e,
             set_file os f (mkFile true (f_incoming F) (f_incoming_end F)
                                   (f_written F ++ taken) plan))
        end
  end.

(** [Close()] of an [os.File]: closing twice is an error. *)
Definition Close (os : state) (f : fd) : option error * state :=
  let F := file os f in
  if f_open F
  then (None, set_file os f (mkFile false (f_incoming F) (f_incoming_end F)
                                    (f_written F) (f_write_plan F)))
  else (Some os_ErrClosed, os).

(** A bound on the number of reads that return data from these chunks. *)
Fixpoint reads_bound (chunks : list (list byte)) : nat :=
  match chunks with
  | [] => O
  | c :: rest => S (length c + reads_bound rest)
  end.

End OS.

(** ** The framed pipe *)

Module XPipe.
Import Buffer.

Record XPipe : Type := mkXPipe {
  closed : Z;
  ReadPipe : option OS.fd;
  WritePipe : option OS.fd
}.

(** [atomic.CompareAndSwapInt32(addr, old, new)]: the new value and whether
    it swapped. *)
Definition CompareAndSwapInt32 (v old new : Z) : Z * bool :=
  if v =? old then (new, true) else (v, false).

Definition NewXPipe (os : OS.state) : XPipe * OS.state :=
  let '(r, w, os) := OS.Pipe os in
  (mkXPipe 0 (Some r) (Some w), os).

Definition GetReadPipe (object : XPipe) : option OS.fd := ReadPipe object.

Definition SetReadPipe (readPipe : option OS.fd) (object : XPipe) : XPipe :=
  mkXPipe (closed object) readPipe (WritePipe object).

Definition GetWritePipe (object : XPipe) : option OS.fd := WritePipe object.

Definition SetWritePipe (writePipe : option OS.fd) (object : XPipe) : XPipe :=
  mkXPipe (closed object) (ReadPipe object) writePipe.

Definition IsClosed (object : XPipe) : bool := 1 =? closed object.

Definition Close (object : XPipe) (os : OS.state)
    : option error * XPipe * OS.state :=
  let '(flag, swapped) := CompareAndSwapInt32 (closed object) 0 1 in
  if negb swapped then (None, object, os)
  else
    let object := mkXPipe flag (ReadPipe object) (WritePipe object) in
    let '(err, object, os) :=
      match ReadPipe object with
      | Some r =>
          let '(err, os) := OS.Close os r in
          match err with
          | Some _ => (err, object, os)
          | None => (None, SetReadPipe None object, os)
          end
      | None => (None, object, os)
      end in
    match err with
    | Some _ => (err, object, os)
    | None =>
        match WritePipe object with
        | Some w =>
            let '(err, os) := OS.Close os w in
            match err with
            | Some _ => (err, object, os)
            | None => (None, SetWritePipe None object, os)
            end
        | None => (None, object, os)
        end
    end.

(** The loop of [writeEmpty]: one turn per call of [Write] on the file. *)
Fixpoint writeEmpty_loop (fuel : nat) (object : XPipe) (os : OS.state)
    (raw : list byte) : run (option error * OS.state) :=
  if 0 <? len raw then
    match fuel with
    | O => OutOfFuel
    | S fuel =>
        let '(n, err, os) := OS.Write os (WritePipe object) raw in
        match err with
        | Some _ => Done (err, os)
        | None =>
            match slice_from raw n with
            | None => Panics
            | Some raw => writeEmpty_loop fuel object os raw
            end
        end
    end
  else Done (None, os).

(** Each call of [Write] uses up a step of the file's plan, and a file whose
    plan is used up takes everything: the plan's length bounds the loop. *)
Definition writeEmpty_fuel (object : XPipe) (os : OS.state) : nat :=
  match WritePipe object with
  | Some w => S (length (OS.f_write_plan (OS.file os w)))
  | None => 1%nat
  end.

Definition writeEmpty (object : XPipe) (os : OS.state) (raw : list byte)
    : run (option error * OS.state) :=
  writeEmpty_loop (writeEmpty_fuel object os) object os raw.

Definition Write (object : XPipe) (os : OS.state) (raw : list byte)
    : run (option error * OS.state) :=
  if IsClosed object then Done (Some ErrXPipeClosed, os)
  else
    let header := PutUint32 (uint32 (len raw)) in
    match writeEmpty object os header with
    | Done (Some e, os) => Done (Some e, os)
    | Done (None, os) => writeEmpty object os raw
    | Panics => Panics
    | OutOfFuel => OutOfFuel
    end.

Section Read.

Context {S : Type} (callback : visitor S).

(** The inner loop of [Read]: the frames the buffer holds in full. *)
Fixpoint Read_frames (fuel : nat) (readBuf : buffer) (flag : bool) (st : S)
    : run (buffer * bool * S) :=
  if 4 <=? ReadableBytes readBuf then
    match fuel with
    | O => OutOfFuel
    | Datatypes.S fuel =>
        match Slice 4 readBuf with
        | None => Panics
        | Some header =>
            match Uint32 header with
            | None => Panics
            | Some chunkSize =>
                if wrap_int (chunkSize + 4) >? ReadableBytes readBuf
                then Done (readBuf, flag, st)
                else
                  let readBuf :=
                    SetReadIndex (wrap_int (GetReadIndex readBuf + 4)) readBuf in
                  match Slice chunkSize readBuf with
                  | None => Panics
                  | Some data =>
                      let '(st, flag) := callback st data in
                      if negb flag then Done (readBuf, flag, st)
                      else
                        let readBuf :=
                          SetReadIndex
                            (wrap_int (GetReadIndex readBuf + chunkSize))
                            readBuf in
                        match DiscardReadBytes readBuf with
                        | None => Panics
                        | Some readBuf => Read_frames fuel readBuf flag st
                        end
                  end
            end
        end
    end
  else Done (readBuf, flag, st).

(** The outer loop of [Read], entered with [flag] true. *)
Fixpoint Read_loop (fuel : nat) (object : XPipe) (os : OS.state)
    (readBuf : buffer) (st : S) : run (option error * OS.state * S) :=
  match fuel with
  | O => OutOfFuel
  | Datatypes.S fuel =>
      match slice_from (Internal readBuf) (GetWriteIndex readBuf) with
      | None => Panics
      | Some window =>
          let '(data, err, os) :=
            OS.Read os (ReadPipe object) (length window) in
          let n := len data in
          let readBuf :=
            with_Internal readBuf
              (copy_at (Internal readBuf) (Z.to_nat (GetWriteIndex readBuf))
                       data) in
          let go_on :=
            match err with
            | None => Some true
            | Some e => if is_EOF e then Some false else None
            end in
          match go_on with
          | None => Done (err, os, st)
          | Some flag =>
              if 0 >=? n then Done (err, os, st)
              else
                let readBuf :=
                  SetWriteIndex (wrap_int (GetWriteIndex readBuf + n)) readBuf in
                match Read_frames (Z.to_nat (ReadableBytes readBuf))
                                  readBuf flag st with
                | Done (readBuf, flag, st) =>
                    if flag then Read_loop fuel object os readBuf st
                    else Done (err, os, st)
                | Panics => Panics
                | OutOfFuel => OutOfFuel
                end
          end
      end
  end.

(** Every turn of the outer loop but the last takes data from the file. *)
Definition Read_fuel (object : XPipe) (os : OS.state) : nat :=
  match ReadPipe object with
  | Some r => Datatypes.S (OS.reads_bound (OS.f_incoming (OS.file os r)))
  | None => 1%nat
  end.

Definition Read (object : XPipe) (os : OS.state) (st : S)
    : run (option error * OS.state * S) :=
  if IsClosed object then Done (Some ErrXPipeClosed, os, st)
  else
    match NewBuffer (Z.shiftl 1 16) with
    | None => Panics
    | Some readBuf => Read_loop (Read_fuel object os) object os readBuf st
    end.

End Read.

End XPipe.

(** ** The child command: a process and the two framed pipes to it *)

(** The [exec.Cmd] inside an [XCmd] is left out but for the files the child
    inherits. *)

Module XCmd.

Record XCmd : Type := mkXCmd {
  nextFd : Z;
  readPipe : option XPipe.XPipe;
  writePipe : option XPipe.XPipe;
  ExtraFiles : list (option OS.fd)
}.

(** [os.NewFile(fd, name)] wraps descriptor [fd]. *)
Definition XCmdFromFd (readFd writeFd : OS.fd) : XCmd :=
  mkXCmd 5
         (Some (XPipe.SetReadPipe (Some readFd) (XPipe.mkXPipe 0 None None)))
         (Some (XPipe.SetWritePipe (Some writeFd) (XPipe.mkXPipe 0 None None)))
         [].

Definition NewXCmd (os : OS.state) : XCmd * OS.state :=
  let '(rp, os) := XPipe.NewXPipe os in
  let '(wp, os) := XPipe.NewXPipe os in
  let extra := [XPipe.GetReadPipe wp; XPipe.GetWritePipe rp] in
  (mkXCmd (wrap_int (2 + len extra)) (Some rp) (Some wp) extra, os).

Definition Close (object : XCmd) (os : OS.state)
    : option error * XCmd * OS.state :=
  let '(err, rp, os) :=
    match readPipe object with
    | Some p => let '(err, p, os) := XPipe.Close p os in (err, Some p, os)
    | None => (None, None, os)
    end in
  let '(err, wp, os) :=
    match writePipe object with
    | Some p =>
        let '(e, p, os) := XPipe.Close p os in
        (match err, e with
         | None, Some _ => e
         | _, _ => err
         end, Some p, os)
    | None => (err, None, os)
    end in
  (err, mkXCmd (nextFd object) rp wp (ExtraFiles object), os).

Definition NextFd (object : XCmd) : Z := nextFd object.

Definition AddFile (f : option OS.fd) (object : XCmd) : XCmd :=
  mkXCmd (wrap_int (nextFd object + 1)) (readPipe object) (writePipe object)
         (ExtraFiles object ++ [f]).

(** A method of a nil [*XPipe] panics when it loads the flag. *)
Definition ParentWrite (object : XCmd) (os : OS.state) (raw : list byte)
    : run (option error * OS.state) :=
  match writePipe object with
  | Some p => XPipe.Write p os raw
  | None => Panics
  end.

Definition ParentRead {S : Type} (callback : visitor S) (object : XCmd)
    (os : OS.state) (st : S) : run (option error * OS.state * S) :=
  match readPipe object with
  | Some p => XPipe.Read callback p os st
  | None => Panics
  end.

Definition ChildWrite (object : XCmd) (os : OS.state) (raw : list byte)
    : run (option error * OS.state) :=
  match writePipe object with
  | Some p => XPipe.Write p os raw
  | None => Panics
  end.

Definition ChildRead {S : Type} (callback : visitor S) (object : XCmd)
    (os : OS.state) (st : S) : run (option error * OS.state * S) :=
  match readPipe object with
  | Some p => XPipe.Read callback p os st
  | None => Panics
  end.

End XCmd.

(** ** The control messages and what the parent sees of a child *)

Definition ReadyOK : list byte := String.list_byte_of_string "ReadyOK".
Definition ReadyError : list byte := String.list_byte_of_string "ReadyError".
Definition ExitRequest : list byte := String.list_byte_of_string "Exit".
Definition ExitReply : list byte := ExitRequest.

(** An [XCmd] object of the parent, by the order of its allocation. *)
Definition cmd : Type := nat.

(** What one [ParentRead] finds on a child's pipe: the frames the pipe hands
    to the visitor, in order, and what [Read] returns once they are used up
    (the end of the stream, another error of the pipe, or [nil] after a read
    of no bytes).  A visitor that stops ends the call with [nil]. *)
Record upstream : Type := mkUpstream {
  frames : list (list byte);
  ending : option error
}.

Definition ParentRead {S : Type} (up : upstream) (callback : visitor S) (st : S)
    : S * option error :=
  let '(st, more) := visit_frames callback st (frames up) in
  (st, if more then ending up else None).

(** The closure both versions of the parent wait for readiness with; its
    variable is [ok]. *)
Definition ready_visitor : visitor bool :=
  fun ok raw =>
    if bytes_eqb raw ReadyOK then (true, false)
    else if bytes_eqb raw ReadyError then (ok, false)
    else (ok, true).

(** What the parent does to its children, in the order it does it. *)
Inductive action : Type :=
| Start (c : cmd)            (* spawnChildProcess made c and called c.Start() *)
| ParentReadReady (c : cmd)  (* c.ParentRead with the readiness closure *)
| ParentWriteExit (c : cmd)  (* c.ParentWrite(ExitRequest) *)
| ParentReadExit (c : cmd)   (* c.ParentRead with the exit closure *)
| Kill (c : cmd)             (* c.Process.Kill() *)
| Release (c : cmd)          (* c.Process.Release() *)
| CloseCmd (c : cmd)         (* c.Close() *)
| GoWait (c : cmd).          (* go func() { c.Wait() ... } *)

Inductive signal : Type :=
| SIGINT
| SIGTERM
| SIGUSR2
| OtherSignal (n : nat).

(** Where the parent process stands after a handler: still in its signal
    loop, returned from [Bootstrap], gone through [os.Exit], stuck on a lock
    it can never take, or stopped by a nil dereference. *)
Inductive status : Type :=
| Running
| Returned (err : option error)
| Exited (code : Z)
| Blocked
| Panicked.

(** What the children and the system answer during one handler. *)
Record answers : Type := mkAnswers {
  start_err : option error;       (* of xCmdObj.Start() *)
  ready : upstream;               (* met by the readiness read *)
  exit_write_err : option error;  (* of ParentWrite(ExitRequest) *)
  exit_reply : upstream;          (* met by the exit read *)
  kill_err : option error         (* of Process.Kill() *)
}.

(** ** The supervisor *)

(** The parent runs its signal loop in one goroutine and, for the child it
    has installed, one goroutine that waits for the child's exit.  The model
    runs their handlers one at a time, in the order the events reach the
    parent: a turn of the signal loop, or the body of the waiting goroutine
    from the return of [Wait] on.  Where one handler waits for the other
    ([object.wg.Wait()] after [Kill]), the other runs to its end inside it. *)

Module Daemon.

Record Daemon : Type := mkDaemon {
  rebootTimes : Z;
  upgradeFlag : Z;
  killedFlag : Z;
  xCmdObj : option cmd;
  (* the run-time around the struct *)
  waited : option cmd;    (* the child whose Wait a goroutine is blocked in:
                             the one the wait group counts *)
  deferred : option cmd;  (* the XCmd the defer of Bootstrap closes *)
  next_cmd : cmd;         (* the XCmd the next NewXCmd allocates *)
  trace : list action
}.

Definition log (a : action) (d : Daemon) : Daemon :=
  mkDaemon (rebootTimes d) (upgradeFlag d) (killedFlag d) (xCmdObj d)
           (waited d) (deferred d) (next_cmd d) (trace d ++ [a]).

Definition set_rebootTimes (v : Z) (d : Daemon) : Daemon :=
  mkDaemon v (upgradeFlag d) (killedFlag d) (xCmdObj d)
           (waited d) (deferred d) (next_cmd d) (trace d).

Definition set_upgradeFlag (v : Z) (d : Daemon) : Daemon :=
  mkDaemon (rebootTimes d) v (killedFlag d) (xCmdObj d)
           (waited d) (deferred d) (next_cmd d) (trace d).

Definition set_killedFlag (v : Z) (d : Daemon) : Daemon :=
  mkDaemon (rebootTimes d) (upgradeFlag d) v (xCmdObj d)
           (waited d) (deferred d) (next_cmd d) (trace d).

Definition set_xCmdObj (v : option cmd) (d : Daemon) : Daemon :=
  mkDaemon (rebootTimes d) (upgradeFlag d) (killedFlag d) v
           (waited d) (deferred d) (next_cmd d) (trace d).

Definition set_waited (v : option cmd) (d : Daemon) : Daemon :=
  mkDaemon (rebootTimes d) (upgradeFlag d) (killedFlag d) (xCmdObj d)
           v (deferred d) (next_cmd d) (trace d).

Definition set_deferred (v : option cmd) (d : Daemon) : Daemon :=
  mkDaemon (rebootTimes d) (upgradeFlag d) (killedFlag d) (xCmdObj d)
           (waited d) v (next_cmd d) (trace d).

Definition set_next_cmd (v : cmd) (d : Daemon) : Daemon :=
  mkDaemon (rebootTimes d) (upgradeFlag d) (killedFlag d) (xCmdObj d)
           (waited d) (deferred d) v (trace d).

Definition New : Daemon := mkDaemon 3 0 0 None None None O [].

(** The default of the flag [reboot_times]. *)
Definition reboot_times_default : Z := 3.

(** [NewXCmd] and [Start]; the arguments and descriptors of the child play
    no part in what follows. *)
Definition spawnChildProcess (a : answers) (d : Daemon)
    : Daemon * cmd * option error :=
  let xCmdObj := next_cmd d in
  (log (Start xCmdObj) (set_next_cmd (S xCmdObj) d), xCmdObj, start_err a).

(** The closure of [waitChildSafeExit]. *)
Definition exit_visitor : visitor unit :=
  fun _ raw =>
    if 0 >=? len raw then (tt, false)
    else if bytes_eqb raw ExitReply then (tt, false)
    else (tt, true).

Definition waitChildSafeExit (a : answers) (d : Daemon)
    : Daemon * option error :=
  match xCmdObj d with
  | Some c =>
      let d := log (ParentWriteExit c) d in
      match exit_write_err a with
      | Some e => (d, Some e)
      | None =>
          let d := log (ParentReadExit c) d in
          let '(_, err) := ParentRead (exit_reply a) exit_visitor tt in
          (d, err)
      end
  | None => (d, None)
  end.

(** How the goroutine started by [replaceChildProcess] ends once [Wait] has
    returned. *)
Inductive verdict : Type :=
| Retired      (* the upgrade flag was consumed *)
| Shutdown     (* the killed flag is set *)
| Exhausted    (* os.Exit(-1) *)
| Restart      (* the child is released and replaceChildProcess called *)
| NilChild.    (* object.xCmdObj is nil *)

(** The body of that goroutine from the return of [Wait] up to its call of
    [replaceChildProcess]. *)
Definition waitDone (d : Daemon) : Daemon * verdict :=
  match xCmdObj d with
  | None => (d, NilChild)
  | Some c =>
      let '(flag, swapped) :=
        XPipe.CompareAndSwapInt32 (upgradeFlag d) 1 0 in
      let d := set_upgradeFlag flag d in
      if swapped then (d, Retired)
      else if 0 =? killedFlag d then
        let d := set_rebootTimes (wrap_int (rebootTimes d - 1)) d in
        if 0 >? rebootTimes d then (d, Exhausted)
        else
          (set_xCmdObj None (log (CloseCmd c) (log (Release c) d)), Restart)
      else (d, Shutdown)
  end.

(** [object.wg.Wait()]: the goroutine of the child that was just killed
    runs to its end first.  Should it want to restart the child, it needs
    the lock of [replaceChildProcess], which its waiter holds; the signal
    loop sets the killed flag before it waits, and the goroutine then does
    not come to a restart. *)
Definition wg_Wait (d : Daemon) : Daemon * status :=
  match waited d with
  | None => (d, Running)
  | Some _ =>
      let '(d, v) := waitDone d in
      match v with
      | Retired | Shutdown => (set_waited None d, Running)
      | Exhausted => (d, Exited (-1))
      | Restart => (d, Blocked)
      | NilChild => (d, Panicked)
      end
  end.

Definition replaceChildProcess (a : answers) (d : Daemon)
    : Daemon * bool * option error * status :=
  let '(d, newXCmdObj, err) := spawnChildProcess a d in
  match err with
  | Some _ => (d, false, err, Running)
  | None =>
      let d := log (ParentReadReady newXCmdObj) d in
      let '(ok, err) := ParentRead (ready a) ready_visitor false in
      if negb ok then (log (CloseCmd newXCmdObj) d, false, err, Running)
      else
        let '(d, err, st) :=
          match xCmdObj d with
          | Some old =>
              let '(d, err) := waitChildSafeExit a d in
              let d := log (Kill old) d in
              let '(d, st) := wg_Wait d in
              match st with
              | Running => (set_xCmdObj None (log (CloseCmd old) d), err, Running)
              | _ => (d, err, st)
              end
          | None => (d, err, Running)
          end in
        match st with
        | Running =>
            (set_waited (Some newXCmdObj)
               (log (GoWait newXCmdObj) (set_xCmdObj (Some newXCmdObj) d)),
             true, err, Running)
        | _ => (d, true, err, st)
        end
  end.

(** The whole goroutine, from the moment [Wait] returns for the child it
    watches. *)
Definition childExited (a : answers) (d : Daemon) : Daemon * status :=
  match waited d with
  | None => (d, Running)
  | Some _ =>
      let '(d, v) := waitDone d in
      match v with
      | Retired | Shutdown => (set_waited None d, Running)
      | Exhausted => (d, Exited (-1))
      | NilChild => (d, Panicked)
      | Restart =>
          let '(d, _, _, st) := replaceChildProcess a (set_waited None d) in
          (d, st)
      end
  end.

(** A [return] of [Bootstrap] in its parent role runs its [defer]. *)
Definition Bootstrap_return (err : option error) (d : Daemon)
    : Daemon * status :=
  (match deferred d with
   | Some c => log (CloseCmd c) d
   | None => d
   end, Returned err).

(** [Bootstrap] in the parent role, up to its signal loop; binding the
    listeners either fails with [listen_err] or leaves no trace here. *)
Definition Bootstrap (reboot_times : Z) (listen_err : option error)
    (a : answers) (d : Daemon) : Daemon * status :=
  let d := set_rebootTimes reboot_times d in
  match listen_err with
  | Some _ => (d, Returned listen_err)
  | None =>
      let '(d, ok, err, st) := replaceChildProcess a d in
      match st with
      | Running =>
          if negb ok then (d, Returned err)
          else
            match err with
            | Some _ => (d, Returned err)
            | None => (set_deferred (xCmdObj d) d, Running)
            end
      | _ => (d, st)
      end
  end.

(** One turn of [parentSignalLoop]. *)
Definition parentSignalLoop (s : signal) (a : answers) (d : Daemon)
    : Daemon * status :=
  match s with
  | SIGINT | SIGTERM =>
      let d := set_killedFlag 1 d in
      let '(d, _) := waitChildSafeExit a d in
      match xCmdObj d with
      | None => (d, Panicked)
      | Some c =>
          let d := log (Kill c) d in
          let '(d, st) := wg_Wait d in
          match st with
          | Running => Bootstrap_return (kill_err a) d
          | _ => (d, st)
          end
      end
  | SIGUSR2 =>
      let '(flag, swapped) :=
        XPipe.CompareAndSwapInt32 (upgradeFlag d) 0 1 in
      if negb swapped then Bootstrap_return None d
      else
        let d := set_upgradeFlag flag d in
        let '(d, ok, err, st) := replaceChildProcess a d in
        match st with
        | Running =>
            if negb ok || is_some err then Bootstrap_return err d
            else (d, Running)
        | _ => (d, st)
        end
  | OtherSignal _ => (d, Running)
  end.

(** What happens to a running parent: a signal reaches its loop, or the
    child it watches exits. *)
Inductive event : Type :=
| Signal (s : signal) (a : answers)
| ChildExit (a : answers).

Definition step (ev : event) (d : Daemon) : Daemon * status :=
  match ev with
  | Signal s a => parentSignalLoop s a d
  | ChildExit a => childExited a d
  end.

(** The states a parent goes through, one per event, until it stops. *)
Fixpoint run_parent (d : Daemon) (evs : list event) : list Daemon * status :=
  match evs with
  | [] => ([], Running)
  | ev :: rest =>
      let '(d', st) := step ev d in
      match st with
      | Running =>
          let '(ds, st) := run_parent d' rest in (d' :: ds, st)
      | _ => ([d'], st)
      end
  end.

End Daemon.

(** ** The earlier supervisor: [Bootstrap] without [replaceChildProcess] *)

Module Daemon0.

Record Daemon : Type := mkDaemon {
  killedFlag : Z;
  xCmdObj : option cmd;
  waited : option cmd;
  next_cmd : cmd;
  trace : list action
}.

Definition log (a : action) (d : Daemon) : Daemon :=
  mkDaemon (killedFlag d) (xCmdObj d) (waited d) (next_cmd d) (trace d ++ [a]).

Definition New : Daemon := mkDaemon 0 None None O [].

Definition spawnChildProcess (a : answers) (d : Daemon)
    : Daemon * cmd * option error :=
  let new := next_cmd d in
  (log (Start new)
       (mkDaemon (killedFlag d) (xCmdObj d) (waited d) (S new) (trace d)),
   new, start_err a).

(** A [return] of this [Bootstrap] closes the child its [defer] names: the
    first one. *)
Definition Bootstrap_return (first : option cmd) (err : option error)
    (d : Daemon) : Daemon * status :=
  (match first with
   | Some c => log (CloseCmd c) d
   | None => d
   end, Returned err).

(** [Bootstrap] in the parent role, up to its signal loop. *)
Definition Bootstrap (a : answers) (d : Daemon) : Daemon * status :=
  let '(d, new, err) := spawnChildProcess a d in
  let d := mkDaemon (killedFlag d) (Some new) (waited d) (next_cmd d) (trace d) in
  match err with
  | Some _ => (d, Returned err)
  | None =>
      let d := log (ParentReadReady new) d in
      let '(ok, err) := ParentRead (ready a) ready_visitor false in
      if negb ok then Bootstrap_return (Some new) err d
      else
        (mkDaemon (killedFlag d) (xCmdObj d) (Some new) (next_cmd d)
                  (trace d ++ [GoWait new]), Running)
  end.

(** One turn of the loop over the signals; [first] is the child the
    [defer] of [Bootstrap] names. *)
Definition signalLoop (first : option cmd) (s : signal) (a : answers)
    (d : Daemon) : Daemon * status :=
  match s with
  | SIGINT | SIGTERM =>
      let d := mkDaemon 1 (xCmdObj d) (waited d) (next_cmd d) (trace d) in
      match xCmdObj d with
      | None => (d, Panicked)
      | Some c =>
          let d := log (Kill c) d in
          let d := mkDaemon (killedFlag d) (xCmdObj d) None (next_cmd d) (trace d) in
          Bootstrap_return first (kill_err a) d
      end
  | SIGUSR2 =>
      let '(d, newXCmdObj, err) := spawnChildProcess a d in
      match err with
      | Some _ => Bootstrap_return first err d
      | None =>
          match xCmdObj d with
          | None => (d, Panicked)
          | Some current =>
              let d := log (ParentReadReady current) d in
              let '(ok, err) := ParentRead (ready a) ready_visitor false in
              if negb ok then Bootstrap_return first err d
              else
                let d := log (Kill current) d in
                let d := log (CloseCmd current) d in
                (mkDaemon (killedFlag d) (Some newXCmdObj) (Some newXCmdObj)
                          (next_cmd d) (trace d ++ [GoWait newXCmdObj]),
                 Running)
          end
      end
  | OtherSignal _ => (d, Running)
  end.

End Daemon0.

(** ** What the properties speak of *)

(** One frame on the wire: the length as four big-endian bytes, then the
    payload. *)
Definition frame (payload : list byte) : list byte :=
  PutUint32 (uint32 (len payload)) ++ payload.

(** Frames written back to back. *)
Definition stream (payloads : list (list byte)) : list byte :=
  concat (map frame payloads).

(** The largest payload whose frame the read buffer of [2^16] bytes holds. *)
Definition max_payload : Z := 2 ^ 16 - 4.

(** The bytes between the two cursors of a buffer, when the cursors are in
    order and inside the array. *)
Definition readable_region (object : Buffer.buffer) : option (list byte) :=
  slice (Buffer.Internal object) (Buffer.readIndex object)
        (Buffer.writeIndex object).

(** The pipe has not been closed and the descriptors it holds are open files,
    the two ends different ones. *)
Definition owns_open (object : XPipe.XPipe) (os : OS.state) : Prop :=
  XPipe.closed object = 0 /\
  (forall r, XPipe.ReadPipe object = Some r ->
             OS.f_open (OS.file os r) = true) /\
  (forall w, XPipe.WritePipe object = Some w ->
             OS.f_open (OS.file os w) = true) /\
  (forall r w, XPipe.ReadPipe object = Some r ->
               XPipe.WritePipe object = Some w -> r <> w).

(** [Close] called [n] times in a row, with the error of each call. *)
Fixpoint Close_repeatedly (n : nat) (object : XPipe.XPipe) (os : OS.state)
    : list (option error) * XPipe.XPipe * OS.state :=
  match n with
  | O => ([], object, os)
  | S n =>
      let '(err, object, os) := XPipe.Close object os in
      let '(errs, object, os) := Close_repeatedly n object os in
      (err :: errs, object, os)
  end.

(** No step of a write plan reports an error. *)
Fixpoint no_failure (plan : list OS.write_step) : bool :=
  match plan with
  | [] => true
  | OS.Accepts _ :: plan => no_failure plan
  | OS.Fails _ _ :: _ => false
  end.

(** [Write] called on each payload in turn, stopping at the first error. *)
Fixpoint Write_all (object : XPipe.XPipe) (os : OS.state)
    (payloads : list (list byte)) : run (option error * OS.state) :=
  match payloads with
  | [] => Done (None, os)
  | raw :: rest =>
      match XPipe.Write object os raw with
      | Done (None, os) => Write_all object os rest
      | other => other
      end
  end.

(** All payloads fit the read buffer. *)
Definition all_fit (payloads : list (list byte)) : Prop :=
  Forall (fun b => len b <= max_payload) payloads.

(** The pieces [chunks] are on their way to descriptor [r], and the stream
    ends after them: the writer has closed its end. *)
Definition arrives (os : OS.state) (r : OS.fd) (chunks : list (list byte))
    : OS.state :=
  OS.set_file os r (OS.mkFile true chunks io_EOF [] []).

(** What a caller of [Read] sees: the error and the variables of its
    visitor. *)
Definition seen_by_caller {S : Type} (r : run (option error * OS.state * S))
    : run (option error * S) :=
  match r with
  | Done (err, _, st) => Done (err, st)
  | Panics => Panics
  | OutOfFuel => OutOfFuel
  end.

(** A system with no file in use. *)
Definition boot : OS.state := OS.mkState (fun _ => OS.fresh_file) O.

(** A payload one byte too long for its frame to fit the read buffer. *)
Definition oversized_payload : list byte :=
  repeat x00 (Z.to_nat (max_payload + 1)).

(** A pipe fresh from [NewXPipe]: the payloads are written through it one
    after the other, what the write end took arrives at the read end in one
    piece, and [Read] hands it to the recorder. *)
Definition write_then_read (payloads : list (list byte))
    : run (option error * list (list byte)) :=
  let '(object, os) := XPipe.NewXPipe boot in
  match XPipe.WritePipe object, XPipe.ReadPipe object with
  | Some w, Some r =>
      match Write_all object os payloads with
      | Done (None, os) =>
          seen_by_caller
            (XPipe.Read recorder object
               (arrives os r [OS.f_written (OS.file os w)]) [])
      | Done (Some e, _) => Done (Some e, [])
      | Panics => Panics
      | OutOfFuel => OutOfFuel
      end
  | _, _ => Panics
  end.

(** The answers of a child that starts and reports [ReadyOK], and of one
    that starts and reports [ReadyError]; either answers [Exit] when asked
    to leave. *)
Definition child_ready : answers :=
  mkAnswers None (mkUpstream [ReadyOK] (Some io_EOF))
            None (mkUpstream [ExitReply] (Some io_EOF)) None.

Definition child_not_ready : answers :=
  mkAnswers None (mkUpstream [ReadyError] (Some io_EOF))
            None (mkUpstream [ExitReply] (Some io_EOF)) None.

(** The event is the exit of the watched child with the upgrade flag not
    set and the killed flag not set: an exit nobody planned. *)
Definition unexpected_exit (ev : Daemon.event) (d : Daemon.Daemon) : bool :=
  match ev with
  | Daemon.ChildExit _ =>
      is_some (Daemon.waited d) && is_some (Daemon.xCmdObj d)
      && negb (Daemon.upgradeFlag d =? 1) && (0 =? Daemon.killedFlag d)
  | Daemon.Signal _ _ => false
  end.

(** The values of the reboot budget over a run: the one it starts with and
    the one after each event. *)
Definition budgets (d : Daemon.Daemon) (evs : list Daemon.event) : list Z :=
  Daemon.rebootTimes d :: map Daemon.rebootTimes (fst (Daemon.run_parent d evs)).

Fixpoint non_increasing (l : list Z) : Prop :=
  match l with
  | x :: (y :: _) as rest => y <= x /\ non_increasing rest
  | _ => True
  end.

(** The parent after a start with the default budget and a child that
    reported ready: child 0 is installed and watched. *)
Definition parent_up : Daemon.Daemon :=
  fst (Daemon.Bootstrap Daemon.reboot_times_default None child_ready Daemon.New).

(** The parent after a start with the least budget an [int] holds, which
    the flag [reboot_times] accepts like any other, and a child that reported
    ready. *)
Definition parent_least_budget : Daemon.Daemon :=
  fst (Daemon.Bootstrap int_min None child_ready Daemon.New).

(** The earlier parent after its start with a child that reported ready. *)
Definition parent0_up : Daemon0.Daemon :=
  fst (Daemon0.Bootstrap child_ready Daemon0.New).

(** ** What the proofs keep track of *)

(** The system [os'] is [os] after descriptor [w] took the bytes [sent] and
    went on to the plan [plan']. *)
Definition after_write (os os' : OS.state) (w : OS.fd) (sent : list byte)
    (plan' : list OS.write_step) : Prop :=
  OS.f_open (OS.file os' w) = true /\
  OS.f_written (OS.file os' w) = OS.f_written (OS.file os w) ++ sent /\
  OS.f_write_plan (OS.file os' w) = plan' /\
  OS.f_incoming (OS.file os' w) = OS.f_incoming (OS.file os w) /\
  OS.f_incoming_end (OS.file os' w) = OS.f_incoming_end (OS.file os w) /\
  (forall g, g <> w -> OS.file os' g = OS.file os g).

(** The buffer of [Read] between two turns of a loop: the read cursor is 0,
    the array of [2^16] bytes starts with the bytes [pend] read and not yet
    handed over, and the write cursor stands after them. *)
Definition holds (readBuf : Buffer.buffer) (pend : list byte) : Prop :=
  exists junk,
    Buffer.Internal readBuf = pend ++ junk /\
    len (Buffer.Internal readBuf) = 65536 /\
    Buffer.readIndex readBuf = 0 /\
    Buffer.writeIndex readBuf = len pend.

(** The bytes [pend] do not hold a whole frame: the header is not all there,
    or it announces more than there is. *)
Definition incomplete (pend : list byte) : Prop :=
  len pend < 4 \/
  exists v, Uint32 pend = Some v /\ 0 <= v < 2 ^ 32 /\ len pend < v + 4.

(** Where a cut through a stream of frames falls: after some whole frames,
    inside the next one (or at its start), never beyond the last. *)
Definition cut_inside (pend : list byte) (bs : list (list byte)) : Prop :=
  match bs with
  | [] => pend = []
  | b :: _ => exists rest, frame b = pend ++ rest /\ rest <> []
  end.

(** A parent whose upgrade flag is at 1: its first child exited without
    plan, the restart failed, and an upgrade then installed child 2 with no
    child to retire. *)
Definition parent_flag_set : Daemon.Daemon :=
  Daemon.mkDaemon 2 1 0 (Some 2%nat) (Some 2%nat) (Some O) 3%nat
    [Start 0; ParentReadReady 0; GoWait 0; Release 0; CloseCmd 0;
     Start 1; ParentReadReady 1; CloseCmd 1;
     Start 2; ParentReadReady 2; GoWait 2]%nat.


(** ** The child's side of the control channel *)

(** [runAsChild] without the business logic: the goroutine that reports the
    verdict of [logical] and then listens to the parent, and the end of the
    function once [logical] has returned. *)

Module Child.

(** The closure with which the goroutine of [runAsChild] waits for the
    parent's command to leave; its variable is [ok]. *)
Definition exit_listener : visitor bool :=
  fun ok raw =>
    if 0 >=? len raw then (false, false)
    else if bytes_eqb raw ExitRequest then (false, false)
    else (ok, true).

(** The goroutine of [runAsChild], from the value [ready] it receives on the
    channel of that name.  It reports the verdict to the parent and, after
    [ReadyOK], reads until the closure stops or the pipe ends; the boolean it
    yields tells whether it went on to [close(exitCh)].  What [ChildWrite]
    returns is dropped, as the source drops it. *)
Definition runAsChild_goroutine (ready : bool) (xCmdObj : XCmd.XCmd)
    (os : OS.state) : run (bool * OS.state) :=
  if negb ready then
    match XCmd.ChildWrite xCmdObj os ReadyError with
    | Done (_, os) => Done (false, os)
    | Panics => Panics
    | OutOfFuel => OutOfFuel
    end
  else
    match XCmd.ChildWrite xCmdObj os ReadyOK with
    | Done (_, os) =>
        match XCmd.ChildRead exit_listener xCmdObj os true with
        | Done (_, os, ok) => Done (negb ok, os)
        | Panics => Panics
        | OutOfFuel => OutOfFuel
        end
    | Panics => Panics
    | OutOfFuel => OutOfFuel
    end.

(** The end of [runAsChild], after [logical] has returned: the reply to the
    parent, then the deferred [Close]. *)
Definition runAsChild_leave (xCmdObj : XCmd.XCmd) (os : OS.state)
    : run (option error * XCmd.XCmd * OS.state) :=
  match XCmd.ChildWrite xCmdObj os ExitReply with
  | Done (_, os) => Done (XCmd.Close xCmdObj os)
  | Panics => Panics
  | OutOfFuel => OutOfFuel
  end.

End Child.

(** ** The descriptors a child is started with *)

(** The part of [spawnChildProcess] that fills [ExtraFiles] and the map the
    child is told: [tcpLnFiles] is the map of the listeners' files, given by
    its entries in the order the [range] visits them, and [tcpLnFds] the map
    from a listener's name to a descriptor number. *)

Module Listeners.

(** [m[k] = v] on a map with strings for keys. *)
Definition store {V : Type} (m : String.string -> option V)
    (k : String.string) (v : V) : String.string -> option V :=
  fun k' => if String.eqb k' k then Some v else m k'.

(** [make(map[string]int)] *)
Definition empty {V : Type} : String.string -> option V := fun _ => None.

(** [for k, f := range tcpLnFiles { tcpLnFds[k] = xCmdObj.AddFile(f).NextFd() }] *)
Fixpoint add_listeners (tcpLnFiles : list (String.string * option OS.fd))
    (xCmdObj : XCmd.XCmd) (tcpLnFds : String.string -> option Z)
    : XCmd.XCmd * (String.string -> option Z) :=
  match tcpLnFiles with
  | [] => (xCmdObj, tcpLnFds)
  | (k, f) :: rest =>
      let xCmdObj := XCmd.AddFile f xCmdObj in
      add_listeners rest xCmdObj (store tcpLnFds k (XCmd.NextFd xCmdObj))
  end.

(** [NewXCmd] and the loop over the listeners, as [spawnChildProcess] runs
    them. *)
Definition spawn_descriptors (tcpLnFiles : list (String.string * option OS.fd))
    (os : OS.state) : XCmd.XCmd * (String.string -> option Z) * OS.state :=
  let '(xCmdObj, os) := XCmd.NewXCmd os in
  (add_listeners tcpLnFiles xCmdObj empty, os).

(** Package [os/exec]: entry [i] of [ExtraFiles] becomes descriptor [3 + i]
    of the new process; the descriptors below 3 are the standard streams. *)
Definition inherited (object : XCmd.XCmd) (n : Z) : option (option OS.fd) :=
  if n <? 3 then None
  else nth_error (XCmd.ExtraFiles object) (Z.to_nat (n - 3)).

End Listeners.

(** ** More of what the properties speak of *)

(** A frame the child takes for the command to leave: [Exit], or a frame
    with no payload. *)
Definition leave_command (raw : list byte) : bool :=
  (0 >=? len raw) || bytes_eqb raw ExitRequest.

(** The message the goroutine of [runAsChild] sends for a verdict. *)
Definition verdict_message (ready : bool) : list byte :=
  if ready then ReadyOK else ReadyError.

(** The signal asks the parent to stop. *)
Definition stops_parent (s : signal) : bool :=
  match s with
  | SIGINT | SIGTERM => true
  | _ => false
  end.

(** The goroutine, if there is one, watches the child that is installed. *)
Definition watches_installed (d : Daemon.Daemon) : Prop :=
  Daemon.waited d = None \/ Daemon.waited d = Daemon.xCmdObj d.

(** A parent with a child installed and a goroutine watching it, no upgrade
    and no shutdown under way. *)
Definition supervising (d : Daemon.Daemon) (c : cmd) : Prop :=
  Daemon.xCmdObj d = Some c /\ Daemon.waited d = Some c /\
  Daemon.upgradeFlag d = 0 /\ Daemon.killedFlag d = 0.

(** The answers of a child that starts and reports [ReadyOK] before any
    [ReadyError]. *)
Definition starts_ready (a : answers) : Prop :=
  start_err a = None /\
  fst (ParentRead (ready a) ready_visitor false) = true.

(** What [waitChildSafeExit] does to child [c] under the answers [a], and
    the error it returns. *)
Definition exit_actions (a : answers) (c : cmd) : list action :=
  match exit_write_err a with
  | Some _ => [ParentWriteExit c]
  | None => [ParentWriteExit c; ParentReadExit c]
  end.

Definition exit_error (a : answers) : option error :=
  match exit_write_err a with
  | Some e => Some e
  | None => snd (ParentRead (exit_reply a) Daemon.exit_visitor tt)
  end.

(** The answers an event brings with it. *)
Definition event_answers (ev : Daemon.event) : answers :=
  match ev with
  | Daemon.Signal _ a => a
  | Daemon.ChildExit a => a
  end.

(** The watched child exits once for each of the answers. *)
Definition crashes (l : list answers) : list Daemon.event :=
  map Daemon.ChildExit l.

(** The state a run ends in. *)
Definition final_state (d : Daemon.Daemon) (evs : list Daemon.event)
    : Daemon.Daemon :=
  last (fst (Daemon.run_parent d evs)) d.

(** Buffer operations that neither set nor use the mark of the read
    cursor. *)
Inductive buffer_op : Type :=
| OpWriteBytes (bytes : list byte)
| OpWriteUint32 (v : Z)
| OpReadUint32
| OpSetReadIndex (index : Z)
| OpSetWriteIndex (index : Z)
| OpMarkWriteIndex
| OpResetWriteIndex
| OpDiscardReadBytes.

Definition apply_op (op : buffer_op) (object : Buffer.buffer)
    : option Buffer.buffer :=
  match op with
  | OpWriteBytes bytes => Buffer.WriteBytes bytes object
  | OpWriteUint32 v => Buffer.WriteUint32 v object
  | OpReadUint32 =>
      match Buffer.ReadUint32 object with
      | Some (_, object) => Some object
      | None => None
      end
  | OpSetReadIndex index => Some (Buffer.SetReadIndex index object)
  | OpSetWriteIndex index => Some (Buffer.SetWriteIndex index object)
  | OpMarkWriteIndex => Some (Buffer.MarkWriteIndex object)
  | OpResetWriteIndex => Some (Buffer.ResetWriteIndex object)
  | OpDiscardReadBytes => Buffer.DiscardReadBytes object
  end.

(** The operations one after the other; a panic ends them. *)
Fixpoint apply_ops (ops : list buffer_op) (object : Buffer.buffer)
    : option Buffer.buffer :=
  match ops with
  | [] => Some object
  | op :: ops =>
      match apply_op op object with
      | Some object => apply_ops ops object
      | None => None
      end
  end.


(** * Properties *)

(** ** Machine integers, bytes and slices *)

Lemma wrap_int_small (z : Z) : int_min <= z <= int_max -> wrap_int z = z.
Proof.
  unfold wrap_int, int_min, int_max. intros H.
  rewrite Z.mod_small; lia.
Qed.

Lemma len_nonneg {A : Type} (s : list A) : 0 <= len s.
Proof. unfold len. lia. Qed.

Lemma len_app {A : Type} (s t : list A) : len (s ++ t) = len s + len t.
Proof. unfold len. rewrite length_app. lia. Qed.

Lemma byte_to_Z_range (b : byte) : 0 <= byte_to_Z b < 256.
Proof.
  unfold byte_to_Z. pose proof (Byte.to_N_bounded b) as H.
  lia.
Qed.

Lemma byte_to_of_Z (z : Z) : byte_to_Z (byte_of_Z z) = z mod 256.
Proof.
  unfold byte_to_Z, byte_of_Z.
  assert (R : 0 <= z mod 256 < 256) by (apply Z.mod_pos_bound; lia).
  destruct (Byte.of_N (Z.to_N (z mod 256))) as [b|] eqn:E.
  - apply Byte.to_of_N in E. rewrite E. lia.
  - apply Byte.of_N_None_iff in E. lia.
Qed.

Lemma bytes_eqb_eq (a b : list byte) : bytes_eqb a b = true <-> a = b.
Proof.
  revert b. induction a as [|x a IH]; intros [|y b]; simpl; split;
    try congruence; try discriminate.
  - intros H. apply andb_prop in H as [H1 H2].
    apply Byte.byte_dec_bl in H1. apply IH in H2. congruence.
  - intros H. injection H as -> ->.
    rewrite (Byte.byte_dec_lb eq_refl). apply IH. reflexivity.
Qed.

(** The bits of one byte of a number, put back in its place. *)
Lemma testbit_byte_at (v k n : Z) :
  0 <= k -> 0 <= n ->
  Z.testbit (Z.shiftl (Z.shiftr v k mod 2 ^ 8) k) n
  = (k <=? n) && (n <? k + 8) && Z.testbit v n.
Proof.
  intros Hk Hn. rewrite Z.shiftl_spec by lia.
  destruct (Z.leb_spec k n) as [L|L]; cbn [andb].
  - rewrite Z.testbit_mod_pow2 by lia.
    rewrite Z.shiftr_spec by lia.
    replace (n - k + k) with n by lia.
    f_equal.
    destruct (Z.ltb_spec (n - k) 8), (Z.ltb_spec n (k + 8)); try reflexivity; lia.
  - apply Z.testbit_neg_r. lia.
Qed.

(** Decoding the header [PutUint32] wrote gives the number back. *)
Lemma Uint32_PutUint32 (v : Z) (rest : list byte) :
  0 <= v < 2 ^ 32 -> Uint32 (PutUint32 v ++ rest) = Some v.
Proof.
  intros Hv. unfold PutUint32. cbn [app Uint32]. f_equal.
  rewrite !byte_to_of_Z. change 256 with (2 ^ 8).
  apply Z.bits_inj'. intros n Hn.
  rewrite !Z.lor_spec.
  rewrite !testbit_byte_at by lia.
  rewrite Z.testbit_mod_pow2 by lia.
  assert (High : 32 <= n -> Z.testbit v n = false).
  { intros Hh. rewrite <- (Z.mod_small v (2 ^ 32)) by lia.
    apply Z.mod_pow2_bits_high. lia. }
  destruct (Z.ltb_spec n 8), (Z.leb_spec 8 n), (Z.ltb_spec n (8 + 8)),
    (Z.leb_spec 16 n), (Z.ltb_spec n (16 + 8)), (Z.leb_spec 24 n),
    (Z.ltb_spec n (24 + 8)); try lia; cbn [andb orb];
    rewrite ?orb_false_r; try reflexivity.
  symmetry. apply High. lia.
Qed.

Lemma lor_le_add (a b : Z) : 0 <= a -> 0 <= b -> 0 <= Z.lor a b <= a + b.
Proof.
  intros Ha Hb. split; [apply Z.lor_nonneg; split; assumption|].
  pose proof (Z.add_lor_land a b) as E.
  assert (0 <= Z.land a b) by (apply Z.land_nonneg; left; exact Ha).
  lia.
Qed.

(** Four bytes decode to a number of 32 bits. *)
Lemma Uint32_range (b : list byte) (v : Z) :
  Uint32 b = Some v -> 0 <= v < 2 ^ 32.
Proof.
  destruct b as [|b0 [|b1 [|b2 [|b3 rest]]]]; try discriminate.
  cbn [Uint32]. intros E.
  apply (f_equal (fun o => match o with Some x => x | None => 0 end)) in E.
  cbv beta iota in E. subst v.
  pose proof (byte_to_Z_range b0). pose proof (byte_to_Z_range b1).
  pose proof (byte_to_Z_range b2). pose proof (byte_to_Z_range b3).
  rewrite !Z.shiftl_mul_pow2 by lia.
  change (2 ^ 8) with 256. change (2 ^ 16) with 65536.
  change (2 ^ 24) with 16777216. change (2 ^ 32) with 4294967296.
  pose proof (lor_le_add (byte_to_Z b3) (byte_to_Z b2 * 256)) as L1.
  pose proof (lor_le_add (Z.lor (byte_to_Z b3) (byte_to_Z b2 * 256))
                (byte_to_Z b1 * 65536)) as L2.
  pose proof (lor_le_add
                (Z.lor (Z.lor (byte_to_Z b3) (byte_to_Z b2 * 256))
                       (byte_to_Z b1 * 65536))
                (byte_to_Z b0 * 16777216)) as L3.
  lia.
Qed.

Lemma uint32_range (z : Z) : 0 <= uint32 z < 2 ^ 32.
Proof. unfold uint32. apply Z.mod_pos_bound. lia. Qed.

Lemma uint32_small (z : Z) : 0 <= z < 2 ^ 32 -> uint32 z = z.
Proof. unfold uint32. intros H. apply Z.mod_small. exact H. Qed.

Lemma length_PutUint32 (v : Z) : length (PutUint32 v) = 4%nat.
Proof. reflexivity. Qed.

Lemma make_Some {A : Type} (zero : A) (n : Z) :
  0 <= n -> make zero n = Some (repeat zero (Z.to_nat n)).
Proof.
  intros H. unfold make. destruct (Z.ltb_spec n 0); [lia|reflexivity].
Qed.

Lemma slice_Some {A : Type} (s : list A) (lo hi : Z) :
  0 <= lo <= hi -> hi <= len s ->
  slice s lo hi = Some (firstn (Z.to_nat (hi - lo)) (skipn (Z.to_nat lo) s)).
Proof.
  intros H1 H2. unfold slice.
  destruct (Z.leb_spec 0 lo); [|lia].
  destruct (Z.leb_spec lo hi); [|lia].
  destruct (Z.leb_spec hi (len s)); [|lia].
  reflexivity.
Qed.

Lemma slice_inv {A : Type} (s : list A) (lo hi : Z) (r : list A) :
  slice s lo hi = Some r ->
  0 <= lo <= hi /\ hi <= len s /\
  r = firstn (Z.to_nat (hi - lo)) (skipn (Z.to_nat lo) s).
Proof.
  unfold slice.
  destruct (Z.leb_spec 0 lo); simpl; [|discriminate].
  destruct (Z.leb_spec lo hi); simpl; [|discriminate].
  destruct (Z.leb_spec hi (len s)); simpl; [|discriminate].
  intros E. injection E as <-. repeat split; lia.
Qed.

Lemma length_copy_at {A : Type} (dst : list A) (off : nat) (src : list A) :
  (off <= length dst)%nat -> length (copy_at dst off src) = length dst.
Proof.
  intros H. unfold copy_at.
  rewrite !length_app, !length_firstn, length_skipn. lia.
Qed.

(** What [copy(dst[off:], src)] leaves in front when [src] fits. *)
Lemma firstn_copy_at {A : Type} (dst : list A) (off : nat) (src : list A) :
  (off + length src <= length dst)%nat ->
  firstn (off + length src) (copy_at dst off src) = firstn off dst ++ src.
Proof.
  intros H. unfold copy_at.
  rewrite (firstn_all2 (n := length dst - off) src) by lia.
  rewrite app_assoc.
  rewrite firstn_app.
  rewrite length_app, length_firstn.
  replace (Nat.min off (length dst)) with off by lia.
  replace (off + length src - (off + length src))%nat with O by lia.
  rewrite firstn_O, app_nil_r.
  apply firstn_all2. rewrite length_app, length_firstn. lia.
Qed.

Lemma firstn_app_exact {A : Type} (a b : list A) :
  firstn (length a) (a ++ b) = a.
Proof.
  rewrite firstn_app, Nat.sub_diag, firstn_O, app_nil_r.
  apply firstn_all.
Qed.

Lemma skipn_app_exact {A : Type} (a b : list A) :
  skipn (length a) (a ++ b) = b.
Proof.
  rewrite skipn_app, Nat.sub_diag, skipn_all. reflexivity.
Qed.

Lemma to_nat_len {A : Type} (s : list A) : Z.to_nat (len s) = length s.
Proof. unfold len. apply Nat2Z.id. Qed.

(** The slice that cuts the middle part out of three. *)
Lemma slice_middle {A : Type} (a m c : list A) (lo hi : Z) :
  lo = len a -> hi = len a + len m ->
  slice (a ++ m ++ c) lo hi = Some m.
Proof.
  intros -> ->. pose proof (len_nonneg a). pose proof (len_nonneg m).
  rewrite slice_Some.
  - replace (len a + len m - len a) with (len m) by lia.
    rewrite !to_nat_len, skipn_app_exact, firstn_app_exact. reflexivity.
  - lia.
  - rewrite !len_app. pose proof (len_nonneg c). lia.
Qed.

Lemma slice_front {A : Type} (m c : list A) (lo hi : Z) :
  lo = 0 -> hi = len m -> slice (m ++ c) lo hi = Some m.
Proof.
  intros -> ->. apply (slice_middle [] m c); reflexivity.
Qed.

Lemma copy_at_fits {A : Type} (dst : list A) (off : nat) (src : list A) :
  (off + length src <= length dst)%nat ->
  copy_at dst off src = firstn off dst ++ src ++ skipn (off + length src) dst.
Proof.
  intros H. unfold copy_at. rewrite (firstn_all2 (n := length dst - off)) by lia.
  reflexivity.
Qed.

Lemma slice_back {A : Type} (a m : list A) :
  slice_from (a ++ m) (len a) = Some m.
Proof.
  unfold slice_from. rewrite <- (app_nil_r m) at 1.
  apply slice_middle; [reflexivity|]. apply len_app.
Qed.

Lemma skipn_app_plus {A : Type} (a b : list A) (k : nat) :
  skipn (length a + k) (a ++ b) = skipn k b.
Proof.
  rewrite skipn_app. rewrite (skipn_all2 a) by lia.
  replace (length a + k - length a)%nat with k by lia. reflexivity.
Qed.


(** ** The byte buffer *)

Module BufferFacts.
Import Buffer.

Lemma ReadableBytes_exact (object : buffer) :
  0 <= readIndex object <= writeIndex object ->
  writeIndex object <= int_max ->
  ReadableBytes object = writeIndex object - readIndex object.
Proof.
  intros H1 H2. unfold ReadableBytes. apply wrap_int_small.
  unfold int_min, int_max in *. lia.
Qed.

(** C1, at an input the doubling does not cover: a buffer of capacity 1 is
    asked to take three bytes.  Less than three bytes are writable, the new
    array has 2 cells and not [max (2*1) (0+3) = 3], only two of the three
    bytes are stored, the write cursor ends at 3, past the capacity, and the
    readable region can no longer be sliced. *)
Theorem WriteBytes_overruns_capacity :
  let object := mkBuffer [x00] 0 0 0 0 in
  let bytes := [x01; x02; x03] in
  WriteableBytes object < len bytes /\
  exists object',
    WriteBytes bytes object = Some object' /\
    capacity object' = 2 /\
    Internal object' = [x01; x02] /\
    writeIndex object' = 3 /\
    capacity object' < writeIndex object' /\
    readable_region object' = None /\
    Slice (ReadableBytes object') object' = None.
Proof.
  cbv zeta. split; [reflexivity|].
  eexists. split; [vm_compute; reflexivity|].
  repeat split; reflexivity.
Qed.

(** [growth] reallocates to twice the capacity, whatever is asked for; an
    array of no capacity becomes one of the size asked for. *)
Lemma growth_capacity (needSize : Z) (object object' : buffer) :
  0 <= needSize ->
  2 * capacity object <= int_max ->
  growth needSize object = Some object' ->
  capacity object' =
    if wrap_int (writeIndex object + needSize) >? capacity object
    then (if capacity object =? 0 then needSize else 2 * capacity object)
    else capacity object.
Proof.
  intros Hn Hc. unfold growth.
  pose proof (len_nonneg (Internal object)) as Hl.
  destruct (wrap_int (writeIndex object + needSize) >? capacity object).
  - rewrite (wrap_int_small (2 * capacity object))
      by (unfold capacity, int_min in *; lia).
    unfold capacity in *.
    destruct (Z.eqb_spec (2 * len (Internal object)) 0) as [E|E].
    + destruct (Z.eqb_spec (len (Internal object)) 0); [|lia].
      rewrite make_Some by lia.
      intros Eq. injection Eq as <-. unfold with_Internal; cbn [Internal].
      unfold len. rewrite length_copy_at by lia.
      rewrite repeat_length. lia.
    + destruct (Z.eqb_spec (len (Internal object)) 0); [lia|].
      rewrite make_Some by lia.
      intros Eq. injection Eq as <-. unfold with_Internal; cbn [Internal].
      unfold len at 1. rewrite length_copy_at by lia.
      rewrite repeat_length, Z2Nat.id; [reflexivity|].
      change (0 <= 2 * len (Internal object)). lia.
  - intros Eq. injection Eq as <-. reflexivity.
Qed.

(** C9: compaction.  With the cursors in order and inside the array, and
    [seen] the view that [Slice(ReadableBytes())] gave before the call,
    [DiscardReadBytes] returns; the count of readable bytes is the same, the
    read cursor is 0, the write cursor is the old count, and the array starts
    with [seen], whether or not the two regions overlap. *)
Theorem DiscardReadBytes_compacts (object : buffer) (seen : list byte) :
  readIndex object <= writeIndex object ->
  writeIndex object <= capacity object ->
  capacity object <= int_max ->
  Slice (ReadableBytes object) object = Some seen ->
  exists object',
    DiscardReadBytes object = Some object' /\
    ReadableBytes object' = ReadableBytes object /\
    readIndex object' = 0 /\
    writeIndex object' = ReadableBytes object /\
    firstn (Z.to_nat (ReadableBytes object')) (Internal object') = seen /\
    capacity object' = capacity object.
Proof.
  intros Hrw Hwc Hcap Hseen.
  unfold Slice in Hseen. pose proof Hseen as Hs.
  apply slice_inv in Hs as (Hlo & _ & _).
  assert (R : ReadableBytes object = writeIndex object - readIndex object).
  { apply ReadableBytes_exact; lia. }
  rewrite R in *.
  replace (readIndex object + (writeIndex object - readIndex object))
    with (writeIndex object) in Hseen by lia.
  rewrite wrap_int_small in Hseen by (unfold int_min, int_max in *; lia).
  unfold DiscardReadBytes. rewrite Hseen.
  eexists. split; [reflexivity|].
  assert (W : wrap_int (writeIndex object - readIndex object)
              = writeIndex object - readIndex object).
  { apply wrap_int_small. unfold int_min, int_max in *. lia. }
  assert (L : length seen = Z.to_nat (writeIndex object - readIndex object)).
  { apply slice_inv in Hseen as (_ & Hhi & ->).
    rewrite length_firstn, length_skipn. unfold capacity, len in *. lia. }
  unfold ReadableBytes, capacity. simpl. rewrite W.
  replace (writeIndex object - readIndex object - 0)
    with (writeIndex object - readIndex object) by lia.
  rewrite W.
  repeat split.
  - rewrite <- L. apply (firstn_copy_at (Internal object) 0 seen).
    simpl. rewrite L. unfold capacity, len in *. lia.
  - unfold len. rewrite length_copy_at by lia. reflexivity.
Qed.

(** The compaction at work on regions that overlap. *)
Lemma DiscardReadBytes_compacts_witness :
  exists object',
    DiscardReadBytes (mkBuffer [x0a; x0b; x0c; x0d] 1 4 0 0) = Some object' /\
    ReadableBytes object' = 3 /\
    readIndex object' = 0 /\
    writeIndex object' = 3 /\
    firstn (Z.to_nat (ReadableBytes object')) (Internal object') = [x0b; x0c; x0d] /\
    capacity object' = 4.
Proof.
  apply (DiscardReadBytes_compacts (mkBuffer [x0a; x0b; x0c; x0d] 1 4 0 0)
                                   [x0b; x0c; x0d]).
  - simpl. lia.
  - vm_compute. discriminate.
  - vm_compute. discriminate.
  - reflexivity.
Defined.


(** Where the doubling does cover the request, [WriteBytes] does what C1
    says: the readable region grows by the bytes written and the write
    cursor stays inside the array. *)
Lemma WriteBytes_appends (bytes : list byte) (object : buffer)
    (region : list byte) :
  readable_region object = Some region ->
  2 * capacity object <= int_max ->
  len bytes <= int_max ->
  capacity object = 0 \/ writeIndex object + len bytes <= 2 * capacity object ->
  exists object',
    WriteBytes bytes object = Some object' /\
    readable_region object' = Some (region ++ bytes) /\
    readIndex object' = readIndex object /\
    writeIndex object' = writeIndex object + len bytes /\
    writeIndex object' <= capacity object'.
Proof.
  intros Hreg Hcap Hb Hfit. unfold readable_region in Hreg.
  apply slice_inv in Hreg as (Hrw & Hwc & Ereg).
  destruct object as [I r w mr mw]. unfold capacity in *.
  cbn [Internal readIndex writeIndex] in *.
  pose proof (len_nonneg bytes) as Hb0. pose proof (len_nonneg I) as HI0.
  assert (Hsum : wrap_int (w + len bytes) = w + len bytes).
  { apply wrap_int_small. unfold int_min, int_max in *. lia. }
  (* the array after [growth]: the old one, padded *)
  assert (G : exists pad,
             growth (len bytes) (mkBuffer I r w mr mw)
               = Some (mkBuffer (I ++ pad) r w mr mw) /\
             w + len bytes <= len (I ++ pad)).
  { unfold growth, capacity. cbn [Internal writeIndex]. rewrite Hsum.
    destruct (Z.gtb_spec (w + len bytes) (len I)) as [L|L].
    - rewrite (wrap_int_small (2 * len I))
        by (unfold int_min, int_max in *; lia).
      set (size := if 2 * len I =? 0 then len bytes else 2 * len I).
      assert (Hsize : len I <= size /\ w + len bytes <= size).
      { unfold size. destruct (Z.eqb_spec (2 * len I) 0); lia. }
      rewrite make_Some by lia.
      exists (skipn (length I) (repeat x00 (Z.to_nat size))).
      unfold with_Internal. cbn [Internal readIndex writeIndex
        markedReadIndex markedWriteIndex].
      rewrite copy_at_fits by (rewrite repeat_length; unfold len in *; lia).
      cbn [firstn app Nat.add]. split; [reflexivity|].
      rewrite len_app. unfold len. rewrite length_skipn, repeat_length.
      unfold len in *. lia.
    - exists []. rewrite app_nil_r. split; [reflexivity|lia]. }
  destruct G as (pad & G & Hroom).
  unfold WriteBytes. rewrite G. cbn [Internal writeIndex].
  unfold slice_from. rewrite slice_Some by lia.
  unfold SetWriteIndex, with_Internal. cbn [Internal readIndex writeIndex
    markedReadIndex markedWriteIndex].
  eexists. split; [reflexivity|].
  unfold readable_region, capacity.
  cbn [Internal readIndex writeIndex]. rewrite Hsum.
  assert (Hfits : (Z.to_nat w + length bytes <= length (I ++ pad))%nat)
    by (unfold len in *; lia).
  rewrite copy_at_fits by exact Hfits.
  assert (Front : firstn (Z.to_nat w) (I ++ pad) = firstn (Z.to_nat r) I ++ region).
  { rewrite firstn_app.
    replace (Z.to_nat w - length I)%nat with O by (unfold len in *; lia).
    rewrite firstn_O, app_nil_r, Ereg.
    rewrite <- (firstn_skipn (Z.to_nat r) (firstn (Z.to_nat w) I)).
    rewrite firstn_firstn, skipn_firstn_comm.
    replace (Nat.min (Z.to_nat r) (Z.to_nat w)) with (Z.to_nat r) by lia.
    replace (Z.to_nat w - Z.to_nat r)%nat with (Z.to_nat (w - r)) by lia.
    reflexivity. }
  rewrite Front, <- app_assoc.
  split; [|split; [reflexivity|split; [reflexivity|]]].
  - rewrite (app_assoc region). apply slice_middle.
    + unfold len. rewrite length_firstn. unfold len in *. lia.
    + rewrite len_app, Ereg. unfold len.
      rewrite !length_firstn, length_skipn. unfold len in *. lia.
  - rewrite app_assoc, <- Front, <- copy_at_fits by exact Hfits.
    unfold len. rewrite length_copy_at by lia. unfold len in Hroom. exact Hroom.
Qed.

End BufferFacts.

(** ** The framed pipe: closing and writing *)

Module XPipeFacts.
Import XPipe.

Lemma file_set_file_same (os : OS.state) (f : OS.fd) (v : OS.File) :
  OS.file (OS.set_file os f v) f = v.
Proof. unfold OS.set_file. simpl. rewrite Nat.eqb_refl. reflexivity. Qed.

Lemma file_set_file_other (os : OS.state) (f g : OS.fd) (v : OS.File) :
  g <> f -> OS.file (OS.set_file os f v) g = OS.file os g.
Proof.
  intros H. unfold OS.set_file. simpl.
  destruct (Nat.eqb_spec g f); [contradiction|reflexivity].
Qed.

(** A pipe whose flag is set ignores [Close], whatever the files are. *)
Lemma Close_closed (object : XPipe) (os : OS.state) :
  IsClosed object = true -> Close object os = (None, object, os).
Proof.
  unfold IsClosed, Close, CompareAndSwapInt32. intros H.
  apply Z.eqb_eq in H. rewrite <- H. reflexivity.
Qed.

(** The first [Close] of a pipe that owns open files. *)
Lemma Close_first (object : XPipe) (os : OS.state) :
  owns_open object os ->
  exists os1,
    Close object os = (None, mkXPipe 1 None None, os1) /\
    (forall r, ReadPipe object = Some r -> OS.f_open (OS.file os1 r) = false) /\
    (forall w, WritePipe object = Some w -> OS.f_open (OS.file os1 w) = false) /\
    (forall g, ReadPipe object <> Some g -> WritePipe object <> Some g ->
               OS.file os1 g = OS.file os g).
Proof.
  intros (Hc & Hr & Hw & Hd).
  destruct object as [c rp wp]. simpl in *. subst c.
  unfold Close, CompareAndSwapInt32. simpl.
  destruct rp as [r|], wp as [w|]; simpl.
  - unfold OS.Close at 1. rewrite (Hr r eq_refl). simpl.
    unfold OS.Close. rewrite file_set_file_other by (intros E; apply (Hd r w); congruence).
    rewrite (Hw w eq_refl). simpl.
    eexists. split; [reflexivity|]. repeat split.
    + intros r' E. injection E as <-.
      rewrite file_set_file_other by (apply (Hd r w); reflexivity).
      rewrite file_set_file_same. reflexivity.
    + intros w' E. injection E as <-. rewrite file_set_file_same. reflexivity.
    + intros g G1 G2. rewrite !file_set_file_other by congruence. reflexivity.
  - unfold OS.Close. rewrite (Hr r eq_refl). simpl.
    eexists. split; [reflexivity|]. repeat split.
    + intros r' E. injection E as <-. rewrite file_set_file_same. reflexivity.
    + discriminate.
    + intros g G1 G2. rewrite !file_set_file_other by congruence. reflexivity.
  - unfold OS.Close. rewrite (Hw w eq_refl). simpl.
    eexists. split; [reflexivity|]. repeat split.
    + discriminate.
    + intros w' E. injection E as <-. rewrite file_set_file_same. reflexivity.
    + intros g G1 G2. rewrite !file_set_file_other by congruence. reflexivity.
  - eexists. split; [reflexivity|]. repeat split; discriminate.
Qed.

Lemma Close_repeatedly_closed (n : nat) (object : XPipe) (os : OS.state) :
  IsClosed object = true ->
  Close_repeatedly n object os = (repeat None n, object, os).
Proof.
  intros H. induction n as [|n IH]; simpl; [reflexivity|].
  rewrite (Close_closed object os H), IH. reflexivity.
Qed.

(** The flag of a pipe never goes back: no method but [Close] writes it,
    and [Close] only sets it. *)
Lemma closed_stays (object : XPipe) (os : OS.state) (f : option OS.fd) :
  IsClosed object = true ->
  IsClosed (snd (fst (Close object os))) = true /\
  IsClosed (SetReadPipe f object) = true /\
  IsClosed (SetWritePipe f object) = true.
Proof.
  intros H. rewrite (Close_closed object os H). auto.
Qed.

(** C8: [Close] is idempotent.  On a pipe that has not been closed and holds
    open files, any number of calls in a row all return [nil]; after them
    the pipe reports closed, both files it held are closed, and the pipe and
    the system are as the first call left them: every later call, whenever it
    comes, changes nothing and returns [nil], and the setters leave the pipe
    closed (no other method writes the pipe at all). *)
Theorem Close_idempotent (n : nat) (object : XPipe) (os : OS.state) :
  owns_open object os ->
  exists object' os',
    Close_repeatedly (S n) object os = (repeat None (S n), object', os') /\
    Close object os = (None, object', os') /\
    IsClosed object' = true /\
    (forall os'', Close object' os'' = (None, object', os'')) /\
    (forall f, IsClosed (SetReadPipe f object') = true /\
               IsClosed (SetWritePipe f object') = true) /\
    (forall r, ReadPipe object = Some r -> OS.f_open (OS.file os' r) = false) /\
    (forall w, WritePipe object = Some w -> OS.f_open (OS.file os' w) = false).
Proof.
  intros H. destruct (Close_first object os H) as (os1 & E & Hr & Hw & _).
  exists (mkXPipe 1 None None), os1.
  split; [|split; [exact E|split; [reflexivity|split; [|split; [|split; assumption]]]]].
  - cbn [Close_repeatedly]. rewrite E.
    rewrite Close_repeatedly_closed by reflexivity. reflexivity.
  - intros os''. apply Close_closed. reflexivity.
  - intros f. split; reflexivity.
Qed.

(** Three calls of [Close] on a pipe fresh from [NewXPipe]. *)
Lemma Close_idempotent_witness :
  exists object' os',
    Close_repeatedly 3 (fst (NewXPipe boot)) (snd (NewXPipe boot))
      = ([None; None; None], object', os') /\
    Close (fst (NewXPipe boot)) (snd (NewXPipe boot)) = (None, object', os') /\
    IsClosed object' = true /\
    (forall os'', Close object' os'' = (None, object', os'')) /\
    (forall f, IsClosed (SetReadPipe f object') = true /\
               IsClosed (SetWritePipe f object') = true) /\
    (forall r, ReadPipe (fst (NewXPipe boot)) = Some r ->
               OS.f_open (OS.file os' r) = false) /\
    (forall w, WritePipe (fst (NewXPipe boot)) = Some w ->
               OS.f_open (OS.file os' w) = false).
Proof.
  apply (Close_idempotent 2 (fst (NewXPipe boot)) (snd (NewXPipe boot))).
  unfold owns_open. simpl. repeat split.
  - intros r E. injection E as <-. reflexivity.
  - intros w E. injection E as <-. reflexivity.
  - intros r w E1 E2. injection E1 as <-. injection E2 as <-. discriminate.
Defined.


(** *** Writing *)

Lemma after_write_refl (os : OS.state) (w : OS.fd) :
  OS.f_open (OS.file os w) = true ->
  after_write os os w [] (OS.f_write_plan (OS.file os w)).
Proof.
  intros H. unfold after_write. rewrite app_nil_r. repeat split; auto.
Qed.

Lemma after_write_trans (os os1 os2 : OS.state) (w : OS.fd)
    (sent1 sent2 : list byte) (plan1 plan2 : list OS.write_step) :
  after_write os os1 w sent1 plan1 -> after_write os1 os2 w sent2 plan2 ->
  after_write os os2 w (sent1 ++ sent2) plan2.
Proof.
  intros (A1 & A2 & A3 & A4 & A5 & A6) (B1 & B2 & B3 & B4 & B5 & B6).
  unfold after_write. repeat split; try congruence.
  - rewrite B2, A2, app_assoc. reflexivity.
  - intros g G. rewrite B6, A6 by assumption. reflexivity.
Qed.

Lemma after_write_set (os : OS.state) (w : OS.fd) (taken : list byte)
    (plan' : list OS.write_step) :
  let F := OS.file os w in
  after_write os
    (OS.set_file os w
       (OS.mkFile true (OS.f_incoming F) (OS.f_incoming_end F)
                  (OS.f_written F ++ taken) plan'))
    w taken plan'.
Proof.
  unfold after_write. rewrite file_set_file_same. simpl.
  repeat split. intros g G. apply file_set_file_other. exact G.
Qed.

(** The rest of a slice after a write took [n] of its bytes. *)
Lemma slice_from_taken (raw : list byte) (n : nat) :
  slice_from raw (len (firstn n raw)) = Some (skipn n raw).
Proof.
  unfold slice_from, len. rewrite slice_Some.
  - f_equal. rewrite Nat2Z.id, length_firstn.
    rewrite firstn_all2 by (rewrite length_skipn; lia).
    destruct (Nat.le_ge_cases n (length raw)) as [L|L].
    + rewrite Nat.min_l by exact L. reflexivity.
    + rewrite Nat.min_r by exact L.
      rewrite !skipn_all2 by lia. reflexivity.
  - rewrite length_firstn. lia.
  - unfold len. lia.
Qed.

Lemma no_failure_app (used rest : list OS.write_step) :
  no_failure (used ++ rest) = true -> no_failure rest = true.
Proof.
  induction used as [|[n|n e] used IH]; simpl; auto. discriminate.
Qed.

Lemma no_failure_In (plan : list OS.write_step) (n : nat) (e : error) :
  no_failure plan = true -> ~ In (OS.Fails n e) plan.
Proof.
  induction plan as [|[m|m e'] plan IH]; simpl; intros H I.
  - exact I.
  - destruct I as [E|I]; [discriminate|exact (IH H I)].
  - discriminate.
Qed.

(** The retry loop of [writeEmpty]: it ends within the fuel [writeEmpty]
    gives it.  Without an error every byte of [raw] has been taken; an
    error is one the file reported, after a prefix of [raw] was taken. *)
Lemma writeEmpty_loop_spec (object : XPipe) (w : OS.fd) :
  WritePipe object = Some w ->
  forall (plan : list OS.write_step) (fuel : nat) (os : OS.state)
         (raw : list byte),
    OS.f_open (OS.file os w) = true ->
    OS.f_write_plan (OS.file os w) = plan ->
    (length plan < fuel)%nat ->
    exists err os' sent used plan',
      writeEmpty_loop fuel object os raw = Done (err, os') /\
      after_write os os' w sent plan' /\
      plan = used ++ plan' /\
      (err = None -> sent = raw) /\
      (forall e, err = Some e ->
         (exists rest, raw = sent ++ rest) /\ exists n, In (OS.Fails n e) used).
Proof.
  intros Hw plan. induction plan as [|step plan IH]; intros fuel os raw Ho Hp Hf.
  - destruct fuel as [|fuel]; [simpl in Hf; lia|].
    cbn [writeEmpty_loop]. destruct (Z.ltb_spec 0 (len raw)) as [L|L].
    + unfold OS.Write. rewrite Hw, Ho, Hp. cbn [negb].
      replace (len raw) with (len (firstn (length raw) raw))
        by (rewrite firstn_all; reflexivity).
      rewrite slice_from_taken, skipn_all.
      replace (writeEmpty_loop fuel object _ []) with
        (@Done (option error * OS.state) (None,
           OS.set_file os w
             (OS.mkFile true (OS.f_incoming (OS.file os w))
                (OS.f_incoming_end (OS.file os w))
                (OS.f_written (OS.file os w) ++ raw) [])))
        by (destruct fuel; reflexivity).
      exists None, (OS.set_file os w
             (OS.mkFile true (OS.f_incoming (OS.file os w))
                (OS.f_incoming_end (OS.file os w))
                (OS.f_written (OS.file os w) ++ raw) [])), raw, [], [].
      split; [reflexivity|]. split; [apply after_write_set|].
      split; [reflexivity|]. split; [reflexivity|]. discriminate.
    + exists None, os, [], [], [].
      split; [reflexivity|]. split; [rewrite <- Hp; apply after_write_refl; exact Ho|].
      split; [reflexivity|]. split.
      * intros _. destruct raw; [reflexivity|].
        unfold len in L. simpl in L. lia.
      * discriminate.
  - destruct fuel as [|fuel]; [simpl in Hf; lia|].
    cbn [writeEmpty_loop]. destruct (Z.ltb_spec 0 (len raw)) as [L|L].
    + unfold OS.Write. rewrite Hw, Ho, Hp. cbn [negb].
      destruct step as [n|n e].
      * rewrite slice_from_taken.
        set (os1 := OS.set_file os w _).
        assert (A1 : after_write os os1 w (firstn n raw) plan)
          by apply after_write_set.
        destruct (IH fuel os1 (skipn n raw)) as
          (err & os' & sent & used & plan' & E & A2 & Hu & Hn & He).
        { apply A1. }
        { apply A1. }
        { simpl in Hf. lia. }
        exists err, os', (firstn n raw ++ sent), (OS.Accepts n :: used), plan'.
        split; [exact E|].
        split; [exact (after_write_trans _ _ _ _ _ _ _ _ A1 A2)|].
        split; [simpl; congruence|]. split.
        -- intros Hnone. rewrite (Hn Hnone). apply firstn_skipn.
        -- intros e He'. destruct (He e He') as ((rest & Hr) & (m & Hi)). split.
           ++ exists rest. rewrite <- app_assoc, <- Hr. symmetry. apply firstn_skipn.
           ++ exists m. right. exact Hi.
      * eexists (Some e), _, (firstn n raw), [OS.Fails n e], plan.
        split; [reflexivity|]. split; [apply after_write_set|].
        split; [reflexivity|]. split; [discriminate|].
        intros e' He'. injection He' as <-. split.
        -- exists (skipn n raw). symmetry. apply firstn_skipn.
        -- exists n. left. reflexivity.
    + exists None, os, [], [], (step :: plan).
      split; [reflexivity|]. split; [rewrite <- Hp; apply after_write_refl; exact Ho|].
      split; [reflexivity|]. split.
      * intros _. destruct raw; [reflexivity|].
        unfold len in L. simpl in L. lia.
      * discriminate.
Qed.

Lemma writeEmpty_spec (object : XPipe) (w : OS.fd) (os : OS.state)
    (raw : list byte) :
  WritePipe object = Some w ->
  OS.f_open (OS.file os w) = true ->
  exists err os' sent used plan',
    writeEmpty object os raw = Done (err, os') /\
    after_write os os' w sent plan' /\
    OS.f_write_plan (OS.file os w) = used ++ plan' /\
    (err = None -> sent = raw) /\
    (forall e, err = Some e ->
       (exists rest, raw = sent ++ rest) /\ exists n, In (OS.Fails n e) used).
Proof.
  intros Hw Ho. unfold writeEmpty, writeEmpty_fuel. rewrite Hw.
  apply (writeEmpty_loop_spec object w Hw _ _ os raw Ho eq_refl). lia.
Qed.


(** [Write] on an open pipe: the header, then the payload. *)
Lemma Write_open (object : XPipe) (os : OS.state) (raw : list byte)
    (w : OS.fd) :
  WritePipe object = Some w ->
  OS.f_open (OS.file os w) = true ->
  IsClosed object = false ->
  exists err os' sent used plan',
    Write object os raw = Done (err, os') /\
    after_write os os' w sent plan' /\
    OS.f_write_plan (OS.file os w) = used ++ plan' /\
    (err = None -> sent = frame raw) /\
    (forall e, err = Some e ->
       (exists rest, frame raw = sent ++ rest) /\
       exists n, In (OS.Fails n e) used).
Proof.
  intros Hw Ho Hc. unfold Write. rewrite Hc.
  destruct (writeEmpty_spec object w os (PutUint32 (uint32 (len raw))) Hw Ho)
    as (err1 & os1 & sent1 & used1 & plan1 & E1 & A1 & P1 & N1 & F1).
  rewrite E1. destruct err1 as [e1|].
  - exists (Some e1), os1, sent1, used1, plan1.
    split; [reflexivity|]. split; [exact A1|]. split; [exact P1|].
    split; [discriminate|].
    intros e He. destruct (F1 e He) as ((rest & Hr) & Hi). split; [|exact Hi].
    exists (rest ++ raw). unfold frame. rewrite Hr, app_assoc. reflexivity.
  - rewrite (N1 eq_refl) in A1.
    assert (Ho1 : OS.f_open (OS.file os1 w) = true) by apply A1.
    destruct (writeEmpty_spec object w os1 raw Hw Ho1)
      as (err2 & os2 & sent2 & used2 & plan2 & E2 & A2 & P2 & N2 & F2).
    exists err2, os2, (PutUint32 (uint32 (len raw)) ++ sent2),
           (used1 ++ used2), plan2.
    split; [exact E2|].
    split; [exact (after_write_trans _ _ _ _ _ _ _ _ A1 A2)|].
    split.
    { rewrite P1. destruct A1 as (_ & _ & Hp & _). rewrite Hp in P2.
      rewrite P2, app_assoc. reflexivity. }
    split.
    { intros Hn. rewrite (N2 Hn). reflexivity. }
    intros e He. destruct (F2 e He) as ((rest & Hr) & (n & Hi)). split.
    + exists rest. unfold frame. rewrite <- app_assoc, <- Hr. reflexivity.
    + exists n. apply in_or_app. right. exact Hi.
Qed.








(** Payloads written one after the other through a file that reports no
    error all arrive, frame after frame. *)
Lemma Write_all_stream (object : XPipe) (w : OS.fd)
    (payloads : list (list byte)) :
  WritePipe object = Some w ->
  IsClosed object = false ->
  forall os,
    OS.f_open (OS.file os w) = true ->
    no_failure (OS.f_write_plan (OS.file os w)) = true ->
    exists os',
      Write_all object os payloads = Done (None, os') /\
      OS.f_written (OS.file os' w)
        = OS.f_written (OS.file os w) ++ stream payloads /\
      (forall g, g <> w -> OS.file os' g = OS.file os g).
Proof.
  intros Hw Hc. induction payloads as [|raw rest IH]; intros os Ho Hnf.
  - exists os. unfold stream. simpl. rewrite app_nil_r. auto.
  - destruct (Write_open object os raw w Hw Ho Hc)
      as (err & os1 & sent & used & plan' & E & A & P & N & F).
    assert (err = None) as ->.
    { destruct err as [e|]; [|reflexivity].
      destruct (F e eq_refl) as (_ & (n & Hi)).
      exfalso. apply (no_failure_In _ n e Hnf).
      rewrite P. apply in_or_app. left. exact Hi. }
    rewrite (N eq_refl) in A.
    destruct A as (A1 & A2 & A3 & A4 & A5 & A6).
    destruct (IH os1) as (os' & E' & W' & G').
    { exact A1. }
    { rewrite A3. rewrite P in Hnf. exact (no_failure_app _ _ Hnf). }
    exists os'. cbn [Write_all]. rewrite E. split; [exact E'|]. split.
    + rewrite W', A2. unfold stream. simpl. rewrite <- app_assoc. reflexivity.
    + intros g G. rewrite G', A6 by exact G. reflexivity.
Qed.


(** [Write] returns on every pipe, in every system: its loops end within
    their fuel and no slice goes out of bounds. *)
Lemma Write_returns (object : XPipe) (os : OS.state) (raw : list byte) :
  exists err os', Write object os raw = Done (err, os').
Proof.
  destruct (IsClosed object) eqn:Hc.
  - unfold Write. rewrite Hc. eexists _, _. reflexivity.
  - destruct (WritePipe object) as [w|] eqn:Hw.
    + destruct (OS.f_open (OS.file os w)) eqn:Ho.
      * destruct (Write_open object os raw w Hw Ho Hc)
          as (err & os' & _ & _ & _ & E & _).
        exists err, os'. exact E.
      * unfold Write, writeEmpty, writeEmpty_fuel. rewrite Hc, Hw.
        cbn [writeEmpty_loop]. change (0 <? len (PutUint32 _)) with true.
        cbv iota. unfold OS.Write. rewrite Hw, Ho. cbn [negb].
        eexists _, _. reflexivity.
    + unfold Write, writeEmpty, writeEmpty_fuel. rewrite Hc, Hw.
      cbn [writeEmpty_loop]. change (0 <? len (PutUint32 _)) with true.
      cbv iota. unfold OS.Write. rewrite Hw.
      eexists _, _. reflexivity.
Qed.

(** *** The pipes of a child command *)

(** [NewXCmd] wires two pipes: the child inherits, as its descriptors 3 and
    4, the read end of the pipe the parent writes to and the write end of
    the pipe the parent reads from; the four ends are different, open
    files, and the next descriptor a listener gets is 5. *)
Lemma NewXCmd_wiring (os : OS.state) :
  let n := OS.next_fd os in
  let c := fst (XCmd.NewXCmd os) in
  let os' := snd (XCmd.NewXCmd os) in
  XCmd.readPipe c = Some (mkXPipe 0 (Some n) (Some (S n))) /\
  XCmd.writePipe c = Some (mkXPipe 0 (Some (S (S n))) (Some (S (S (S n))))) /\
  XCmd.ExtraFiles c = [Some (S (S n)); Some (S n)] /\
  XCmd.NextFd (XCmd.AddFile None c) = 5 /\
  (forall g, (n <= g < 4 + n)%nat -> OS.f_open (OS.file os' g) = true).
Proof.
  cbv zeta. unfold XCmd.NewXCmd, NewXPipe, OS.Pipe.
  cbn [fst snd XCmd.readPipe XCmd.writePipe XCmd.ExtraFiles OS.next_fd
       GetReadPipe GetWritePipe ReadPipe WritePipe].
  split; [reflexivity|]. split; [reflexivity|]. split; [reflexivity|].
  split; [reflexivity|].
  intros g Hg. cbn [OS.file].
  destruct (Nat.eqb_spec g (S (S (OS.next_fd os)))); [reflexivity|].
  destruct (Nat.eqb_spec g (S (S (S (OS.next_fd os))))); [reflexivity|].
  cbn [orb].
  destruct (Nat.eqb_spec g (OS.next_fd os)); [reflexivity|].
  destruct (Nat.eqb_spec g (S (OS.next_fd os))); [reflexivity|].
  lia.
Qed.

End XPipeFacts.

(** ** The framed pipe: reading *)

Module ReadFacts.
Import Buffer XPipe XPipeFacts.

Lemma holds_len (readBuf : buffer) (pend : list byte) :
  holds readBuf pend -> 0 <= len pend <= 65536.
Proof.
  intros (junk & HI & HL & _). rewrite HI, len_app in HL.
  pose proof (len_nonneg pend). pose proof (len_nonneg junk). lia.
Qed.

Lemma holds_ReadableBytes (readBuf : buffer) (pend : list byte) :
  holds readBuf pend -> ReadableBytes readBuf = len pend.
Proof.
  intros H. pose proof (holds_len _ _ H) as L.
  destruct H as (junk & HI & HL & Hr & Hw).
  unfold ReadableBytes. rewrite Hr, Hw, Z.sub_0_r. apply wrap_int_small.
  unfold int_min, int_max. lia.
Qed.

Lemma NewBuffer_holds :
  exists readBuf, NewBuffer (Z.shiftl 1 16) = Some readBuf /\ holds readBuf [].
Proof.
  change (Z.shiftl 1 16) with 65536. unfold NewBuffer.
  rewrite make_Some by lia. eexists. split; [reflexivity|].
  exists (repeat x00 (Z.to_nat 65536)). cbn [Internal readIndex writeIndex].
  split; [reflexivity|]. split; [|split; reflexivity].
  unfold len. rewrite repeat_length. apply Z2Nat.id. lia.
Qed.

Lemma Read_frames_unfold {S : Type} (callback : visitor S) (fuel : nat)
    (readBuf : buffer) (flag : bool) (st : S) :
  Read_frames callback fuel readBuf flag st =
  if 4 <=? ReadableBytes readBuf then
    match fuel with
    | O => OutOfFuel
    | Datatypes.S fuel =>
        match Slice 4 readBuf with
        | None => Panics
        | Some header =>
            match Uint32 header with
            | None => Panics
            | Some chunkSize =>
                if wrap_int (chunkSize + 4) >? ReadableBytes readBuf
                then Done (readBuf, flag, st)
                else
                  let readBuf :=
                    SetReadIndex (wrap_int (GetReadIndex readBuf + 4)) readBuf in
                  match Slice chunkSize readBuf with
                  | None => Panics
                  | Some data =>
                      let '(st, flag) := callback st data in
                      if negb flag then Done (readBuf, flag, st)
                      else
                        let readBuf :=
                          SetReadIndex
                            (wrap_int (GetReadIndex readBuf + chunkSize))
                            readBuf in
                        match DiscardReadBytes readBuf with
                        | None => Panics
                        | Some readBuf =>
                            Read_frames callback fuel readBuf flag st
                        end
                  end
            end
        end
    end
  else Done (readBuf, flag, st).
Proof. destruct fuel; reflexivity. Qed.

(** A list of four bytes or more, with its first four set apart. *)
Lemma four_or_more (l : list byte) :
  4 <= len l ->
  exists b0 b1 b2 b3 rest, l = [b0; b1; b2; b3] ++ rest.
Proof.
  intros H. destruct l as [|b0 [|b1 [|b2 [|b3 rest]]]];
    try (unfold len in H; simpl in H; lia).
  exists b0, b1, b2, b3, rest. reflexivity.
Qed.

(** The inner loop leaves an incomplete frame where it is and calls no
    visitor. *)
Lemma Read_frames_incomplete {S : Type} (callback : visitor S) (fuel : nat)
    (readBuf : buffer) (pend : list byte) (flag : bool) (st : S) :
  holds readBuf pend -> incomplete pend -> (4 <= len pend -> fuel <> O) ->
  Read_frames callback fuel readBuf flag st = Done (readBuf, flag, st).
Proof.
  intros H Hi Hf. rewrite Read_frames_unfold.
  rewrite (holds_ReadableBytes _ _ H).
  destruct (Z.leb_spec 4 (len pend)) as [L|L]; [|reflexivity].
  destruct fuel as [|fuel]; [exfalso; apply (Hf L); reflexivity|].
  destruct Hi as [Hi|(v & Hv & Hr & Hlt)]; [lia|].
  destruct (four_or_more pend L) as (b0 & b1 & b2 & b3 & rest & ->).
  destruct H as (junk & HI & HL & Hrd & Hw).
  unfold Slice. rewrite Hrd, HI, <- app_assoc.
  rewrite (slice_front [b0; b1; b2; b3] (rest ++ junk) 0
             (wrap_int (0 + 4)) eq_refl eq_refl).
  change (Uint32 [b0; b1; b2; b3] = Some v) in Hv. rewrite Hv.
  rewrite wrap_int_small by (unfold int_min, int_max; lia).
  destruct (Z.gtb_spec (v + 4) (len ([b0; b1; b2; b3] ++ rest))); [reflexivity|lia].
Qed.

(** One turn of the inner loop on a buffer that starts with four bytes
    that announce a payload and with that payload: the visitor gets the
    payload; should it want more, header and payload are dropped from the
    buffer and what followed them moves to the front. *)
Lemma Read_frames_turn {S : Type} (callback : visitor S) (fuel : nat)
    (readBuf : buffer) (header payload tail : list byte) (flag : bool)
    (st : S) :
  holds readBuf ((header ++ payload) ++ tail) ->
  len header = 4 ->
  Uint32 header = Some (len payload) ->
  exists readBuf1 readBuf',
    holds readBuf' tail /\
    Read_frames callback (Datatypes.S fuel) readBuf flag st =
    (let '(st', more) := callback st payload in
     if more then Read_frames callback fuel readBuf' true st'
     else Done (readBuf1, false, st')).
Proof.
  intros H Hh Hv.
  pose proof (len_nonneg payload) as Hp0. pose proof (len_nonneg tail) as Ht0.
  pose proof (holds_len _ _ H) as HLen.
  rewrite Read_frames_unfold, (holds_ReadableBytes _ _ H).
  destruct H as (junk & HI & HL & Hrd & Hw).
  rewrite !len_app, Hh in *.
  destruct (Z.leb_spec 4 (4 + len payload + len tail)) as [_|]; [|lia].
  destruct readBuf as [I rd wr mr mw]. cbn [Internal readIndex writeIndex] in *.
  subst rd wr.
  assert (EI : I = header ++ payload ++ tail ++ junk).
  { rewrite HI, <- !app_assoc. reflexivity. }
  assert (W4 : wrap_int (0 + 4) = 4) by reflexivity.
  assert (S1 : slice I 0 4 = Some header).
  { rewrite EI. apply slice_front; [reflexivity|]. symmetry. exact Hh. }
  assert (S2 : slice I 4 (4 + len payload) = Some payload).
  { rewrite EI. apply slice_middle; rewrite Hh; reflexivity. }
  assert (S3 : slice I (4 + len payload) (4 + len payload + len tail) = Some tail).
  { rewrite EI, app_assoc. apply slice_middle; rewrite len_app, Hh; reflexivity. }
  set (readBuf' := mkBuffer (copy_at I 0 tail) 0 (len tail) mr mw).
  exists (mkBuffer I 4 (4 + len payload + len tail) mr mw), readBuf'.
  split.
  - exists (skipn (0 + length tail) I). unfold readBuf'.
    cbn [Internal readIndex writeIndex].
    assert (Hfit : (0 + length tail <= length I)%nat).
    { unfold len in *. lia. }
    rewrite copy_at_fits by exact Hfit. cbn [firstn app].
    split; [reflexivity|]. split; [|split; reflexivity].
    unfold len. rewrite length_app, length_skipn. unfold len in *. lia.
  - unfold Slice at 1. cbn [Internal readIndex]. rewrite W4, S1, Hv.
    rewrite (wrap_int_small (len payload + 4)) by (unfold int_min, int_max; lia).
    destruct (Z.gtb_spec (len payload + 4) (4 + len payload + len tail)); [lia|].
    unfold GetReadIndex, SetReadIndex. cbn [Internal readIndex writeIndex
      markedReadIndex markedWriteIndex].
    cbv zeta. unfold Slice. cbn [Internal readIndex]. rewrite W4.
    rewrite (wrap_int_small (4 + len payload)) by (unfold int_min, int_max; lia).
    rewrite S2.
    destruct (callback st payload) as [st' more].
    destruct more; cbn [negb]; [|reflexivity].
    unfold DiscardReadBytes.
    cbn [Internal readIndex writeIndex markedReadIndex markedWriteIndex].
    rewrite S3.
    replace (wrap_int (4 + len payload + len tail - (4 + len payload)))
      with (len tail)
      by (symmetry; rewrite wrap_int_small;
          [lia | unfold int_min, int_max; lia]).
    reflexivity.
Qed.

(** The same turn on a buffer that starts with a frame as [Write] makes
    it. *)
Lemma Read_frames_step {S : Type} (callback : visitor S) (fuel : nat)
    (readBuf : buffer) (payload tail : list byte) (flag : bool) (st : S) :
  holds readBuf (frame payload ++ tail) ->
  len payload <= max_payload ->
  exists readBuf1 readBuf',
    holds readBuf' tail /\
    Read_frames callback (Datatypes.S fuel) readBuf flag st =
    (let '(st', more) := callback st payload in
     if more then Read_frames callback fuel readBuf' true st'
     else Done (readBuf1, false, st')).
Proof.
  intros H Hsmall. unfold max_payload in Hsmall.
  pose proof (len_nonneg payload) as Hp0.
  apply (Read_frames_turn callback fuel readBuf
           (PutUint32 (uint32 (len payload))) payload tail flag st H);
    [reflexivity|].
  rewrite <- (app_nil_r (PutUint32 _)).
  rewrite Uint32_PutUint32 by apply uint32_range.
  rewrite uint32_small by lia. reflexivity.
Qed.

Lemma visit_frames_app {S : Type} (callback : visitor S) (st : S)
    (bs1 bs2 : list (list byte)) :
  visit_frames callback st (bs1 ++ bs2) =
  (let '(st1, more) := visit_frames callback st bs1 in
   if more then visit_frames callback st1 bs2 else (st1, false)).
Proof.
  revert st. induction bs1 as [|b bs1 IH]; intros st; simpl.
  - destruct (visit_frames callback st bs2) as [st2 more]. reflexivity.
  - destruct (callback st b) as [st' more]. destruct more; [apply IH|reflexivity].
Qed.

Lemma visit_frames_recorder (seen : list (list byte))
    (payloads : list (list byte)) :
  visit_frames recorder seen payloads = (seen ++ payloads, true).
Proof.
  revert seen. induction payloads as [|b bs IH]; intros seen; simpl.
  - rewrite app_nil_r. reflexivity.
  - rewrite IH, <- app_assoc. reflexivity.
Qed.

Lemma stream_cons (b : list byte) (bs : list (list byte)) :
  stream (b :: bs) = frame b ++ stream bs.
Proof. reflexivity. Qed.

Lemma stream_app (bs1 bs2 : list (list byte)) :
  stream (bs1 ++ bs2) = stream bs1 ++ stream bs2.
Proof. unfold stream. rewrite map_app, concat_app. reflexivity. Qed.

Lemma len_frame (b : list byte) : len (frame b) = 4 + len b.
Proof. unfold frame. rewrite len_app. reflexivity. Qed.

Lemma stream_length (bs : list (list byte)) :
  (4 * length bs <= length (stream bs))%nat.
Proof.
  induction bs as [|b bs IH]; [simpl; lia|].
  rewrite stream_cons, length_app. unfold frame. rewrite length_app.
  change (length (PutUint32 (uint32 (len b)))) with 4%nat. simpl length. lia.
Qed.

(** The inner loop on a buffer that starts with whole frames and ends in an
    incomplete one: the visitor gets the payloads in order until it stops;
    if it never stops, the incomplete rest is what the buffer holds. *)
Lemma Read_frames_stream {S : Type} (callback : visitor S)
    (bs : list (list byte)) :
  all_fit bs ->
  forall (pend : list byte) (fuel : nat) (readBuf : buffer) (st : S),
    holds readBuf (stream bs ++ pend) -> incomplete pend ->
    (length bs < fuel)%nat ->
    exists readBuf',
      Read_frames callback fuel readBuf true st =
        Done (readBuf', snd (visit_frames callback st bs),
              fst (visit_frames callback st bs)) /\
      (snd (visit_frames callback st bs) = true -> holds readBuf' pend).
Proof.
  intros Hfit. induction Hfit as [|b bs Hb Hbs IH];
    intros pend fuel readBuf st H Hi Hf.
  - exists readBuf. split; [|intros _; exact H].
    apply (Read_frames_incomplete callback fuel readBuf pend); try assumption.
    intros _. simpl in Hf. lia.
  - destruct fuel as [|fuel]; [lia|].
    rewrite stream_cons, <- app_assoc in H.
    destruct (Read_frames_step callback fuel readBuf b (stream bs ++ pend)
                true st H Hb) as (readBuf1 & readBuf2 & H2 & E).
    rewrite E. cbn [visit_frames].
    destruct (callback st b) as [st' more]. destruct more.
    + apply IH; try assumption. simpl in Hf. lia.
    + exists readBuf1. split; [reflexivity|]. discriminate.
Qed.

Lemma split_at_frames (bs : list (list byte)) :
  forall P Q : list byte,
    stream bs = P ++ Q ->
    exists bs1 bs2 pend,
      bs = bs1 ++ bs2 /\ P = stream bs1 ++ pend /\
      pend ++ Q = stream bs2 /\ cut_inside pend bs2.
Proof.
  induction bs as [|b bs IH]; intros P Q E.
  - symmetry in E. apply app_eq_nil in E as [-> ->].
    exists [], [], []. repeat split.
  - rewrite stream_cons in E.
    apply app_eq_app in E as (l & [(E1 & E2)|(E1 & E2)]).
    + destruct l as [|x l].
      * rewrite app_nil_r in E1. simpl in E2. subst Q.
        destruct (IH [] (stream bs) eq_refl) as (bs1 & bs2 & pend & B & Pe & Qe & C).
        symmetry in Pe. apply app_eq_nil in Pe as [Pe1 Pe2]. subst pend.
        exists [b], bs, []. rewrite stream_cons. change (stream []) with (@nil byte).
        rewrite !app_nil_r. repeat split; try (symmetry; assumption).
        destruct bs as [|b' bs']; [reflexivity|].
        exists (frame b'). split; [reflexivity|]. discriminate.
      * exists [], (b :: bs), P. rewrite stream_cons.
        split; [reflexivity|]. split; [reflexivity|]. split.
        -- rewrite E2, E1, <- app_assoc. reflexivity.
        -- exists (x :: l). split; [exact E1|discriminate].
    + destruct (IH l Q E2) as (bs1 & bs2 & pend & B & Pe & Qe & C).
      exists (b :: bs1), bs2, pend. rewrite stream_cons.
      split; [simpl; congruence|]. split; [|split; assumption].
      rewrite E1, Pe, app_assoc. reflexivity.
Qed.

(** Inside a frame that fits, the cut leaves an incomplete frame. *)
Lemma cut_inside_incomplete (pend : list byte) (bs : list (list byte)) :
  all_fit bs -> cut_inside pend bs -> incomplete pend.
Proof.
  intros Hfit C. destruct bs as [|b bs]; simpl in C.
  - subst pend. left. reflexivity.
  - destruct C as (rest & E & Hne). inversion Hfit as [|? ? Hb _]; subst.
    unfold max_payload in Hb. pose proof (len_nonneg b) as Hb0.
    destruct (Z.ltb_spec (len pend) 4) as [L|L]; [left; exact L|right].
    exists (len b).
    assert (Hlen : len pend + len rest = 4 + len b).
    { rewrite <- len_app, <- E. apply len_frame. }
    assert (Hrest : 0 < len rest).
    { destruct rest; [contradiction|]. unfold len. simpl. lia. }
    split; [|split; lia].
    destruct (four_or_more pend L) as (b0 & b1 & b2 & b3 & p' & ->).
    unfold frame in E. change (PutUint32 (uint32 (len b)))
      with [byte_of_Z (Z.shiftr (uint32 (len b)) 24);
            byte_of_Z (Z.shiftr (uint32 (len b)) 16);
            byte_of_Z (Z.shiftr (uint32 (len b)) 8);
            byte_of_Z (uint32 (len b))] in E.
    simpl in E. injection E as <- <- <- <- _.
    change (Uint32 (PutUint32 (uint32 (len b)) ++ p') = Some (len b)).
    rewrite Uint32_PutUint32 by apply uint32_range.
    rewrite uint32_small by lia. reflexivity.
Qed.

Lemma cut_inside_room (pend : list byte) (bs : list (list byte)) :
  all_fit bs -> cut_inside pend bs -> len pend < 65536.
Proof.
  intros Hfit C. destruct bs as [|b bs]; simpl in C.
  - subst pend. reflexivity.
  - destruct C as (rest & E & Hne). inversion Hfit as [|? ? Hb _]; subst.
    unfold max_payload in Hb.
    assert (Hlen : len pend + len rest = 4 + len b).
    { rewrite <- len_app, <- E. apply len_frame. }
    assert (Hrest : 0 < len rest).
    { destruct rest; [contradiction|]. unfold len. simpl. lia. }
    lia.
Qed.

(** *** What a read on the file returns *)

Lemma take_chunk_None (room : nat) (chunks : list (list byte)) :
  concat chunks = [] -> OS.take_chunk room chunks = None.
Proof.
  induction chunks as [|c chunks IH]; simpl; [reflexivity|].
  intros E. apply app_eq_nil in E as [-> E]. apply IH, E.
Qed.

Lemma take_chunk_Some (room : nat) (chunks : list (list byte)) :
  room <> O -> concat chunks <> [] ->
  exists data rest,
    OS.take_chunk room chunks = Some (data, rest) /\
    data <> [] /\ (length data <= room)%nat /\
    concat chunks = data ++ concat rest /\
    (OS.reads_bound rest < OS.reads_bound chunks)%nat.
Proof.
  intros Hroom. induction chunks as [|c chunks IH]; simpl; [congruence|].
  intros Hne. destruct c as [|x c].
  - destruct (IH Hne) as (data & rest & E & D & L & C & B).
    exists data, rest. repeat split; try assumption. simpl. lia.
  - destruct (Nat.leb_spec (length (x :: c)) room) as [L|L].
    + exists (x :: c), chunks. repeat split; try assumption.
      * discriminate.
      * simpl. lia.
    + exists (firstn room (x :: c)), (skipn room (x :: c) :: chunks).
      split; [reflexivity|]. split.
      { destruct room; [congruence|]. simpl. discriminate. }
      split.
      { rewrite length_firstn. lia. }
      split.
      { cbn [concat]. rewrite app_assoc, firstn_skipn. reflexivity. }
      cbn [OS.reads_bound]. rewrite length_skipn. lia.
Qed.

Lemma OS_Read_no_room (os : OS.state) (r : OS.fd) :
  OS.f_open (OS.file os r) = true ->
  OS.Read os (Some r) O = ([], None, os).
Proof. intros Ho. unfold OS.Read. rewrite Ho. reflexivity. Qed.

Lemma OS_Read_data (os : OS.state) (r : OS.fd) (room : nat)
    (data : list byte) (rest : list (list byte)) :
  OS.f_open (OS.file os r) = true -> room <> O ->
  OS.take_chunk room (OS.f_incoming (OS.file os r)) = Some (data, rest) ->
  OS.Read os (Some r) room =
  (data, None,
   OS.set_file os r
     (OS.mkFile true rest (OS.f_incoming_end (OS.file os r))
                (OS.f_written (OS.file os r))
                (OS.f_write_plan (OS.file os r)))).
Proof.
  intros Ho Hroom E. unfold OS.Read. rewrite Ho, E.
  destruct room; [congruence|]. reflexivity.
Qed.

Lemma OS_Read_end (os : OS.state) (r : OS.fd) (room : nat) :
  OS.f_open (OS.file os r) = true -> room <> O ->
  OS.take_chunk room (OS.f_incoming (OS.file os r)) = None ->
  OS.Read os (Some r) room =
  ([], Some (OS.f_incoming_end (OS.file os r)),
   OS.set_file os r
     (OS.mkFile true [] (OS.f_incoming_end (OS.file os r))
                (OS.f_written (OS.file os r))
                (OS.f_write_plan (OS.file os r)))).
Proof.
  intros Ho Hroom E. unfold OS.Read. rewrite Ho, E.
  destruct room; [congruence|]. reflexivity.
Qed.

(** The buffer after a read delivered [data] behind the bytes it held. *)
Lemma holds_after_read (readBuf : buffer) (pend junk data : list byte) :
  Internal readBuf = pend ++ junk ->
  len (Internal readBuf) = 65536 ->
  readIndex readBuf = 0 ->
  writeIndex readBuf = len pend ->
  (length data <= length junk)%nat ->
  holds
    (SetWriteIndex (wrap_int (GetWriteIndex readBuf + len data))
       (with_Internal readBuf
          (copy_at (Internal readBuf) (Z.to_nat (GetWriteIndex readBuf)) data)))
    (pend ++ data).
Proof.
  intros HI HL Hr Hw Hd. exists (skipn (length data) junk).
  unfold SetWriteIndex, with_Internal, GetWriteIndex.
  cbn [Internal readIndex writeIndex]. rewrite Hw, to_nat_len.
  assert (Hfit : (length pend + length data <= length (Internal readBuf))%nat).
  { rewrite HI, length_app. lia. }
  rewrite copy_at_fits by exact Hfit.
  assert (Hl : len pend + len junk = 65536) by (rewrite <- len_app, <- HI; exact HL).
  pose proof (len_nonneg pend). pose proof (len_nonneg junk).
  split; [|split; [|split]].
  - rewrite HI, firstn_app_exact, skipn_app_plus, <- app_assoc. reflexivity.
  - unfold len. rewrite !length_app, length_skipn, length_firstn.
    unfold len in *. lia.
  - exact Hr.
  - rewrite len_app. apply wrap_int_small.
    unfold int_min, int_max, len in *. lia.
Qed.

(** *** The outer loop *)

Lemma all_fit_app (bs1 bs2 : list (list byte)) :
  all_fit (bs1 ++ bs2) -> all_fit bs1 /\ all_fit bs2.
Proof. unfold all_fit. apply Forall_app. Qed.

(** [Read] on a stream of frames that fit: whatever pieces the file cuts the
    stream into, the visitor gets the payloads in order until it stops. *)
Lemma Read_loop_stream {S : Type} (callback : visitor S) (object : XPipe)
    (r : OS.fd) :
  ReadPipe object = Some r ->
  forall (fuel : nat) (bs : list (list byte)) (pend : list byte)
         (readBuf : buffer) (os : OS.state) (st : S),
    all_fit bs ->
    OS.f_open (OS.file os r) = true ->
    holds readBuf pend ->
    pend ++ concat (OS.f_incoming (OS.file os r)) = stream bs ->
    cut_inside pend bs ->
    (OS.reads_bound (OS.f_incoming (OS.file os r)) < fuel)%nat ->
    exists os',
      Read_loop callback fuel object os readBuf st =
      Done (if snd (visit_frames callback st bs)
            then Some (OS.f_incoming_end (OS.file os r)) else None,
            os', fst (visit_frames callback st bs)).
Proof.
  intros Hrp fuel. induction fuel as [|fuel IH];
    intros bs pend readBuf os st Hfit Ho H Hs Hc Hf; [lia|].
  pose proof (cut_inside_room pend bs Hfit Hc) as Hroom.
  destruct H as (junk & HI & HL & Hr & Hw).
  assert (Hl : len pend + len junk = 65536)
    by (rewrite <- len_app, <- HI; exact HL).
  assert (Hj : length junk <> O) by (unfold len in *; lia).
  assert (Sl : slice_from (Internal readBuf) (GetWriteIndex readBuf) = Some junk).
  { unfold GetWriteIndex. rewrite HI, Hw. apply slice_back. }
  cbn [Read_loop]. rewrite Sl, Hrp.
  destruct bs as [|b bs'].
  - (* nothing more is due: the stream ends *)
    simpl in Hc. subst pend. simpl in Hs.
    rewrite (OS_Read_end os r _ Ho Hj (take_chunk_None _ _ Hs)).
    cbv beta iota zeta. cbn [visit_frames fst snd].
    destruct (is_EOF (OS.f_incoming_end (OS.file os r)));
      eexists; reflexivity.
  - (* inside a frame: the file has more *)
    assert (Hne : concat (OS.f_incoming (OS.file os r)) <> []).
    { destruct Hc as (rest & E & Hrest). intros E0.
      rewrite E0, app_nil_r, stream_cons in Hs.
      rewrite E, <- app_assoc in Hs.
      apply (f_equal (@length byte)) in Hs.
      rewrite !length_app in Hs. destruct rest; [congruence|]. simpl in Hs. lia. }
    destruct (take_chunk_Some _ _ Hj Hne) as (data & rest & E & Dne & DL & Cc & Bd).
    rewrite (OS_Read_data os r _ data rest Ho Hj E).
    set (os1 := OS.set_file os r _).
    cbv beta iota zeta.
    assert (Hn : 0 < len data).
    { destruct data; [congruence|]. unfold len. simpl. lia. }
    destruct (Z.geb_spec 0 (len data)) as [|_]; [lia|].
    pose proof (holds_after_read readBuf pend junk data HI HL Hr Hw DL) as H1.
    set (readBuf1 := SetWriteIndex _ _) in *.
    rewrite (holds_ReadableBytes _ _ H1), to_nat_len.
    rewrite Cc, app_assoc in Hs. symmetry in Hs.
    destruct (split_at_frames _ _ _ Hs) as (bs1 & bs2 & pend' & B & Pe & Qe & C).
    rewrite B in Hfit. apply all_fit_app in Hfit as [Hfit1 Hfit2].
    rewrite Pe in H1.
    destruct (Read_frames_stream callback bs1 Hfit1 pend'
                (length (pend ++ data)) readBuf1 st H1
                (cut_inside_incomplete _ _ Hfit2 C)) as (readBuf' & Ef & Hh).
    { destruct bs1 as [|b1 bs1].
      - rewrite length_app. unfold len in Hn. simpl. lia.
      - rewrite Pe, length_app. pose proof (stream_length (b1 :: bs1)) as SL.
        cbn [length] in *. lia. }
    rewrite Ef, B, visit_frames_app.
    destruct (visit_frames callback st bs1) as [st1 more].
    cbn [fst snd] in *. destruct more.
    + destruct (IH bs2 pend' readBuf' os1 st1) as (os' & E').
      * exact Hfit2.
      * unfold os1. rewrite file_set_file_same. reflexivity.
      * apply Hh. reflexivity.
      * unfold os1. rewrite file_set_file_same. exact Qe.
      * exact C.
      * unfold os1. rewrite file_set_file_same. cbn [OS.f_incoming]. lia.
      * exists os'. rewrite E'. unfold os1. rewrite file_set_file_same.
        reflexivity.
    + exists os1. reflexivity.
Qed.

(** [Read] on an open pipe whose file delivers, in any pieces, a stream of
    frames that fit: it returns, the visitor has been given the payloads in
    order until it stopped, and the error is [nil] when it stopped and the
    one that ended the stream when it did not. *)
Lemma Read_visits_frames {S : Type} (callback : visitor S) (st : S)
    (object : XPipe) (os : OS.state) (r : OS.fd)
    (payloads : list (list byte)) :
  IsClosed object = false ->
  ReadPipe object = Some r ->
  OS.f_open (OS.file os r) = true ->
  concat (OS.f_incoming (OS.file os r)) = stream payloads ->
  all_fit payloads ->
  exists os',
    Read callback object os st =
    Done (if snd (visit_frames callback st payloads)
          then Some (OS.f_incoming_end (OS.file os r)) else None,
          os', fst (visit_frames callback st payloads)).
Proof.
  intros Hc Hrp Ho Hs Hfit. unfold Read. rewrite Hc.
  destruct NewBuffer_holds as (readBuf & -> & H).
  apply (Read_loop_stream callback object r Hrp _ payloads [] readBuf os st);
    try assumption.
  - destruct payloads as [|b bs]; [reflexivity|].
    exists (frame b). split; [reflexivity|]. discriminate.
  - unfold Read_fuel. rewrite Hrp. lia.
Qed.

(** The outer loop on a stream that starts with a frame too large for the
    buffer: the buffer fills, no visitor is called, the read into no room
    returns no byte and no error, and the loop ends. *)
Lemma Read_loop_oversized {S : Type} (callback : visitor S) (object : XPipe)
    (r : OS.fd) (payload tail : list byte) :
  ReadPipe object = Some r ->
  len payload < 2 ^ 32 -> 2 ^ 16 < len payload + 4 ->
  forall (fuel : nat) (pend : list byte) (readBuf : buffer) (os : OS.state)
         (st : S),
    OS.f_open (OS.file os r) = true ->
    holds readBuf pend ->
    pend ++ concat (OS.f_incoming (OS.file os r)) = frame payload ++ tail ->
    (OS.reads_bound (OS.f_incoming (OS.file os r)) < fuel)%nat ->
    exists os', Read_loop callback fuel object os readBuf st = Done (None, os', st).
Proof.
  intros Hrp Hp32 Hbig fuel. induction fuel as [|fuel IH];
    intros pend readBuf os st Ho H Hs Hf; [lia|].
  pose proof (len_nonneg payload) as Hp0.
  destruct H as (junk & HI & HL & Hr & Hw).
  assert (Hl : len pend + len junk = 65536)
    by (rewrite <- len_app, <- HI; exact HL).
  assert (Sl : slice_from (Internal readBuf) (GetWriteIndex readBuf) = Some junk).
  { unfold GetWriteIndex. rewrite HI, Hw. apply slice_back. }
  cbn [Read_loop]. rewrite Sl, Hrp.
  destruct (Nat.eq_dec (length junk) O) as [Hj|Hj].
  - (* the buffer is full *)
    rewrite Hj, (OS_Read_no_room os r Ho). exists os. reflexivity.
  - assert (Hne : concat (OS.f_incoming (OS.file os r)) <> []).
    { intros E0. rewrite E0, app_nil_r in Hs.
      apply (f_equal len) in Hs. rewrite len_app, len_frame in Hs.
      pose proof (len_nonneg tail). pose proof (len_nonneg junk).
      unfold len in Hj. lia. }
    destruct (take_chunk_Some _ _ Hj Hne) as (data & rest & E & Dne & DL & Cc & Bd).
    rewrite (OS_Read_data os r _ data rest Ho Hj E).
    set (os1 := OS.set_file os r _).
    cbv beta iota zeta.
    assert (Hn : 0 < len data).
    { destruct data; [congruence|]. unfold len. simpl. lia. }
    destruct (Z.geb_spec 0 (len data)) as [|_]; [lia|].
    pose proof (holds_after_read readBuf pend junk data HI HL Hr Hw DL) as H1.
    set (readBuf1 := SetWriteIndex _ _) in *.
    rewrite (holds_ReadableBytes _ _ H1), to_nat_len.
    rewrite Cc, app_assoc in Hs.
    assert (Hi : incomplete (pend ++ data)).
    { pose proof (holds_len _ _ H1) as L1.
      destruct (Z.ltb_spec (len (pend ++ data)) 4) as [L|L]; [left; exact L|right].
      exists (len payload). split; [|split; lia].
      destruct (four_or_more _ L) as (b0 & b1 & b2 & b3 & p' & Ep).
      rewrite Ep in Hs |- *.
      unfold frame in Hs. change (PutUint32 (uint32 (len payload)))
        with [byte_of_Z (Z.shiftr (uint32 (len payload)) 24);
              byte_of_Z (Z.shiftr (uint32 (len payload)) 16);
              byte_of_Z (Z.shiftr (uint32 (len payload)) 8);
              byte_of_Z (uint32 (len payload))] in Hs.
      simpl in Hs. injection Hs as -> -> -> -> _.
      change (Uint32 (PutUint32 (uint32 (len payload)) ++ p') = Some (len payload)).
      rewrite Uint32_PutUint32 by apply uint32_range.
      rewrite uint32_small by lia. reflexivity. }
    rewrite (Read_frames_incomplete callback _ readBuf1 (pend ++ data) true st H1 Hi).
    2: { intros _. rewrite length_app. unfold len in Hn. lia. }
    apply (IH (pend ++ data) readBuf1 os1 st).
    + unfold os1. rewrite file_set_file_same. reflexivity.
    + exact H1.
    + unfold os1. rewrite file_set_file_same. exact Hs.
    + unfold os1. rewrite file_set_file_same. cbn [OS.f_incoming]. lia.
Qed.

(** C10: a frame too large for the buffer.  The stream the pipe delivers,
    in any pieces, starts with the frame of a payload of [N] bytes,
    [N + 4 > 2^16], and goes on with anything.  [Read] returns, with a [nil]
    error, and the variables of the visitor are what they were, whatever
    the visitor does when called: it has not been called, for this frame or
    for anything after it. *)
Theorem Read_drops_oversized_frame {S : Type} (callback : visitor S) (st : S)
    (object : XPipe) (os : OS.state) (r : OS.fd) (payload tail : list byte) :
  IsClosed object = false ->
  ReadPipe object = Some r ->
  OS.f_open (OS.file os r) = true ->
  concat (OS.f_incoming (OS.file os r)) = frame payload ++ tail ->
  2 ^ 16 < len payload + 4 ->
  len payload < 2 ^ 32 ->
  exists os', Read callback object os st = Done (None, os', st).
Proof.
  intros Hc Hrp Ho Hs Hbig Hp32. unfold Read. rewrite Hc.
  destruct NewBuffer_holds as (readBuf & -> & H).
  apply (Read_loop_oversized callback object r payload tail Hrp Hp32 Hbig
           _ [] readBuf os st Ho H Hs).
  unfold Read_fuel. rewrite Hrp. lia.
Qed.

(** An oversized frame and a small one behind it, in one piece. *)
Lemma Read_drops_oversized_frame_witness :
  exists os',
    Read recorder (mkXPipe 0 (Some O) None)
         (arrives boot O [frame oversized_payload ++ frame [x2a]]) []
    = Done (None, os', []).
Proof.
  apply (Read_drops_oversized_frame recorder [] (mkXPipe 0 (Some O) None)
           (arrives boot O [frame oversized_payload ++ frame [x2a]]) O
           oversized_payload (frame [x2a])).
  - reflexivity.
  - reflexivity.
  - reflexivity.
  - unfold arrives, OS.set_file.
    cbn [OS.file OS.f_incoming Nat.eqb concat]. apply app_nil_r.
  - vm_compute. reflexivity.
  - vm_compute. reflexivity.
Defined.

(** C2, for payloads that fit the buffer.  Payloads of at most [2^16 - 4]
    bytes are written one after the other through a pipe whose file reports
    no error: every write returns [nil] and the file has taken the frames
    back to back.  When these bytes then arrive at the read end, cut into
    pieces in any way, and the stream ends, [Read] with the recorder has
    called it once per payload, in the order of the writes, each time with
    the payload as it was written. *)
Theorem roundtrip_within_buffer (object : XPipe) (os : OS.state)
    (w r : OS.fd) (payloads : list (list byte)) :
  IsClosed object = false ->
  WritePipe object = Some w ->
  ReadPipe object = Some r ->
  OS.f_open (OS.file os w) = true ->
  OS.f_written (OS.file os w) = [] ->
  no_failure (OS.f_write_plan (OS.file os w)) = true ->
  all_fit payloads ->
  exists os1,
    Write_all object os payloads = Done (None, os1) /\
    OS.f_written (OS.file os1 w) = stream payloads /\
    forall chunks,
      concat chunks = OS.f_written (OS.file os1 w) ->
      seen_by_caller (Read recorder object (arrives os1 r chunks) [])
      = Done (Some io_EOF, payloads).
Proof.
  intros Hc Hw Hr Ho He Hnf Hfit.
  destruct (Write_all_stream object w payloads Hw Hc os Ho Hnf)
    as (os1 & E & W & _).
  exists os1. split; [exact E|]. rewrite He in W. split; [exact W|].
  intros chunks Hch.
  destruct (Read_visits_frames recorder [] object (arrives os1 r chunks) r
              payloads Hc Hr) as (os' & ER).
  - unfold arrives. rewrite file_set_file_same. reflexivity.
  - unfold arrives. rewrite file_set_file_same. cbn [OS.f_incoming].
    rewrite Hch. exact W.
  - exact Hfit.
  - rewrite ER, visit_frames_recorder. unfold arrives.
    rewrite file_set_file_same. reflexivity.
Qed.

(** Three payloads, one of them empty, through a pipe fresh from
    [NewXPipe]. *)
Lemma roundtrip_within_buffer_witness :
  exists os1,
    Write_all (fst (NewXPipe boot)) (snd (NewXPipe boot))
              [[x01; x02]; []; [x05]] = Done (None, os1) /\
    OS.f_written (OS.file os1 1%nat) = stream [[x01; x02]; []; [x05]] /\
    forall chunks,
      concat chunks = OS.f_written (OS.file os1 1%nat) ->
      seen_by_caller
        (Read recorder (fst (NewXPipe boot)) (arrives os1 O chunks) [])
      = Done (Some io_EOF, [[x01; x02]; []; [x05]]).
Proof.
  apply (roundtrip_within_buffer (fst (NewXPipe boot)) (snd (NewXPipe boot))
           1%nat O [[x01; x02]; []; [x05]]);
    try reflexivity.
  repeat constructor; vm_compute; discriminate.
Defined.

(** C2 as stated fails one byte above the limit: a payload of [2^16 - 3]
    bytes is written without error, arrives in one piece, and [Read] returns
    [nil] with the recorder never called. *)
Lemma roundtrip_fails_beyond_buffer :
  write_then_read [oversized_payload] = Done (None, []) /\
  ~ (exists err,
       write_then_read [oversized_payload] = Done (err, [oversized_payload])).
Proof.
  assert (E : write_then_read [oversized_payload] = Done (None, []))
    by (vm_compute; reflexivity).
  split; [exact E|].
  intros (err & H). rewrite E in H. discriminate.
Qed.

(** *** The parent's view of a child's pipe *)

(** [ParentRead] of an [XCmd] whose read pipe delivers frames that fit is
    the [ParentRead] of the supervisor's model on those frames, ending as the
    stream ends. *)
Lemma ParentRead_frames {S : Type} (callback : visitor S) (st : S)
    (c : XCmd.XCmd) (p : XPipe) (os : OS.state) (r : OS.fd)
    (payloads : list (list byte)) :
  XCmd.readPipe c = Some p ->
  IsClosed p = false -> ReadPipe p = Some r ->
  OS.f_open (OS.file os r) = true ->
  concat (OS.f_incoming (OS.file os r)) = stream payloads ->
  all_fit payloads ->
  let up := mkUpstream payloads (Some (OS.f_incoming_end (OS.file os r))) in
  seen_by_caller (XCmd.ParentRead callback c os st)
  = Done (snd (ParentRead up callback st), fst (ParentRead up callback st)).
Proof.
  intros Hp Hc Hr Ho Hs Hfit up. unfold XCmd.ParentRead. rewrite Hp.
  destruct (Read_visits_frames callback st p os r payloads Hc Hr Ho Hs Hfit)
    as (os' & E).
  rewrite E. unfold ParentRead, up. cbn [frames ending seen_by_caller].
  destruct (visit_frames callback st payloads) as [st' more].
  destruct more; reflexivity.
Qed.

(** And one that delivers an oversized frame first is the model's
    [ParentRead] on no frame at all, ending with [nil]. *)
Lemma ParentRead_oversized {S : Type} (callback : visitor S) (st : S)
    (c : XCmd.XCmd) (p : XPipe) (os : OS.state) (r : OS.fd)
    (payload tail : list byte) :
  XCmd.readPipe c = Some p ->
  IsClosed p = false -> ReadPipe p = Some r ->
  OS.f_open (OS.file os r) = true ->
  concat (OS.f_incoming (OS.file os r)) = frame payload ++ tail ->
  2 ^ 16 < len payload + 4 -> len payload < 2 ^ 32 ->
  let up := mkUpstream [] None in
  seen_by_caller (XCmd.ParentRead callback c os st)
  = Done (snd (ParentRead up callback st), fst (ParentRead up callback st)).
Proof.
  intros Hp Hc Hr Ho Hs Hbig H32 up. unfold XCmd.ParentRead. rewrite Hp.
  unfold Read. rewrite Hc. destruct NewBuffer_holds as (readBuf & -> & H).
  destruct (Read_loop_oversized callback p r payload tail Hr H32 Hbig
              (Read_fuel p os) [] readBuf os st Ho H Hs) as (os' & E).
  - unfold Read_fuel. rewrite Hr. lia.
  - rewrite E. reflexivity.
Qed.


(** *** [Read] returns *)

(** The inner loop ends on any bytes: each turn takes four bytes or more
    out of the buffer. *)
Lemma Read_frames_returns {S : Type} (callback : visitor S) (fuel : nat) :
  forall (pend : list byte) (readBuf : buffer) (st : S),
    holds readBuf pend ->
    (length pend < 4 * (fuel + 1))%nat ->
    exists readBuf' more st',
      Read_frames callback fuel readBuf true st = Done (readBuf', more, st') /\
      (more = true -> exists pend', holds readBuf' pend').
Proof.
  induction fuel as [|fuel IH]; intros pend readBuf st H Hl.
  - exists readBuf, true, st. split; [|intros _; exists pend; exact H].
    apply (Read_frames_incomplete callback _ readBuf pend); [exact H| |].
    + left. unfold len. lia.
    + unfold len. lia.
  - destruct (Z.ltb_spec (len pend) 4) as [L|L].
    { exists readBuf, true, st. split; [|intros _; exists pend; exact H].
      apply (Read_frames_incomplete callback _ readBuf pend); [exact H| |].
      - left. exact L.
      - lia. }
    destruct (four_or_more pend L) as (b0 & b1 & b2 & b3 & rest & ->).
    destruct (Uint32 [b0; b1; b2; b3]) as [v|] eqn:Ev; [|discriminate].
    pose proof (Uint32_range _ _ Ev) as Rv.
    destruct (Z.ltb_spec (len ([b0; b1; b2; b3] ++ rest)) (v + 4)) as [Lt|Ge].
    { exists readBuf, true, st.
      split; [|intros _; eexists; exact H].
      apply (Read_frames_incomplete callback _ readBuf _ true st H).
      - right. exists v. split; [exact Ev|]. split; [exact Rv|exact Lt].
      - discriminate. }
    rewrite len_app in Ge. change (len [b0; b1; b2; b3]) with 4 in Ge.
    assert (Hp : len (firstn (Z.to_nat v) rest) = v).
    { unfold len. rewrite length_firstn. unfold len in Ge. lia. }
    rewrite <- (firstn_skipn (Z.to_nat v) rest), app_assoc in H.
    destruct (Read_frames_turn callback fuel readBuf [b0; b1; b2; b3]
                (firstn (Z.to_nat v) rest) (skipn (Z.to_nat v) rest) true st H
                eq_refl) as (readBuf1 & readBuf2 & H2 & E).
    { rewrite Hp. exact Ev. }
    rewrite E. destruct (callback st (firstn (Z.to_nat v) rest)) as [st' more].
    destruct more.
    + apply (IH (skipn (Z.to_nat v) rest) readBuf2 st' H2).
      rewrite length_skipn. rewrite length_app in Hl. cbn [length] in Hl. lia.
    + exists readBuf1, false, st'. split; [reflexivity|discriminate].
Qed.

Lemma take_chunk_inv (room : nat) (chunks : list (list byte))
    (data : list byte) (rest : list (list byte)) :
  room <> O ->
  OS.take_chunk room chunks = Some (data, rest) ->
  data <> [] /\ (length data <= room)%nat /\
  (OS.reads_bound rest < OS.reads_bound chunks)%nat.
Proof.
  intros Hroom E.
  assert (Hne : concat chunks <> []).
  { intros E0. rewrite (take_chunk_None room chunks E0) in E. discriminate. }
  destruct (take_chunk_Some room chunks Hroom Hne)
    as (data' & rest' & E' & D & L & _ & B).
  rewrite E in E'. injection E' as <- <-. auto.
Qed.

(** The outer loop ends on any stream: each turn but the last takes data
    from the file. *)
Lemma Read_loop_returns {S : Type} (callback : visitor S) (object : XPipe)
    (r : OS.fd) :
  ReadPipe object = Some r ->
  forall (fuel : nat) (pend : list byte) (readBuf : buffer) (os : OS.state)
         (st : S),
    OS.f_open (OS.file os r) = true ->
    holds readBuf pend ->
    (OS.reads_bound (OS.f_incoming (OS.file os r)) < fuel)%nat ->
    exists err os' st',
      Read_loop callback fuel object os readBuf st = Done (err, os', st').
Proof.
  intros Hrp fuel. induction fuel as [|fuel IH];
    intros pend readBuf os st Ho H Hf; [lia|].
  destruct H as (junk & HI & HL & Hr & Hw).
  assert (Sl : slice_from (Internal readBuf) (GetWriteIndex readBuf) = Some junk).
  { unfold GetWriteIndex. rewrite HI, Hw. apply slice_back. }
  cbn [Read_loop]. rewrite Sl, Hrp.
  destruct (Nat.eq_dec (length junk) O) as [Hj|Hj].
  { rewrite Hj, (OS_Read_no_room os r Ho). eexists _, _, _. reflexivity. }
  destruct (OS.take_chunk (length junk) (OS.f_incoming (OS.file os r)))
    as [[data rest]|] eqn:E.
  - destruct (take_chunk_inv _ _ _ _ Hj E) as (Dne & DL & Bd).
    rewrite (OS_Read_data os r _ data rest Ho Hj E).
    set (os1 := OS.set_file os r _).
    cbv beta iota zeta.
    assert (Hn : 0 < len data).
    { destruct data; [congruence|]. unfold len. simpl. lia. }
    destruct (Z.geb_spec 0 (len data)) as [|_]; [lia|].
    pose proof (holds_after_read readBuf pend junk data HI HL Hr Hw DL) as H1.
    set (readBuf1 := SetWriteIndex _ _) in *.
    rewrite (holds_ReadableBytes _ _ H1), to_nat_len.
    destruct (Read_frames_returns callback (length (pend ++ data))
                (pend ++ data) readBuf1 st H1)
      as (readBuf' & more & st' & Ef & Hh); [lia|].
    rewrite Ef. destruct more.
    + destruct (Hh eq_refl) as (pend' & H').
      apply (IH pend' readBuf' os1 st').
      * unfold os1. rewrite file_set_file_same. reflexivity.
      * exact H'.
      * unfold os1. rewrite file_set_file_same. cbn [OS.f_incoming]. lia.
    + eexists _, _, _. reflexivity.
  - rewrite (OS_Read_end os r _ Ho Hj E). cbv beta iota zeta.
    destruct (is_EOF (OS.f_incoming_end (OS.file os r)));
      eexists _, _, _; reflexivity.
Qed.

(** [Read] returns on every pipe, in every system and on every stream: its
    loops end within their fuel and no slice goes out of bounds. *)
Lemma Read_returns {S : Type} (callback : visitor S) (st : S)
    (object : XPipe) (os : OS.state) :
  exists err os' st', Read callback object os st = Done (err, os', st').
Proof.
  unfold Read. destruct (IsClosed object); [eexists _, _, _; reflexivity|].
  destruct NewBuffer_holds as (readBuf & -> & H).
  destruct (ReadPipe object) as [r|] eqn:Hrp.
  - destruct (OS.f_open (OS.file os r)) eqn:Ho.
    + apply (Read_loop_returns callback object r Hrp _ [] readBuf os st Ho H).
      unfold Read_fuel. rewrite Hrp. lia.
    + destruct H as (junk & HI & HL & Hr & Hw).
      assert (Sl : slice_from (Internal readBuf) (GetWriteIndex readBuf)
                   = Some junk).
      { unfold GetWriteIndex. rewrite HI, Hw. apply slice_back. }
      unfold Read_fuel. rewrite Hrp. cbn [Read_loop]. rewrite Sl, Hrp.
      unfold OS.Read. rewrite Ho. cbn [negb].
      eexists _, _, _. reflexivity.
  - destruct H as (junk & HI & HL & Hr & Hw).
    assert (Sl : slice_from (Internal readBuf) (GetWriteIndex readBuf)
                 = Some junk).
    { unfold GetWriteIndex. rewrite HI, Hw. apply slice_back. }
    unfold Read_fuel. rewrite Hrp. cbn [Read_loop]. rewrite Sl, Hrp.
    eexists _, _, _. reflexivity.
Qed.

End ReadFacts.

(** ** The supervisor *)

Module DaemonFacts.
Import Daemon.

Arguments wrap_int : simpl never.

Ltac fields :=
  cbn [rebootTimes upgradeFlag killedFlag xCmdObj waited deferred next_cmd
       trace fst snd negb orb andb is_some] in *.

Ltac open_state :=
  unfold log, set_rebootTimes, set_upgradeFlag, set_killedFlag, set_xCmdObj,
    set_waited, set_deferred, set_next_cmd in *.

(** The closure that waits for readiness sets [ok] exactly when it meets
    [ReadyOK] before any [ReadyError]: the end of the stream, an error of
    the pipe or [ReadyError] first all leave it false. *)
Lemma ready_visitor_ok (up : upstream) :
  fst (ParentRead up ready_visitor false) = true <->
  exists before after,
    frames up = before ++ ReadyOK :: after /\
    ~ In ReadyOK before /\ ~ In ReadyError before.
Proof.
  unfold ParentRead. destruct up as [fs e]. cbn [frames ending].
  assert (Eq : forall f, bytes_eqb f f = true)
    by (intros f; apply bytes_eqb_eq; reflexivity).
  split.
  - induction fs as [|f fs IH]; cbn [visit_frames].
    + simpl. discriminate.
    + unfold ready_visitor at 1.
      destruct (bytes_eqb f ReadyOK) eqn:E1.
      * intros _. apply bytes_eqb_eq in E1. subst f.
        exists [], fs. repeat split; auto.
      * destruct (bytes_eqb f ReadyError) eqn:E2.
        -- simpl. discriminate.
        -- intros H.
           destruct (visit_frames ready_visitor false fs) as [ok more] eqn:V.
           destruct IH as (before & after & F & N1 & N2).
           { destruct more; exact H. }
           exists (f :: before), after. split; [simpl; congruence|].
           split; intros [Ef|I]; try contradiction; subst f.
           ++ rewrite Eq in E1. discriminate.
           ++ rewrite Eq in E2. discriminate.
  - intros (before & after & -> & N1 & N2).
    induction before as [|f before IH]; cbn [app visit_frames].
    + unfold ready_visitor. rewrite Eq. reflexivity.
    + unfold ready_visitor at 1.
      destruct (bytes_eqb f ReadyOK) eqn:E1.
      { apply bytes_eqb_eq in E1. exfalso. apply N1. left. exact E1. }
      destruct (bytes_eqb f ReadyError) eqn:E2.
      { apply bytes_eqb_eq in E2. exfalso. apply N2. left. exact E2. }
      assert (IH' := IH (fun I => N1 (or_intror I)) (fun I => N2 (or_intror I))).
      destruct (visit_frames ready_visitor false (before ++ ReadyOK :: after))
        as [ok more].
      destruct more; exact IH'.
Qed.

(** *** C3: which pipe the readiness is read from *)

(** [replaceChildProcess] reads the readiness from the child it has just
    started, and from no other: whatever the state and the answers, what it
    adds to the trace starts with the start of a new child, and every
    readiness read in it is on that child. *)
Lemma replaceChildProcess_reads_new_child (a : answers) (d : Daemon) :
  exists added,
    trace (fst (fst (fst (replaceChildProcess a d))))
      = trace d ++ Start (next_cmd d) :: added /\
    (forall c, In (ParentReadReady c) added -> c = next_cmd d) /\
    (start_err a = None -> In (ParentReadReady (next_cmd d)) added).
Proof.
  destruct d as [rt uf kf x w df nc tr].
  unfold replaceChildProcess, spawnChildProcess, waitChildSafeExit, wg_Wait,
    waitDone, XPipe.CompareAndSwapInt32.
  simpl.
  destruct (start_err a) as [e|]; simpl.
  - exists []. split; [reflexivity|]. split; [contradiction|discriminate].
  - destruct (ParentRead (ready a) ready_visitor false) as [ok err].
    destruct (ParentRead (exit_reply a) exit_visitor tt) as [u err'].
    destruct ok, x as [old|], (exit_write_err a) as [e|], w as [w|]; simpl;
      repeat match goal with
      | |- context [if ?b then _ else _] => destruct b; simpl
      end;
      repeat rewrite <- app_assoc; simpl;
      (eexists; split; [reflexivity|]; split;
       [intros c I; simpl in I;
        repeat (destruct I as [I|I]; [congruence|]); contradiction
       |intros _; left; reflexivity]).
Qed.

(** The upgrade branch of the earlier [Bootstrap] reads the readiness from
    the child that is installed, not from the one it has just started. *)
Lemma Daemon0_upgrade_reads_current (first : option cmd) (a : answers)
    (d : Daemon0.Daemon) (current : cmd) :
  Daemon0.xCmdObj d = Some current ->
  start_err a = None ->
  exists added,
    Daemon0.trace (fst (Daemon0.signalLoop first SIGUSR2 a d))
      = Daemon0.trace d
        ++ Start (Daemon0.next_cmd d) :: ParentReadReady current :: added /\
    ~ In (ParentReadReady (Daemon0.next_cmd d)) added.
Proof.
  intros Hx Hs. unfold Daemon0.signalLoop, Daemon0.spawnChildProcess.
  rewrite Hs. cbn [Daemon0.xCmdObj Daemon0.log]. rewrite Hx.
  destruct (ParentRead (ready a) ready_visitor false) as [ok err].
  destruct ok; cbn [negb].
  - cbn [fst Daemon0.trace Daemon0.log]. rewrite <- !app_assoc. cbn [app].
    eexists. split; [reflexivity|].
    intros I. simpl in I.
    repeat (destruct I as [I|I]; [discriminate|]). contradiction.
  - unfold Daemon0.Bootstrap_return. destruct first as [c|];
      cbn [fst Daemon0.trace Daemon0.log]; rewrite <- !app_assoc; cbn [app];
      eexists; (split; [reflexivity|]);
      intros I; simpl in I;
      repeat (destruct I as [I|I]; [discriminate|]); contradiction.
Qed.

(** C3, on the earlier [Bootstrap]: the parent is up with child 0; on
    [SIGUSR2] it starts child 1, reads the readiness on the pipe of child 0,
    kills and closes child 0 and installs child 1, whose pipe it has never
    read. *)
Theorem upgrade_reads_old_child_pipe :
  Daemon0.xCmdObj parent0_up = Some O /\
  Daemon0.trace parent0_up = [Start 0; ParentReadReady 0; GoWait 0]%nat /\
  Daemon0.signalLoop (Some O) SIGUSR2 child_ready parent0_up =
    (Daemon0.mkDaemon 0 (Some 1%nat) (Some 1%nat) 2%nat
       [Start 0; ParentReadReady 0; GoWait 0;
        Start 1; ParentReadReady 0; Kill 0; CloseCmd 0; GoWait 1]%nat,
     Running) /\
  ~ In (ParentReadReady 1%nat)
       (Daemon0.trace
          (fst (Daemon0.signalLoop (Some O) SIGUSR2 child_ready parent0_up))).
Proof.
  split; [reflexivity|]. split; [reflexivity|]. split; [reflexivity|].
  simpl. intros I.
  repeat (destruct I as [I|I]; [discriminate|]). contradiction.
Qed.


(** *** C4: the reboot budget *)

Lemma waitChildSafeExit_fields (a : answers) (d : Daemon) :
  exists added err,
    waitChildSafeExit a d =
    (mkDaemon (rebootTimes d) (upgradeFlag d) (killedFlag d) (xCmdObj d)
              (waited d) (deferred d) (next_cmd d) (trace d ++ added), err) /\
    forall x, In x added ->
      exists c, xCmdObj d = Some c /\ (x = ParentWriteExit c \/ x = ParentReadExit c).
Proof.
  destruct d as [rt uf kf x w df nc tr]. unfold waitChildSafeExit. simpl.
  destruct x as [c|].
  - destruct (exit_write_err a) as [e|].
    + exists [ParentWriteExit c], (Some e). split; [reflexivity|].
      intros y [<-|[]]. exists c. auto.
    + destruct (ParentRead (exit_reply a) exit_visitor tt) as [u e].
      exists [ParentWriteExit c; ParentReadExit c], e. unfold log. simpl.
      rewrite <- app_assoc. split; [reflexivity|].
      intros y [<-|[<-|[]]]; exists c; auto.
  - exists [], None. simpl. rewrite app_nil_r. split; [reflexivity|].
    intros y [].
Qed.

(** The goroutine of a child that has exited takes one from the budget when
    neither flag says the exit was planned, and leaves it alone otherwise;
    it ends the process when the budget has gone below zero. *)
Lemma waitDone_budget (d : Daemon) :
  int_min < rebootTimes d <= int_max ->
  let planned := (upgradeFlag d =? 1) || negb (0 =? killedFlag d) in
  match xCmdObj d with
  | None => waitDone d = (d, NilChild)
  | Some c =>
      rebootTimes (fst (waitDone d))
        = (if planned then rebootTimes d else rebootTimes d - 1) /\
      (planned = true -> snd (waitDone d) = Retired \/ snd (waitDone d) = Shutdown) /\
      (planned = false ->
         snd (waitDone d)
           = if 0 >? rebootTimes d - 1 then Exhausted else Restart) /\
      (snd (waitDone d) = Restart -> xCmdObj (fst (waitDone d)) = None)
  end.
Proof.
  intros Hr. destruct d as [rt uf kf x w df nc tr]. fields.
  destruct x as [c|]; [|reflexivity].
  unfold waitDone, XPipe.CompareAndSwapInt32. open_state. fields.
  rewrite (wrap_int_small (rt - 1)) by (unfold int_min, int_max in *; lia).
  destruct (uf =? 1); fields.
  - repeat split; auto; discriminate.
  - destruct (0 =? kf); fields.
    + destruct (0 >? rt - 1); fields; repeat split; auto; discriminate.
    + repeat split; auto; discriminate.
Qed.

(** Waiting for the goroutine of a child whose exit was planned leaves the
    budget alone and does not end the process. *)
Lemma wg_Wait_planned (d : Daemon) :
  upgradeFlag d = 1 \/ killedFlag d <> 0 ->
  rebootTimes (fst (wg_Wait d)) = rebootTimes d /\
  killedFlag (fst (wg_Wait d)) = killedFlag d /\
  deferred (fst (wg_Wait d)) = deferred d /\
  (snd (wg_Wait d) = Running \/ snd (wg_Wait d) = Panicked).
Proof.
  intros H. destruct d as [rt uf kf x w df nc tr]. fields.
  unfold wg_Wait, waitDone, XPipe.CompareAndSwapInt32. open_state. fields.
  destruct w as [w|]; [|auto].
  destruct x as [c|]; fields; [|auto].
  destruct (Z.eqb_spec uf 1); fields; [auto|].
  destruct (Z.eqb_spec 0 kf); fields; [|auto].
  destruct H; congruence.
Qed.

(** [replaceChildProcess] leaves the budget alone when there is no child to
    retire or when the upgrade flag is set, and the process goes on. *)
Lemma replaceChildProcess_budget (a : answers) (d : Daemon) :
  xCmdObj d = None \/ upgradeFlag d = 1 ->
  rebootTimes (fst (fst (fst (replaceChildProcess a d)))) = rebootTimes d /\
  (snd (replaceChildProcess a d) = Running \/
   snd (replaceChildProcess a d) = Panicked).
Proof.
  intros H. unfold replaceChildProcess, spawnChildProcess.
  destruct (start_err a) as [e|]; [simpl; auto|].
  cbv zeta. destruct (ParentRead (ready a) ready_visitor false) as [ok err].
  destruct ok; cbn [negb]; [|simpl; auto].
  change (xCmdObj (log (ParentReadReady (next_cmd d))
            (log (Start (next_cmd d)) (set_next_cmd (S (next_cmd d)) d))))
    with (xCmdObj d).
  destruct (xCmdObj d) as [old|] eqn:Ex; [|simpl; auto].
  destruct H as [H|H]; [discriminate|].
  set (d1 := log (ParentReadReady (next_cmd d)) _).
  destruct (waitChildSafeExit_fields a d1) as (added & err' & E & _).
  rewrite E.
  set (d2 := log (Kill old) _).
  destruct (wg_Wait_planned d2) as (R & _ & _ & St).
  { left. exact H. }
  destruct (wg_Wait d2) as [d3 st]. simpl in R, St.
  destruct St as [-> | ->]; simpl; rewrite R; auto.
Qed.

Lemma step_budget (ev : event) (d : Daemon) :
  int_min < rebootTimes d <= int_max ->
  rebootTimes (fst (step ev d))
    = (if unexpected_exit ev d then rebootTimes d - 1 else rebootTimes d) /\
  (unexpected_exit ev d = true -> rebootTimes d - 1 < 0 ->
   snd (step ev d) = Exited (-1)) /\
  (unexpected_exit ev d = true -> 0 <= rebootTimes d - 1 ->
   snd (step ev d) = Running \/ snd (step ev d) = Panicked) /\
  (forall code, snd (step ev d) = Exited code -> code = -1).
Proof.
  intros Hr. destruct ev as [s a|a]; cbn [step unexpected_exit].
  - (* a signal *)
    assert (G : rebootTimes (fst (parentSignalLoop s a d)) = rebootTimes d /\
                forall code, snd (parentSignalLoop s a d) <> Exited code).
    { destruct s as [| |  |n]; cbn [parentSignalLoop].
      - destruct (waitChildSafeExit_fields a (set_killedFlag 1 d))
          as (added & err & E & _).
        rewrite E. cbn [xCmdObj set_killedFlag].
        destruct (xCmdObj d) as [c|]; [|simpl; split; [reflexivity|discriminate]].
        set (d2 := log (Kill c) _).
        destruct (wg_Wait_planned d2) as (R & _ & _ & St).
        { right. simpl. discriminate. }
        destruct (wg_Wait d2) as [d3 st]. simpl in R, St.
        destruct St as [-> | ->]; unfold Bootstrap_return;
          try destruct (deferred d3); simpl; rewrite R;
          (split; [reflexivity|discriminate]).
      - destruct (waitChildSafeExit_fields a (set_killedFlag 1 d))
          as (added & err & E & _).
        rewrite E. cbn [xCmdObj set_killedFlag].
        destruct (xCmdObj d) as [c|]; [|simpl; split; [reflexivity|discriminate]].
        set (d2 := log (Kill c) _).
        destruct (wg_Wait_planned d2) as (R & _ & _ & St).
        { right. simpl. discriminate. }
        destruct (wg_Wait d2) as [d3 st]. simpl in R, St.
        destruct St as [-> | ->]; unfold Bootstrap_return;
          try destruct (deferred d3); simpl; rewrite R;
          (split; [reflexivity|discriminate]).
      - unfold XPipe.CompareAndSwapInt32.
        destruct (upgradeFlag d =? 0); cbn [negb].
        + destruct (replaceChildProcess_budget a (set_upgradeFlag 1 d))
            as (R & St); [right; reflexivity|].
          destruct (replaceChildProcess a (set_upgradeFlag 1 d))
            as [[[d1 ok] err] st]. simpl in R, St.
          destruct St as [-> | ->].
          * destruct (negb ok || is_some err); unfold Bootstrap_return;
              try destruct (deferred d1); simpl; rewrite R;
              (split; [reflexivity|discriminate]).
          * simpl. rewrite R. split; [reflexivity|discriminate].
        + unfold Bootstrap_return. destruct (deferred d); simpl;
            (split; [reflexivity|discriminate]).
      - simpl. split; [reflexivity|discriminate]. }
    destruct G as (G1 & G2). split; [exact G1|].
    split; [discriminate|]. split; [discriminate|].
    intros code E. exfalso. exact (G2 code E).
  - (* the watched child exits *)
    unfold childExited.
    destruct (waited d) as [w|] eqn:Ew; cbn [is_some andb].
    + pose proof (waitDone_budget d Hr) as W. cbv zeta in W.
      destruct (xCmdObj d) as [c|] eqn:Ex; cbn [is_some andb].
      * destruct W as (W1 & W2 & W3 & W4).
        destruct (waitDone d) as [d1 v]. cbn [fst snd] in *.
        destruct (upgradeFlag d =? 1); cbn [orb negb andb] in *.
        -- destruct (W2 eq_refl) as [-> | ->]; simpl; rewrite W1;
             repeat split; try discriminate.
        -- destruct (0 =? killedFlag d); cbn [negb] in *.
           ++ rewrite (W3 eq_refl) in *.
              destruct (Z.gtb_spec 0 (rebootTimes d - 1)) as [L|L].
              ** simpl. rewrite W1. repeat split; try lia.
                 intros code E. congruence.
              ** destruct (replaceChildProcess_budget a (set_waited None d1))
                   as (R & St).
                 { left. exact (W4 eq_refl). }
                 destruct (replaceChildProcess a (set_waited None d1))
                   as [[[d2 ok] err] st]. simpl in R, St. simpl.
                 rewrite R, W1. split; [reflexivity|].
                 split; [lia|]. split; [intros _ _; exact St|].
                 intros code E. destruct St; congruence.
           ++ destruct (W2 eq_refl) as [-> | ->]; simpl; rewrite W1;
                repeat split; try discriminate.
      * rewrite W. simpl. repeat split; try discriminate.
    + simpl. repeat split; try discriminate.
Qed.


Lemma budgets_non_increasing (evs : list event) :
  forall d, int_min < rebootTimes d <= int_max -> non_increasing (budgets d evs).
Proof.
  unfold budgets. induction evs as [|ev evs IH]; intros d Hr; [exact I|].
  cbn [run_parent].
  destruct (step_budget ev d Hr) as (B & Ex & Go & _).
  destruct (step ev d) as [d' st]. cbn [fst snd] in *.
  assert (Le : rebootTimes d' <= rebootTimes d)
    by (rewrite B; destruct (unexpected_exit ev d); lia).
  assert (Keep : st = Running -> int_min < rebootTimes d' <= int_max).
  { intros ->. rewrite B. destruct (unexpected_exit ev d); [|exact Hr].
    destruct (Z.lt_ge_cases (rebootTimes d - 1) 0) as [L|L].
    - specialize (Ex eq_refl L). discriminate.
    - unfold int_min in *. lia. }
  destruct st; try (cbn [fst map non_increasing]; split; [exact Le|exact I]).
  specialize (IH d' (Keep eq_refl)).
  destruct (run_parent d' evs) as [ds st']. cbn [fst map] in *.
  split; [exact Le|exact IH].
Qed.

(** C4, as the code has it: the reboot budget.  It starts at 3, from [New]
    and from the default of the flag alike.  Over any run of a parent whose
    budget is an [int] above the least one, the values it takes never grow.  An event takes one
    from it exactly when it is the exit of the watched child with the
    upgrade flag not set and the killed flag not set, and leaves it as it is
    otherwise; when that takes it below zero the process exits, with status
    -1, and no exit of the process has status 0. *)
Theorem rebootTimes_never_grows (d : Daemon) (evs : list event) :
  int_min < rebootTimes d <= int_max ->
  rebootTimes New = 3 /\
  (forall listen_err a,
     rebootTimes (fst (Bootstrap reboot_times_default listen_err a New)) = 3) /\
  non_increasing (budgets d evs) /\
  (forall ev,
     rebootTimes (fst (step ev d))
       = (if unexpected_exit ev d then rebootTimes d - 1 else rebootTimes d) /\
     (unexpected_exit ev d = true -> rebootTimes d - 1 < 0 ->
      snd (step ev d) = Exited (-1)) /\
     (forall code, snd (step ev d) = Exited code -> code <> 0)).
Proof.
  intros Hr. split; [reflexivity|]. split; [|split].
  - intros listen_err a. unfold Bootstrap.
    destruct listen_err as [e|]; [reflexivity|].
    destruct (replaceChildProcess_budget a
                (set_rebootTimes reboot_times_default New)) as (R & St).
    { left. reflexivity. }
    destruct (replaceChildProcess a (set_rebootTimes reboot_times_default New))
      as [[[d1 ok] err] st]. cbn [fst snd] in *.
    destruct St as [-> | ->]; [|exact R].
    destruct (negb ok); [exact R|]. destruct err; exact R.
  - apply budgets_non_increasing. exact Hr.
  - intros ev. destruct (step_budget ev d Hr) as (B & Ex & _ & Code).
    split; [exact B|]. split; [exact Ex|].
    intros code E. rewrite (Code code E). discriminate.
Qed.

(** A parent started with the default budget: its child exits unplanned
    four times, and an upgrade comes in between. *)
Lemma rebootTimes_never_grows_witness :
  rebootTimes New = 3 /\
  (forall listen_err a,
     rebootTimes (fst (Bootstrap reboot_times_default listen_err a New)) = 3) /\
  non_increasing
    (budgets parent_up
       [ChildExit child_ready; Signal SIGUSR2 child_ready;
        ChildExit child_ready; ChildExit child_ready; ChildExit child_ready]) /\
  (forall ev,
     rebootTimes (fst (step ev parent_up))
       = (if unexpected_exit ev parent_up
          then rebootTimes parent_up - 1 else rebootTimes parent_up) /\
     (unexpected_exit ev parent_up = true -> rebootTimes parent_up - 1 < 0 ->
      snd (step ev parent_up) = Exited (-1)) /\
     (forall code, snd (step ev parent_up) = Exited code -> code <> 0)).
Proof.
  apply (rebootTimes_never_grows parent_up
           [ChildExit child_ready; Signal SIGUSR2 child_ready;
            ChildExit child_ready; ChildExit child_ready; ChildExit child_ready]).
  vm_compute. split; [reflexivity|discriminate].
Defined.

(** C4 as the claim states it, for any run, fails at the least budget.  A
    parent started with [reboot_times] at [-2^63] comes up with that budget;
    when its child exits without plan, [rebootTimes--] wraps around to
    [2^63 - 1]: the budget has grown, it is not below zero, and the parent
    restarts the child and stays in its loop. *)
Theorem least_budget_wraps_around :
  Bootstrap int_min None child_ready New = (parent_least_budget, Running) /\
  rebootTimes parent_least_budget = int_min /\
  unexpected_exit (ChildExit child_ready) parent_least_budget = true /\
  rebootTimes (fst (step (ChildExit child_ready) parent_least_budget))
    = int_max /\
  snd (step (ChildExit child_ready) parent_least_budget) = Running /\
  budgets parent_least_budget [ChildExit child_ready] = [int_min; int_max] /\
  ~ non_increasing (budgets parent_least_budget [ChildExit child_ready]).
Proof.
  split; [reflexivity|]. split; [reflexivity|]. split; [reflexivity|].
  split; [reflexivity|]. split; [reflexivity|]. split; [reflexivity|].
  intros [H _]. vm_compute in H. apply H. reflexivity.
Qed.

(** *** C5: the new child does not become ready *)

(** C5, as the code has it.  The new child has started and the readiness
    read ends without [ReadyOK].  Then [replaceChildProcess] closes the new
    child and returns failure; the installed child, the watch on it, the
    flags and the budget are as before, and nothing was written to, read
    from or done to any other child.  On [SIGUSR2] with the upgrade flag
    clear, the parent then leaves its signal loop: [Bootstrap] returns,
    with the upgrade flag left set. *)
Theorem failed_ready_discards_new_child (a : answers) (d : Daemon) :
  start_err a = None ->
  fst (ParentRead (ready a) ready_visitor false) = false ->
  let new := next_cmd d in
  let err := snd (ParentRead (ready a) ready_visitor false) in
  let added := [Start new; ParentReadReady new; CloseCmd new] in
  replaceChildProcess a d =
    (mkDaemon (rebootTimes d) (upgradeFlag d) (killedFlag d) (xCmdObj d)
              (waited d) (deferred d) (S new) (trace d ++ added),
     false, err, Running) /\
  (upgradeFlag d = 0 ->
   parentSignalLoop SIGUSR2 a d =
     Bootstrap_return err
       (mkDaemon (rebootTimes d) 1 (killedFlag d) (xCmdObj d)
                 (waited d) (deferred d) (S new) (trace d ++ added)) /\
   snd (parentSignalLoop SIGUSR2 a d) = Returned err).
Proof.
  intros Hs Hok new err added.
  assert (R : forall d0 : Daemon,
    replaceChildProcess a d0 =
    (mkDaemon (rebootTimes d0) (upgradeFlag d0) (killedFlag d0) (xCmdObj d0)
              (waited d0) (deferred d0) (S (next_cmd d0))
              (trace d0 ++ [Start (next_cmd d0); ParentReadReady (next_cmd d0);
                            CloseCmd (next_cmd d0)]),
     false, err, Running)).
  { intros d0. unfold replaceChildProcess, spawnChildProcess. rewrite Hs.
    cbv zeta. unfold err.
    destruct (ParentRead (ready a) ready_visitor false) as [ok e].
    cbn [fst snd] in *. subst ok. cbn [negb]. open_state. fields.
    rewrite <- !app_assoc. reflexivity. }
  split; [apply R|].
  intros Hu. cbn [parentSignalLoop]. unfold XPipe.CompareAndSwapInt32.
  rewrite Hu. cbn [Z.eqb negb]. rewrite R. open_state. fields.
  split; reflexivity.
Qed.

(** The parent is up with child 0 and the upgrade's child reports
    [ReadyError]. *)
Lemma failed_ready_discards_new_child_witness :
  replaceChildProcess child_not_ready parent_up =
    (mkDaemon 3 0 0 (Some O) (Some O) (Some O) 2%nat
       [Start 0; ParentReadReady 0; GoWait 0;
        Start 1; ParentReadReady 1; CloseCmd 1]%nat,
     false, None, Running) /\
  (upgradeFlag parent_up = 0 ->
   parentSignalLoop SIGUSR2 child_not_ready parent_up =
     Bootstrap_return None
       (mkDaemon 3 1 0 (Some O) (Some O) (Some O) 2%nat
          [Start 0; ParentReadReady 0; GoWait 0;
           Start 1; ParentReadReady 1; CloseCmd 1]%nat) /\
   snd (parentSignalLoop SIGUSR2 child_not_ready parent_up) = Returned None).
Proof.
  apply (failed_ready_discards_new_child child_not_ready parent_up);
    reflexivity.
Defined.

(** C5 as stated fails in its last part: the parent is up with child 0, the
    child started on [SIGUSR2] reports [ReadyError], and the parent does not
    go on supervising child 0: [Bootstrap] returns, and its deferred call
    closes the pipes to child 0. *)
Lemma failed_upgrade_ends_the_parent :
  parentSignalLoop SIGUSR2 child_not_ready parent_up =
    (mkDaemon 3 1 0 (Some O) (Some O) (Some O) 2%nat
       [Start 0; ParentReadReady 0; GoWait 0;
        Start 1; ParentReadReady 1; CloseCmd 1; CloseCmd 0]%nat,
     Returned None) /\
  snd (parentSignalLoop SIGUSR2 child_not_ready parent_up) <> Running.
Proof.
  split; [reflexivity|]. vm_compute. discriminate.
Qed.

(** *** C6: [SIGUSR2] while the upgrade flag is set *)

(** C6, as the code has it.  With the upgrade flag at 1, [SIGUSR2] starts no
    child and leaves the flag, the budget and the installed child as they
    are; the request is dropped by a [return] of [Bootstrap], whose
    deferred call closes the first child's pipes: the signal loop ends. *)
Theorem upgrade_in_flight_returns (a : answers) (d : Daemon) :
  upgradeFlag d = 1 ->
  parentSignalLoop SIGUSR2 a d = Bootstrap_return None d /\
  snd (parentSignalLoop SIGUSR2 a d) = Returned None /\
  (let d' := fst (parentSignalLoop SIGUSR2 a d) in
   upgradeFlag d' = 1 /\ rebootTimes d' = rebootTimes d /\
   killedFlag d' = killedFlag d /\ xCmdObj d' = xCmdObj d /\
   waited d' = waited d /\ next_cmd d' = next_cmd d /\
   trace d' = trace d ++ match deferred d with
                         | Some c => [CloseCmd c]
                         | None => []
                         end).
Proof.
  intros Hu. cbn [parentSignalLoop]. unfold XPipe.CompareAndSwapInt32.
  rewrite Hu. cbn [Z.eqb negb]. split; [reflexivity|].
  unfold Bootstrap_return. split; [reflexivity|].
  destruct (deferred d) as [c|]; open_state; fields; rewrite ?app_nil_r;
    repeat split; auto.
Qed.

Lemma upgrade_in_flight_returns_witness :
  parentSignalLoop SIGUSR2 child_ready parent_flag_set
    = Bootstrap_return None parent_flag_set /\
  snd (parentSignalLoop SIGUSR2 child_ready parent_flag_set) = Returned None /\
  (let d' := fst (parentSignalLoop SIGUSR2 child_ready parent_flag_set) in
   upgradeFlag d' = 1 /\ rebootTimes d' = rebootTimes parent_flag_set /\
   killedFlag d' = killedFlag parent_flag_set /\
   xCmdObj d' = xCmdObj parent_flag_set /\
   waited d' = waited parent_flag_set /\
   next_cmd d' = next_cmd parent_flag_set /\
   trace d' = trace parent_flag_set
              ++ match deferred parent_flag_set with
                 | Some c => [CloseCmd c]
                 | None => []
                 end).
Proof.
  apply (upgrade_in_flight_returns child_ready parent_flag_set). reflexivity.
Defined.

(** C6 as stated fails in its last part.  The run below brings a parent to
    the state [parent_flag_set]; the next [SIGUSR2] finds the flag at 1, and
    the signal loop does not go on: [Bootstrap] returns. *)
Lemma second_upgrade_ends_the_parent :
  fst (run_parent parent_up
         [ChildExit child_not_ready; Signal SIGUSR2 child_ready])
    = [mkDaemon 2 0 0 None None (Some O) 2%nat
         [Start 0; ParentReadReady 0; GoWait 0; Release 0; CloseCmd 0;
          Start 1; ParentReadReady 1; CloseCmd 1]%nat;
       parent_flag_set] /\
  snd (run_parent parent_up
         [ChildExit child_not_ready; Signal SIGUSR2 child_ready]) = Running /\
  upgradeFlag parent_flag_set = 1 /\
  snd (parentSignalLoop SIGUSR2 child_ready parent_flag_set) = Returned None /\
  snd (parentSignalLoop SIGUSR2 child_ready parent_flag_set) <> Running.
Proof.
  repeat split; try reflexivity. vm_compute. discriminate.
Qed.

End DaemonFacts.

(** ** The byte buffer: writes, the 32-bit codec and the marks *)

Module BufferCursorFacts.
Import Buffer BufferFacts.

(** The array [WriteBytes] leaves is the one [growth] made. *)
Lemma WriteBytes_capacity (bytes : list byte) (object object' : buffer) :
  WriteBytes bytes object = Some object' ->
  exists grown,
    growth (len bytes) object = Some grown /\ capacity object' = capacity grown.
Proof.
  unfold WriteBytes.
  destruct (growth (len bytes) object) as [g|] eqn:G; [|discriminate].
  destruct (slice_from (Internal g) (writeIndex g)) as [win|] eqn:Sw;
    [|discriminate].
  intros E. injection E as <-. exists g. split; [reflexivity|].
  unfold capacity, SetWriteIndex, with_Internal. cbn [Internal].
  unfold len. rewrite length_copy_at; [reflexivity|].
  unfold slice_from in Sw. apply slice_inv in Sw as (H1 & H2 & _).
  unfold len in *. lia.
Qed.

(** X1: [WriteBytes] where doubling the array is enough (or the array has
    no capacity yet).  The call returns, the readable region is the old one
    followed by the bytes written, the count of readable bytes grows by
    their number, the read cursor stays, the write cursor ends inside the
    array, and the capacity is the old one when the bytes fitted, twice the
    old one when they did not, and the number of bytes written when there
    was none. *)
Theorem WriteBytes_within_doubling (bytes : list byte) (object : buffer)
    (region : list byte) :
  readable_region object = Some region ->
  2 * capacity object <= int_max ->
  len bytes <= int_max ->
  capacity object = 0 \/ writeIndex object + len bytes <= 2 * capacity object ->
  exists object',
    WriteBytes bytes object = Some object' /\
    readable_region object' = Some (region ++ bytes) /\
    ReadableBytes object' = ReadableBytes object + len bytes /\
    readIndex object' = readIndex object /\
    writeIndex object' = writeIndex object + len bytes /\
    writeIndex object' <= capacity object' /\
    capacity object' =
      (if writeIndex object + len bytes >? capacity object
       then (if capacity object =? 0 then len bytes else 2 * capacity object)
       else capacity object).
Proof.
  intros Hreg Hcap Hb Hfit.
  destruct (WriteBytes_appends bytes object region Hreg Hcap Hb Hfit)
    as (object' & E & Hreg' & Hr & Hw & Hin).
  exists object'. split; [exact E|]. split; [exact Hreg'|].
  pose proof Hreg as Hs. unfold readable_region in Hs.
  apply slice_inv in Hs as (Hrw & Hwc & _).
  pose proof (len_nonneg bytes) as Hb0.
  pose proof (len_nonneg (Internal object)) as HI0. unfold capacity in *.
  assert (Hsum : writeIndex object + len bytes <= int_max).
  { unfold int_max in *. destruct Hfit as [Z0|Hd]; lia. }
  split; [|split; [exact Hr|split; [exact Hw|split; [exact Hin|]]]].
  - rewrite (ReadableBytes_exact object) by (unfold int_max in *; lia).
    rewrite (ReadableBytes_exact object') by (rewrite ?Hr, Hw; lia).
    rewrite Hr, Hw. lia.
  - destruct (WriteBytes_capacity bytes object object' E) as (g & G & Ec).
    unfold capacity in Ec. rewrite Ec. fold (capacity g).
    rewrite (growth_capacity (len bytes) object g Hb0 Hcap G).
    rewrite wrap_int_small by (unfold int_min, int_max in *; lia).
    reflexivity.
Qed.

(** A buffer holding one byte in an array of two takes two more. *)
Lemma WriteBytes_within_doubling_witness :
  exists object',
    WriteBytes [x01; x02] (mkBuffer [x0a; x00] 0 1 0 0) = Some object' /\
    readable_region object' = Some ([x0a] ++ [x01; x02]) /\
    ReadableBytes object'
      = ReadableBytes (mkBuffer [x0a; x00] 0 1 0 0) + len [x01; x02] /\
    readIndex object' = readIndex (mkBuffer [x0a; x00] 0 1 0 0) /\
    writeIndex object'
      = writeIndex (mkBuffer [x0a; x00] 0 1 0 0) + len [x01; x02] /\
    writeIndex object' <= capacity object' /\
    capacity object' =
      (if writeIndex (mkBuffer [x0a; x00] 0 1 0 0) + len [x01; x02]
          >? capacity (mkBuffer [x0a; x00] 0 1 0 0)
       then (if capacity (mkBuffer [x0a; x00] 0 1 0 0) =? 0
             then len [x01; x02]
             else 2 * capacity (mkBuffer [x0a; x00] 0 1 0 0))
       else capacity (mkBuffer [x0a; x00] 0 1 0 0)).
Proof.
  apply (WriteBytes_within_doubling [x01; x02] (mkBuffer [x0a; x00] 0 1 0 0)
           [x0a]).
  - reflexivity.
  - vm_compute. discriminate.
  - vm_compute. discriminate.
  - right. vm_compute. discriminate.
Defined.

(** *** The 32-bit codec *)

(** With four cells behind the write cursor after [growth], [WriteUint32]
    is [WriteBytes] of the four bytes that encode the number. *)
Lemma WriteUint32_as_WriteBytes (v : Z) (object object' : buffer) :
  WriteBytes (PutUint32 v) object = Some object' ->
  writeIndex object' <= capacity object' ->
  0 <= writeIndex object -> writeIndex object + 4 <= int_max ->
  WriteUint32 v object = Some object'.
Proof.
  unfold WriteBytes, WriteUint32.
  change (len (PutUint32 v)) with 4.
  destruct (growth 4 object) as [g|] eqn:G; [|discriminate].
  assert (Hw : writeIndex g = writeIndex object).
  { unfold growth in G.
    destruct (wrap_int (writeIndex object + 4) >? capacity object).
    - destruct (make x00 _); [|discriminate]. injection G as <-. reflexivity.
    - injection G as <-. reflexivity. }
  destruct (slice_from (Internal g) (writeIndex g)) as [window|] eqn:Sw;
    [|discriminate].
  intros E Hin H0 Hmax. injection E as <-.
  unfold capacity, SetWriteIndex, with_Internal in Hin.
  cbn [Internal writeIndex] in Hin.
  unfold slice_from in Sw. apply slice_inv in Sw as (H1 & H2 & ->).
  rewrite wrap_int_small in Hin by (unfold int_min, int_max in *; lia).
  unfold len in Hin. rewrite length_copy_at in Hin by (unfold len in *; lia).
  destruct (Z.ltb_spec (len (firstn (Z.to_nat (len (Internal g) - writeIndex g))
                                    (skipn (Z.to_nat (writeIndex g)) (Internal g))))
                       4) as [L|L]; [|reflexivity].
  exfalso. unfold len in L. rewrite length_firstn, length_skipn in L.
  unfold len in *. lia.
Qed.

(** The window behind the read cursor starts with the readable region. *)
Lemma window_of_region (object : buffer) (region : list byte) :
  readable_region object = Some region ->
  slice_from (Internal object) (readIndex object)
    = Some (region ++ skipn (Z.to_nat (writeIndex object)) (Internal object)).
Proof.
  unfold readable_region. intros H. apply slice_inv in H as (H1 & H2 & ->).
  unfold slice_from. rewrite slice_Some by lia. f_equal.
  rewrite firstn_all2 by (rewrite length_skipn; unfold len; lia).
  rewrite <- (firstn_skipn (Z.to_nat (writeIndex object - readIndex object))
                (skipn (Z.to_nat (readIndex object)) (Internal object))) at 1.
  f_equal. rewrite skipn_skipn. f_equal. lia.
Qed.

(** [ReadUint32] on a buffer whose readable region starts with the four
    bytes of a number gives the number and moves past them. *)
Lemma ReadUint32_decodes (v : Z) (object : buffer) (rest : list byte) :
  0 <= v < 2 ^ 32 ->
  readable_region object = Some (PutUint32 v ++ rest) ->
  capacity object <= int_max ->
  exists object',
    ReadUint32 object = Some (v, object') /\
    readable_region object' = Some rest /\
    readIndex object' = readIndex object + 4 /\
    writeIndex object' = writeIndex object.
Proof.
  intros Hv Hreg Hcap. unfold ReadUint32.
  rewrite (window_of_region _ _ Hreg), <- app_assoc, Uint32_PutUint32 by exact Hv.
  eexists. split; [reflexivity|].
  unfold readable_region in *. apply slice_inv in Hreg as (H1 & H2 & E).
  assert (L : len (PutUint32 v ++ rest)
              = writeIndex object - readIndex object).
  { rewrite E. unfold len. rewrite length_firstn, length_skipn.
    unfold len in *. lia. }
  rewrite len_app in L. change (len (PutUint32 v)) with 4 in L.
  pose proof (len_nonneg rest) as Hr0. unfold capacity in *.
  rewrite wrap_int_small by (unfold int_min, int_max in *; lia).
  unfold SetReadIndex. cbn [Internal readIndex writeIndex].
  split; [|split; reflexivity].
  rewrite slice_Some by lia. f_equal.
  apply (f_equal (skipn 4)) in E.
  change (skipn 4 (PutUint32 v ++ rest)) with rest in E. rewrite E.
  rewrite skipn_firstn_comm, skipn_skipn.
  f_equal; [lia|]. f_equal. lia.
Qed.

(** X2: the round trip of a 32-bit number through the buffer.  Where
    doubling the array makes room for four bytes, [WriteUint32] returns and
    the readable region grows by the four big-endian bytes of the number;
    on a buffer that was drained, [ReadUint32] then gives the number back and
    leaves the buffer drained again. *)
Theorem WriteUint32_ReadUint32_roundtrip (v : Z) (object : buffer)
    (region : list byte) :
  0 <= v < 2 ^ 32 ->
  readable_region object = Some region ->
  2 * capacity object <= int_max ->
  capacity object = 0 \/ writeIndex object + 4 <= 2 * capacity object ->
  exists written,
    WriteUint32 v object = Some written /\
    readable_region written = Some (region ++ PutUint32 v) /\
    writeIndex written = writeIndex object + 4 /\
    writeIndex written <= capacity written /\
    (region = [] ->
     exists drained,
       ReadUint32 written = Some (v, drained) /\
       IsEmpty drained = true /\
       readable_region drained = Some []).
Proof.
  intros Hv Hreg Hcap Hfit.
  destruct (WriteBytes_within_doubling (PutUint32 v) object region Hreg Hcap)
    as (written & E & Hreg' & _ & Hr & Hw & Hin & Hc).
  { vm_compute. discriminate. }
  { exact Hfit. }
  change (len (PutUint32 v)) with 4 in *.
  pose proof Hreg as Hs. unfold readable_region in Hs.
  apply slice_inv in Hs as (Hrw & Hwc & _).
  pose proof (len_nonneg (Internal object)) as HI0. unfold capacity in *.
  exists written. split.
  { apply WriteUint32_as_WriteBytes; try assumption; try lia.
    unfold int_max in *. destruct Hfit; lia. }
  split; [exact Hreg'|]. split; [exact Hw|]. split; [exact Hin|].
  intros ->. cbn [app] in Hreg'.
  rewrite <- (app_nil_r (PutUint32 v)) in Hreg'.
  destruct (ReadUint32_decodes v written [] Hv Hreg') as (drained & R & Hd & Hrd & Hwd).
  { unfold capacity. rewrite Hc.
    destruct (writeIndex object + 4 >? len (Internal object));
      [destruct (len (Internal object) =? 0)|]; unfold int_max in *; lia. }
  exists drained. split; [exact R|]. split; [|exact Hd].
  unfold IsEmpty. rewrite Hrd, Hwd, Hr, Hw.
  unfold readable_region in Hreg. apply slice_inv in Hreg as (_ & _ & E0).
  apply (f_equal (@length byte)) in E0.
  rewrite length_firstn, length_skipn in E0. cbn [length] in E0.
  apply Z.eqb_eq. unfold len in *. lia.
Qed.

(** The number [0xCAFE] through a drained buffer of eight cells. *)
Lemma WriteUint32_ReadUint32_roundtrip_witness :
  exists written,
    WriteUint32 51966 (mkBuffer (repeat x00 8) 2 2 0 0) = Some written /\
    readable_region written = Some ([] ++ PutUint32 51966) /\
    writeIndex written = writeIndex (mkBuffer (repeat x00 8) 2 2 0 0) + 4 /\
    writeIndex written <= capacity written /\
    (@nil byte = [] ->
     exists drained,
       ReadUint32 written = Some (51966, drained) /\
       IsEmpty drained = true /\
       readable_region drained = Some []).
Proof.
  apply (WriteUint32_ReadUint32_roundtrip 51966
           (mkBuffer (repeat x00 8) 2 2 0 0) []).
  - lia.
  - reflexivity.
  - vm_compute. discriminate.
  - right. vm_compute. discriminate.
Defined.

(** *** The mark of the read cursor *)

Lemma growth_keeps_cursors (needSize : Z) (object grown : buffer) :
  growth needSize object = Some grown ->
  readIndex grown = readIndex object /\ writeIndex grown = writeIndex object /\
  markedReadIndex grown = markedReadIndex object.
Proof.
  unfold growth.
  destruct (wrap_int (writeIndex object + needSize) >? capacity object).
  - destruct (make x00 _); [|discriminate]. intros E. injection E as <-.
    repeat split.
  - intros E. injection E as <-. repeat split.
Qed.

(** No operation but [MarkReadIndex] and [ResetReadIndex] touches the mark
    of the read cursor. *)
Lemma apply_op_keeps_mark (op : buffer_op) (object object' : buffer) :
  apply_op op object = Some object' ->
  markedReadIndex object' = markedReadIndex object.
Proof.
  destruct op; cbn [apply_op].
  - unfold WriteBytes.
    destruct (growth (len bytes) object) as [g|] eqn:G; [|discriminate].
    apply growth_keeps_cursors in G as (_ & _ & Hm).
    destruct (slice_from _ _); [|discriminate].
    intros E. injection E as <-. exact Hm.
  - unfold WriteUint32.
    destruct (growth 4 object) as [g|] eqn:G; [|discriminate].
    apply growth_keeps_cursors in G as (_ & _ & Hm).
    destruct (slice_from _ _) as [window|]; [|discriminate].
    destruct (len window <? 4); [discriminate|].
    intros E. injection E as <-. exact Hm.
  - unfold ReadUint32.
    destruct (slice_from _ _) as [window|]; [|discriminate].
    destruct (Uint32 window); [|discriminate].
    intros E. injection E as <-. reflexivity.
  - intros E. injection E as <-. reflexivity.
  - intros E. injection E as <-. reflexivity.
  - intros E. injection E as <-. reflexivity.
  - intros E. injection E as <-. reflexivity.
  - unfold DiscardReadBytes.
    destruct (slice _ _ _); [|discriminate].
    intros E. injection E as <-. reflexivity.
Qed.

(** X3: the mark of the read cursor is a bare index that is used up by
    one reset.  Whatever writes, reads, cursor moves and compactions come
    between (and return), [ResetReadIndex] puts the read cursor back on the
    index that [MarkReadIndex] saw, also after [DiscardReadBytes] has moved
    the bytes away from under it; the reset clears the mark, so a second
    reset puts the cursor on 0. *)
Theorem ResetReadIndex_returns_to_mark_once (ops : list buffer_op)
    (object object' : buffer) :
  apply_ops ops (MarkReadIndex object) = Some object' ->
  readIndex (ResetReadIndex object') = readIndex object /\
  markedReadIndex (ResetReadIndex object') = 0 /\
  readIndex (ResetReadIndex (ResetReadIndex object')) = 0 /\
  writeIndex (ResetReadIndex object') = writeIndex object' /\
  Internal (ResetReadIndex object') = Internal object'.
Proof.
  intros H.
  assert (M : markedReadIndex object' = readIndex object).
  { change (readIndex object) with (markedReadIndex (MarkReadIndex object)).
    revert H. generalize (MarkReadIndex object). clear object.
    induction ops as [|op ops IH]; intros b; cbn [apply_ops].
    - intros E. injection E as <-. reflexivity.
    - destruct (apply_op op b) as [b'|] eqn:A; [|discriminate].
      intros E. rewrite (IH b' E). apply (apply_op_keeps_mark op b b' A). }
  unfold ResetReadIndex. cbn [readIndex markedReadIndex writeIndex Internal].
  repeat split. exact M.
Qed.

(** A mark at index 1, a number written, the cursor moved onto its last
    byte, a compaction: the reset puts the cursor on 1, where nothing is
    readable. *)
Lemma ResetReadIndex_returns_to_mark_once_witness :
  let object' := mkBuffer [x0a; x00; x00; x00; x0a; x00; x00; x00] 0 1 1 0 in
  readIndex (ResetReadIndex object') = 1 /\
  markedReadIndex (ResetReadIndex object') = 0 /\
  readIndex (ResetReadIndex (ResetReadIndex object')) = 0 /\
  writeIndex (ResetReadIndex object') = writeIndex object' /\
  Internal (ResetReadIndex object') = Internal object'.
Proof.
  apply (ResetReadIndex_returns_to_mark_once
           [OpWriteUint32 10; OpSetReadIndex 4; OpDiscardReadBytes]
           (mkBuffer [x00; x00; x00; x00; x00; x00; x00; x00] 1 1 0 0)
           (mkBuffer [x0a; x00; x00; x00; x0a; x00; x00; x00] 0 1 1 0)).
  reflexivity.
Defined.

End BufferCursorFacts.

(** ** The framed pipe: what a call leaves alone, streams that break off,
       frames that are lost, a close that fails *)

Module PipeFacts.
Import Buffer XPipe XPipeFacts ReadFacts.

(** *** The files a call does not touch *)

Lemma OS_Read_others (os : OS.state) (f : option OS.fd) (room : nat)
    (data : list byte) (err : option error) (os1 : OS.state) :
  OS.Read os f room = (data, err, os1) ->
  forall g, f <> Some g -> OS.file os1 g = OS.file os g.
Proof.
  unfold OS.Read. destruct f as [r|].
  - destruct (negb (OS.f_open (OS.file os r))).
    { intros E. inversion E. reflexivity. }
    destruct room as [|room].
    { intros E. inversion E. reflexivity. }
    destruct (OS.take_chunk (S room) (OS.f_incoming (OS.file os r)))
      as [[d rest]|]; intros E; inversion E; intros g Hg;
      apply file_set_file_other; congruence.
  - intros E. inversion E. reflexivity.
Qed.

Lemma OS_Write_others (os : OS.state) (f : option OS.fd) (b : list byte)
    (n : Z) (err : option error) (os1 : OS.state) :
  OS.Write os f b = (n, err, os1) ->
  forall g, f <> Some g -> OS.file os1 g = OS.file os g.
Proof.
  unfold OS.Write. destruct f as [w|].
  - destruct (negb (OS.f_open (OS.file os w))).
    { intros E. inversion E. reflexivity. }
    destruct (OS.f_write_plan (OS.file os w)) as [|[k|k e] plan];
      intros E; inversion E; intros g Hg;
      apply file_set_file_other; congruence.
  - intros E. inversion E. reflexivity.
Qed.

(** What holds of the system before a [Read] and is kept by every read on
    the file holds after it: [Read] does nothing to the system but read
    its file. *)
Section Read_invariant.

Context {S : Type} (callback : visitor S) (object : XPipe).
Variable P : OS.state -> Prop.
Hypothesis P_Read :
  forall os room data err os1,
    P os -> OS.Read os (ReadPipe object) room = (data, err, os1) -> P os1.

Lemma Read_loop_invariant :
  forall (fuel : nat) (readBuf : buffer) (os : OS.state) (st : S)
         (err : option error) (os' : OS.state) (st' : S),
    P os ->
    Read_loop callback fuel object os readBuf st = Done (err, os', st') ->
    P os'.
Proof.
  induction fuel as [|fuel IH]; intros readBuf os st err os' st' HP;
    cbn [Read_loop]; [discriminate|].
  destruct (slice_from (Internal readBuf) (GetWriteIndex readBuf))
    as [window|]; [|discriminate].
  destruct (OS.Read os (ReadPipe object) (length window)) as [[data e] os1] eqn:R.
  pose proof (P_Read _ _ _ _ _ HP R) as F.
  cbv beta iota zeta.
  assert (Go : forall flag,
    (if 0 >=? len data
     then Done (e, os1, st)
     else
       match
         Read_frames callback
           (Z.to_nat
              (ReadableBytes
                 (SetWriteIndex
                    (wrap_int
                       (GetWriteIndex
                          (with_Internal readBuf
                             (copy_at (Internal readBuf)
                                (Z.to_nat (GetWriteIndex readBuf)) data))
                        + len data))
                    (with_Internal readBuf
                       (copy_at (Internal readBuf)
                          (Z.to_nat (GetWriteIndex readBuf)) data)))))
           (SetWriteIndex
              (wrap_int
                 (GetWriteIndex
                    (with_Internal readBuf
                       (copy_at (Internal readBuf)
                          (Z.to_nat (GetWriteIndex readBuf)) data))
                  + len data))
              (with_Internal readBuf
                 (copy_at (Internal readBuf)
                    (Z.to_nat (GetWriteIndex readBuf)) data)))
           flag st
       with
       | Done (readBuf0, flag0, st0) =>
           if flag0
           then Read_loop callback fuel object os1 readBuf0 st0
           else Done (e, os1, st0)
       | Panics => Panics
       | OutOfFuel => OutOfFuel
       end) = Done (err, os', st') -> P os').
  { intros flag. destruct (0 >=? len data).
    - intros E. inversion E. subst. exact F.
    - match goal with
      | |- context [Read_frames ?a ?b ?c ?d ?x] =>
          destruct (Read_frames a b c d x) as [[[rb fl] st1]| |]
      end; try discriminate.
      destruct fl.
      + intros E. exact (IH _ _ _ _ _ _ F E).
      + intros E. inversion E. subst. exact F. }
  destruct e as [e|].
  - destruct (is_EOF e).
    + apply Go.
    + intros E. inversion E. subst. exact F.
  - apply Go.
Qed.

Lemma Read_invariant (os : OS.state) (st : S) (err : option error)
    (os' : OS.state) (st' : S) :
  P os -> Read callback object os st = Done (err, os', st') -> P os'.
Proof.
  intros HP. unfold Read. destruct (IsClosed object).
  - intros E. inversion E. subst. exact HP.
  - destruct (NewBuffer (Z.shiftl 1 16)) as [readBuf|]; [|discriminate].
    apply Read_loop_invariant. exact HP.
Qed.

End Read_invariant.

(** [Read] changes no file but the one it reads from. *)
Lemma Read_others {S : Type} (callback : visitor S) (object : XPipe)
    (os : OS.state) (st : S) (err : option error) (os' : OS.state) (st' : S) :
  Read callback object os st = Done (err, os', st') ->
  forall g, ReadPipe object <> Some g -> OS.file os' g = OS.file os g.
Proof.
  intros E g Hg.
  apply (Read_invariant callback object
           (fun o => OS.file o g = OS.file os g)) with (os := os) (st := st)
           (err := err) (st' := st'); [|reflexivity|exact E].
  intros o room data e o1 HP R.
  rewrite (OS_Read_others _ _ _ _ _ _ R g Hg). exact HP.
Qed.

(** [Read] leaves the file it reads from open. *)
Lemma Read_keeps_open {S : Type} (callback : visitor S) (object : XPipe)
    (os : OS.state) (st : S) (err : option error) (os' : OS.state) (st' : S)
    (r : OS.fd) :
  ReadPipe object = Some r ->
  OS.f_open (OS.file os r) = true ->
  Read callback object os st = Done (err, os', st') ->
  OS.f_open (OS.file os' r) = true.
Proof.
  intros Hr Ho E.
  apply (Read_invariant callback object
           (fun o => OS.f_open (OS.file o r) = true)) with (os := os) (st := st)
           (err := err) (st' := st'); [|exact Ho|exact E].
  intros o room data e o1 HP R. rewrite Hr in R. unfold OS.Read in R.
  rewrite HP in R. cbn [negb] in R.
  destruct room as [|room]; [inversion R; subst; exact HP|].
  destruct (OS.take_chunk (Datatypes.S room) (OS.f_incoming (OS.file o r)))
    as [[d rest]|]; inversion R; subst; rewrite file_set_file_same;
    reflexivity.
Qed.

(** [Write] changes no file but the one it writes to. *)
Lemma writeEmpty_loop_others (object : XPipe) :
  forall (fuel : nat) (os : OS.state) (raw : list byte)
         (err : option error) (os' : OS.state),
    writeEmpty_loop fuel object os raw = Done (err, os') ->
    forall g, WritePipe object <> Some g -> OS.file os' g = OS.file os g.
Proof.
  induction fuel as [|fuel IH]; intros os raw err os'; cbn [writeEmpty_loop];
    destruct (0 <? len raw); try discriminate;
    try (intros E; inversion E; reflexivity).
  destruct (OS.Write os (WritePipe object) raw) as [[n e] os1] eqn:W.
  pose proof (OS_Write_others _ _ _ _ _ _ W) as F.
  destruct e as [e|].
  - intros E. inversion E. subst. exact F.
  - destruct (slice_from raw n) as [raw'|]; [|discriminate].
    intros E g Hg. rewrite (IH _ _ _ _ E g Hg). apply F, Hg.
Qed.

Lemma Write_others (object : XPipe) (os : OS.state) (raw : list byte)
    (err : option error) (os' : OS.state) :
  Write object os raw = Done (err, os') ->
  forall g, WritePipe object <> Some g -> OS.file os' g = OS.file os g.
Proof.
  unfold Write, writeEmpty. destruct (IsClosed object).
  - intros E. inversion E. reflexivity.
  - destruct (writeEmpty_loop (writeEmpty_fuel object os) object os
                (PutUint32 (uint32 (len raw)))) as [[[e|] os1]| |] eqn:W1;
      try discriminate.
    + intros E. inversion E. subst.
      apply (writeEmpty_loop_others _ _ _ _ _ _ W1).
    + intros E g Hg.
      rewrite (writeEmpty_loop_others _ _ _ _ _ _ E g Hg).
      apply (writeEmpty_loop_others _ _ _ _ _ _ W1 g Hg).
Qed.

(** *** A stream that breaks off inside a frame *)

(** Frames counted from the front of a stream stay among the whole ones
    when the stream breaks off inside a later frame. *)
Lemma whole_frames_prefix (bs bs2 c1 c2 : list (list byte))
    (tailp : list byte) :
  bs ++ bs2 = c1 ++ c2 ->
  cut_inside tailp bs2 ->
  (length (stream c1) <= length (stream bs) + length tailp)%nat ->
  exists bs', bs = c1 ++ bs' /\ c2 = bs' ++ bs2.
Proof.
  intros E C L. apply app_eq_app in E as (l & [(E1 & E2)|(E1 & E2)]).
  - exists l. split; assumption.
  - destruct l as [|b2 l].
    + exists []. rewrite app_nil_r in E1. simpl in E2. subst.
      rewrite app_nil_r. split; reflexivity.
    + exfalso. subst bs2 c1. cbn [cut_inside app] in C.
      destruct C as (rest & F & Hne).
      rewrite stream_app, stream_cons, F, !length_app in L.
      destruct rest; [congruence|]. cbn [length] in L. lia.
Qed.

(** What a cut leaves open is the rest of the frames it falls in. *)
Lemma cut_inside_rest (tailp : list byte) (bs2 : list (list byte)) :
  cut_inside tailp bs2 -> exists X, tailp ++ X = stream bs2.
Proof.
  destruct bs2 as [|b bs2]; cbn [cut_inside].
  - intros ->. exists []. reflexivity.
  - intros (rest & F & _). exists (rest ++ stream bs2).
    rewrite stream_cons, F, <- app_assoc. reflexivity.
Qed.

(** The outer loop of [Read] on a stream of frames that fit and that breaks
    off inside a frame: the visitor gets the whole frames in order until it
    stops, and nothing of the broken one. *)
Lemma Read_loop_prefix {S : Type} (callback : visitor S) (object : XPipe)
    (r : OS.fd) :
  ReadPipe object = Some r ->
  forall (fuel : nat) (bs bs2 : list (list byte)) (pend tailp : list byte)
         (readBuf : buffer) (os : OS.state) (st : S),
    all_fit (bs ++ bs2) ->
    OS.f_open (OS.file os r) = true ->
    holds readBuf pend ->
    pend ++ concat (OS.f_incoming (OS.file os r)) = stream bs ++ tailp ->
    cut_inside tailp bs2 ->
    cut_inside pend (bs ++ bs2) ->
    (OS.reads_bound (OS.f_incoming (OS.file os r)) < fuel)%nat ->
    exists os',
      Read_loop callback fuel object os readBuf st =
      Done (if snd (visit_frames callback st bs)
            then Some (OS.f_incoming_end (OS.file os r)) else None,
            os', fst (visit_frames callback st bs)).
Proof.
  intros Hrp fuel. induction fuel as [|fuel IH];
    intros bs bs2 pend tailp readBuf os st Hfit Ho H Hs Ct Hc Hf; [lia|].
  pose proof (cut_inside_room pend (bs ++ bs2) Hfit Hc) as Hroom.
  destruct H as (junk & HI & HL & Hr & Hw).
  assert (Hl : len pend + len junk = 65536)
    by (rewrite <- len_app, <- HI; exact HL).
  assert (Hj : length junk <> O) by (unfold len in *; lia).
  assert (Sl : slice_from (Internal readBuf) (GetWriteIndex readBuf) = Some junk).
  { unfold GetWriteIndex. rewrite HI, Hw. apply slice_back. }
  cbn [Read_loop]. rewrite Sl, Hrp.
  destruct (concat (OS.f_incoming (OS.file os r))) as [|x xs] eqn:Ec.
  - (* the file has no more: no whole frame is left in the buffer *)
    rewrite app_nil_r in Hs.
    assert (Hbs : bs = []).
    { destruct bs as [|b bs']; [reflexivity|exfalso].
      cbn [cut_inside app] in Hc. destruct Hc as (rest & F & Hne).
      rewrite Hs, stream_cons in F.
      apply (f_equal (@length byte)) in F. rewrite !length_app in F.
      destruct rest; [congruence|]. cbn [length] in F. lia. }
    subst bs.
    rewrite (OS_Read_end os r _ Ho Hj (take_chunk_None _ _ Ec)).
    cbv beta iota zeta. cbn [visit_frames fst snd].
    destruct (is_EOF (OS.f_incoming_end (OS.file os r)));
      eexists; reflexivity.
  - (* the file has more *)
    assert (Hne : concat (OS.f_incoming (OS.file os r)) <> [])
      by (rewrite Ec; discriminate).
    rewrite <- Ec in Hs. clear Ec x xs.
    destruct (take_chunk_Some _ _ Hj Hne) as (data & rest & E & Dne & DL & Cc & Bd).
    rewrite (OS_Read_data os r _ data rest Ho Hj E).
    set (os1 := OS.set_file os r _).
    cbv beta iota zeta.
    assert (Hn : 0 < len data).
    { destruct data; [congruence|]. unfold len. simpl. lia. }
    destruct (Z.geb_spec 0 (len data)) as [|_]; [lia|].
    pose proof (holds_after_read readBuf pend junk data HI HL Hr Hw DL) as H1.
    set (readBuf1 := SetWriteIndex _ _) in *.
    rewrite (holds_ReadableBytes _ _ H1), to_nat_len.
    rewrite Cc, app_assoc in Hs.
    destruct (cut_inside_rest _ _ Ct) as (X & HX).
    assert (Hall : stream (bs ++ bs2) = (pend ++ data) ++ (concat rest ++ X)).
    { rewrite stream_app, <- HX, !app_assoc. f_equal. symmetry.
      rewrite <- app_assoc. rewrite <- app_assoc in Hs. exact Hs. }
    destruct (split_at_frames _ _ _ Hall) as (c1 & c2 & pend' & B & Pe & Qe & C).
    destruct (whole_frames_prefix bs bs2 c1 c2 tailp B Ct) as (bs' & Eb & Ec2).
    { apply (f_equal (@length byte)) in Hs. rewrite !length_app in Hs.
      apply (f_equal (@length byte)) in Pe. rewrite !length_app in Pe. lia. }
    assert (Hrest : pend' ++ concat rest = stream bs' ++ tailp).
    { subst c2. rewrite stream_app, <- HX in Qe.
      rewrite !app_assoc in Qe. apply app_inv_tail in Qe. exact Qe. }
    assert (Hfit1 : all_fit c1 /\ all_fit c2).
    { rewrite B in Hfit. apply all_fit_app, Hfit. }
    destruct Hfit1 as [Hfit1 Hfit2].
    rewrite Pe in H1.
    destruct (Read_frames_stream callback c1 Hfit1 pend'
                (length (pend ++ data)) readBuf1 st H1
                (cut_inside_incomplete _ _ Hfit2 C)) as (readBuf' & Ef & Hh).
    { destruct c1 as [|b1 c1].
      - rewrite length_app. unfold len in Hn. simpl. lia.
      - rewrite Pe, length_app. pose proof (stream_length (b1 :: c1)) as SL.
        cbn [length] in *. lia. }
    rewrite Ef, Eb, visit_frames_app.
    destruct (visit_frames callback st c1) as [st1 more].
    cbn [fst snd] in *. destruct more.
    + destruct (IH bs' bs2 pend' tailp readBuf' os1 st1) as (os' & E').
      * rewrite <- Ec2. exact Hfit2.
      * unfold os1. rewrite file_set_file_same. reflexivity.
      * apply Hh. reflexivity.
      * unfold os1. rewrite file_set_file_same. exact Hrest.
      * exact Ct.
      * rewrite <- Ec2. exact C.
      * unfold os1. rewrite file_set_file_same. cbn [OS.f_incoming]. lia.
      * exists os'. rewrite E'. unfold os1. rewrite file_set_file_same.
        reflexivity.
    + exists os1. reflexivity.
Qed.

(** *** The properties *)

(** X4: [Read] never panics and never hangs in its loops.  Whatever the
    pipe object, whatever the file delivers (frames, a header that
    announces more than the buffer holds, a stream that breaks off, no
    file at all) and whatever the visitor does, the call returns: no slice
    of the read buffer is taken out of range. *)
Theorem Read_always_returns {S : Type} (callback : visitor S) (st : S)
    (object : XPipe) (os : OS.state) :
  exists err os' st',
    Read callback object os st = Done (err, os', st') /\
    (forall g, ReadPipe object <> Some g -> OS.file os' g = OS.file os g).
Proof.
  destruct (Read_returns callback st object os) as (err & os' & st' & E).
  exists err, os', st'. split; [exact E|].
  apply (Read_others callback object os st err os' st' E).
Qed.

(** X5: the order and the end of a [Read].  On an open pipe whose file
    delivers, in any pieces, a stream of frames that fit the buffer, the
    visitor gets the payloads in the order they were written, one call per
    frame, until it returns [false]; [Read] then returns [nil] and the
    frames behind are not handed over.  A visitor that never returns
    [false] gets them all, and [Read] returns the error that ended the
    stream: [io.EOF] when the writer closed its end, not [nil].  No other
    file is touched. *)
Theorem Read_hands_frames_in_order {S : Type} (callback : visitor S) (st : S)
    (object : XPipe) (os : OS.state) (r : OS.fd)
    (payloads : list (list byte)) :
  IsClosed object = false ->
  ReadPipe object = Some r ->
  OS.f_open (OS.file os r) = true ->
  concat (OS.f_incoming (OS.file os r)) = stream payloads ->
  all_fit payloads ->
  exists os',
    Read callback object os st =
      Done (if snd (visit_frames callback st payloads)
            then Some (OS.f_incoming_end (OS.file os r)) else None,
            os', fst (visit_frames callback st payloads)) /\
    (forall before stop after,
       payloads = before ++ stop :: after ->
       snd (visit_frames callback st before) = true ->
       snd (callback (fst (visit_frames callback st before)) stop) = false ->
       Read callback object os st =
         Done (None, os',
               fst (callback (fst (visit_frames callback st before)) stop))) /\
    (forall g, g <> r -> OS.file os' g = OS.file os g).
Proof.
  intros Hc Hrp Ho Hs Hfit.
  destruct (Read_visits_frames callback st object os r payloads
              Hc Hrp Ho Hs Hfit) as (os' & E).
  exists os'. split; [exact E|]. split.
  - intros before stop after -> Hb Hstop. rewrite E.
    rewrite visit_frames_app.
    destruct (visit_frames callback st before) as [st1 more].
    cbn [fst snd] in *. subst more. cbn [visit_frames].
    destruct (callback st1 stop) as [st2 more2]. cbn [fst snd] in *.
    subst more2. reflexivity.
  - intros g Hg. apply (Read_others callback object os st _ _ _ E).
    rewrite Hrp. congruence.
Qed.

(** Three frames in three pieces that cut through them; the closure that
    waits for readiness stops at the second. *)
Lemma Read_hands_frames_in_order_witness :
  let chunks := [frame [x2a] ++ firstn 3 (frame ReadyOK);
                 skipn 3 (frame ReadyOK); frame []] in
  let payloads := [[x2a]; ReadyOK; []] in
  exists os',
    Read ready_visitor (mkXPipe 0 (Some O) None) (arrives boot O chunks) false
    = Done (if snd (visit_frames ready_visitor false payloads)
            then Some (OS.f_incoming_end (OS.file (arrives boot O chunks) O))
            else None,
            os', fst (visit_frames ready_visitor false payloads)) /\
    (forall before stop after,
       payloads = before ++ stop :: after ->
       snd (visit_frames ready_visitor false before) = true ->
       snd (ready_visitor (fst (visit_frames ready_visitor false before)) stop)
         = false ->
       Read ready_visitor (mkXPipe 0 (Some O) None) (arrives boot O chunks) false
       = Done (None, os',
               fst (ready_visitor
                      (fst (visit_frames ready_visitor false before)) stop))) /\
    (forall g, g <> O -> OS.file os' g = OS.file (arrives boot O chunks) g).
Proof.
  apply (Read_hands_frames_in_order ready_visitor false
           (mkXPipe 0 (Some O) None)
           (arrives boot O
              [frame [x2a] ++ firstn 3 (frame ReadyOK);
               skipn 3 (frame ReadyOK); frame []])
           O [[x2a]; ReadyOK; []]).
  - reflexivity.
  - reflexivity.
  - reflexivity.
  - reflexivity.
  - repeat constructor; vm_compute; discriminate.
Defined.

(** X6: a stream that breaks off inside a frame.  When the file delivers
    whole frames that fit and then only a part of one more (the writer
    died, or its write failed half way) before the stream ends, the visitor
    gets the whole frames and nothing of the broken one, and [Read] returns
    what it returns for the stream without the broken frame: the loss is
    not reported. *)
Theorem Read_drops_broken_frame {S : Type} (callback : visitor S) (st : S)
    (object : XPipe) (os : OS.state) (r : OS.fd)
    (payloads : list (list byte)) (last partial rest : list byte) :
  IsClosed object = false ->
  ReadPipe object = Some r ->
  OS.f_open (OS.file os r) = true ->
  all_fit (payloads ++ [last]) ->
  frame last = partial ++ rest -> rest <> [] ->
  concat (OS.f_incoming (OS.file os r)) = stream payloads ++ partial ->
  exists os',
    Read callback object os st =
      Done (if snd (visit_frames callback st payloads)
            then Some (OS.f_incoming_end (OS.file os r)) else None,
            os', fst (visit_frames callback st payloads)).
Proof.
  intros Hc Hrp Ho Hfit Hl Hne Hs. unfold Read. rewrite Hc.
  destruct NewBuffer_holds as (readBuf & -> & H).
  apply (Read_loop_prefix callback object r Hrp _ payloads [last] [] partial
           readBuf os st); try assumption.
  - cbn [cut_inside]. exists rest. split; assumption.
  - destruct payloads as [|b bs]; cbn [app cut_inside].
    + exists (frame last). split; [reflexivity|].
      rewrite Hl. destruct partial; [exact Hne|discriminate].
    + exists (frame b). split; [reflexivity|]. discriminate.
  - unfold Read_fuel. rewrite Hrp. lia.
Qed.

(** One whole frame, then five of the six bytes of the next. *)
Lemma Read_drops_broken_frame_witness :
  exists os',
    Read recorder (mkXPipe 0 (Some O) None)
         (arrives boot O
            [[x00; x00; x00; x01; x07; x00; x00]; [x00; x02; x08]]) []
    = Done (if snd (visit_frames recorder [] [[x07]])
            then Some (OS.f_incoming_end
                         (OS.file (arrives boot O
                            [[x00; x00; x00; x01; x07; x00; x00];
                             [x00; x02; x08]]) O))
            else None,
            os', fst (visit_frames recorder [] [[x07]])).
Proof.
  apply (Read_drops_broken_frame recorder [] (mkXPipe 0 (Some O) None)
           (arrives boot O
              [[x00; x00; x00; x01; x07; x00; x00]; [x00; x02; x08]])
           O [[x07]] [x08; x09] [x00; x00; x00; x02; x08] [x09]).
  - reflexivity.
  - reflexivity.
  - reflexivity.
  - repeat constructor; vm_compute; discriminate.
  - reflexivity.
  - discriminate.
  - reflexivity.
Defined.

(** A stream that the buffer holds is made of frames that fit. *)
Lemma stream_fits (bs : list (list byte)) :
  len (stream bs) <= 2 ^ 16 -> all_fit bs.
Proof.
  induction bs as [|b bs IH]; intros L; [constructor|].
  rewrite stream_cons, len_app, len_frame in L.
  pose proof (len_nonneg (stream bs)). pose proof (len_nonneg b).
  constructor.
  - unfold max_payload. lia.
  - apply IH. lia.
Qed.

Lemma take_chunk_whole (room : nat) (c : list byte) (rest : list (list byte)) :
  c <> [] -> (length c <= room)%nat ->
  OS.take_chunk room (c :: rest) = Some (c, rest).
Proof.
  intros Hne L. destruct c as [|x c]; [congruence|].
  cbn [OS.take_chunk].
  destruct (Nat.leb_spec (length (x :: c)) room); [reflexivity|lia].
Qed.

(** X7: frames that share a read with the frame the visitor stops at are
    lost.  Every [Read] starts with a buffer of its own.  When several
    frames reach the file in one piece that the buffer holds and the
    visitor stops at one of them, [Read] returns [nil], and the frames
    behind it, already taken from the file, are gone with the buffer: the
    file has nothing left, and the next [Read] on the pipe hands its
    visitor nothing and returns the error that ends the stream. *)
Theorem Read_loses_frames_behind_a_stop {S T : Type} (callback : visitor S)
    (next : visitor T) (st : S) (st2 : T) (object : XPipe) (os : OS.state)
    (r : OS.fd) (before : list (list byte)) (stop : list byte)
    (after : list (list byte)) :
  IsClosed object = false ->
  ReadPipe object = Some r ->
  OS.f_open (OS.file os r) = true ->
  OS.f_incoming (OS.file os r) = [stream (before ++ stop :: after)] ->
  len (stream (before ++ stop :: after)) <= 2 ^ 16 ->
  snd (visit_frames callback st before) = true ->
  snd (callback (fst (visit_frames callback st before)) stop) = false ->
  exists os1 os2,
    Read callback object os st =
      Done (None, os1,
            fst (callback (fst (visit_frames callback st before)) stop)) /\
    OS.f_incoming (OS.file os1 r) = [] /\
    Read next object os1 st2 =
      Done (Some (OS.f_incoming_end (OS.file os r)), os2, st2).
Proof.
  intros Hc Hrp Ho Hin Hlen Hb Hstop.
  set (bs := before ++ stop :: after) in *.
  pose proof (stream_fits bs Hlen) as Hfit.
  assert (Hbs : (0 < length bs)%nat).
  { unfold bs. rewrite length_app. cbn [length]. lia. }
  pose proof (stream_length bs) as SL.
  set (os1 := OS.set_file os r
                (OS.mkFile true [] (OS.f_incoming_end (OS.file os r))
                           (OS.f_written (OS.file os r))
                           (OS.f_write_plan (OS.file os r)))).
  assert (First : Read callback object os st =
            Done (None, os1,
                  fst (callback (fst (visit_frames callback st before)) stop))).
  { unfold Read. rewrite Hc.
    destruct NewBuffer_holds as (readBuf & -> & H).
    destruct H as (junk & HI & HL & Hr & Hw).
    cbn [app] in HI. change (len (@nil byte)) with 0 in Hw.
    assert (Hj : length junk = Z.to_nat 65536).
    { rewrite <- HI. unfold len in HL. lia. }
    assert (Sl : slice_from (Internal readBuf) (GetWriteIndex readBuf) = Some junk).
    { unfold GetWriteIndex. rewrite HI, Hw. apply (slice_back [] junk). }
    unfold Read_fuel. rewrite Hrp, Hin. cbn [OS.reads_bound Read_loop].
    rewrite Sl, Hrp.
    assert (Hroom : (length (stream bs) <= length junk)%nat).
    { rewrite Hj. unfold len in Hlen. lia. }
    rewrite (OS_Read_data os r _ (stream bs) [] Ho).
    2: { rewrite Hj. discriminate. }
    2: { rewrite Hin. apply take_chunk_whole; [|exact Hroom].
         intros E0. rewrite E0 in SL. cbn [length] in SL. lia. }
    fold os1. cbv beta iota zeta.
    destruct (Z.geb_spec 0 (len (stream bs))) as [L0|_];
      [unfold len in L0; lia|].
    pose proof (holds_after_read readBuf [] junk (stream bs) HI HL Hr Hw Hroom)
      as H1.
    cbn [app] in H1.
    set (readBuf1 := SetWriteIndex _ _) in *.
    rewrite (holds_ReadableBytes _ _ H1), to_nat_len.
    rewrite <- (app_nil_r (stream bs)) in H1.
    destruct (Read_frames_stream callback bs Hfit [] (length (stream bs))
                readBuf1 st H1) as (readBuf' & Ef & _).
    { left. reflexivity. }
    { lia. }
    rewrite Ef. unfold bs. rewrite visit_frames_app.
    destruct (visit_frames callback st before) as [st1 more].
    cbn [fst snd] in *. subst more. cbn [visit_frames].
    destruct (callback st1 stop) as [st' more']. cbn [fst snd] in *.
    subst more'. reflexivity. }
  assert (F1 : OS.file os1 r
               = OS.mkFile true [] (OS.f_incoming_end (OS.file os r))
                           (OS.f_written (OS.file os r))
                           (OS.f_write_plan (OS.file os r))).
  { unfold os1. apply file_set_file_same. }
  destruct (Read_visits_frames next st2 object os1 r [] Hc Hrp) as (os2 & E2).
  { rewrite F1. reflexivity. }
  { rewrite F1. reflexivity. }
  { constructor. }
  exists os1, os2. split; [exact First|]. split.
  - rewrite F1. reflexivity.
  - rewrite E2, F1. reflexivity.
Qed.

(** [ReadyOK] and [Exit] reach the parent in one piece: the readiness read
    stops at the first, and the read for the reply finds nothing. *)
Lemma Read_loses_frames_behind_a_stop_witness :
  exists os1 os2,
    Read ready_visitor (mkXPipe 0 (Some O) None)
         (arrives boot O [stream ([] ++ ReadyOK :: [ExitReply])]) false =
      Done (None, os1,
            fst (ready_visitor (fst (visit_frames ready_visitor false [])) ReadyOK)) /\
    OS.f_incoming (OS.file os1 O) = [] /\
    Read Daemon.exit_visitor (mkXPipe 0 (Some O) None) os1 tt =
      Done (Some (OS.f_incoming_end
                    (OS.file (arrives boot O
                                [stream ([] ++ ReadyOK :: [ExitReply])]) O)),
            os2, tt).
Proof.
  apply (Read_loses_frames_behind_a_stop ready_visitor Daemon.exit_visitor
           false tt (mkXPipe 0 (Some O) None)
           (arrives boot O [stream ([] ++ ReadyOK :: [ExitReply])])
           O [] ReadyOK [ExitReply]).
  - reflexivity.
  - reflexivity.
  - reflexivity.
  - reflexivity.
  - vm_compute. discriminate.
  - reflexivity.
  - reflexivity.
Defined.

(** X8: a [Close] that fails on the read end strands the write end.  The
    flag is set before the files are closed.  When closing the read end
    fails, [Close] returns the error at once with the flag set and the
    write end still open and still held; every later [Close] returns [nil]
    without touching a file, and [Write] refuses: the descriptor of the
    write end is never closed through this object. *)
Theorem Close_failure_strands_write_end (object : XPipe) (os : OS.state)
    (r w : OS.fd) :
  closed object = 0 ->
  ReadPipe object = Some r ->
  WritePipe object = Some w ->
  OS.f_open (OS.file os r) = false ->
  let stuck := mkXPipe 1 (Some r) (Some w) in
  Close object os = (Some os_ErrClosed, stuck, os) /\
  IsClosed stuck = true /\
  GetWritePipe stuck = Some w /\
  (forall n os',
     Close_repeatedly n stuck os' = (repeat None n, stuck, os')) /\
  (forall raw os', Write stuck os' raw = Done (Some ErrXPipeClosed, os')).
Proof.
  intros Hc Hr Hw Ho stuck. split; [|split; [|split; [|split]]].
  - unfold Close, CompareAndSwapInt32. rewrite Hc. cbn [Z.eqb negb].
    cbn [ReadPipe WritePipe]. rewrite Hr. unfold OS.Close. rewrite Ho, Hw.
    reflexivity.
  - reflexivity.
  - reflexivity.
  - intros n os'. apply Close_repeatedly_closed. reflexivity.
  - intros raw os'. reflexivity.
Qed.

(** The read end of a pipe was closed behind the back of the object. *)
Lemma Close_failure_strands_write_end_witness :
  let os := OS.set_file (snd (NewXPipe boot)) O
              (OS.mkFile false [] io_EOF [] []) in
  let stuck := mkXPipe 1 (Some O) (Some 1%nat) in
  Close (fst (NewXPipe boot)) os = (Some os_ErrClosed, stuck, os) /\
  IsClosed stuck = true /\
  GetWritePipe stuck = Some 1%nat /\
  (forall n os',
     Close_repeatedly n stuck os' = (repeat None n, stuck, os')) /\
  (forall raw os', Write stuck os' raw = Done (Some ErrXPipeClosed, os')).
Proof.
  apply (Close_failure_strands_write_end (fst (NewXPipe boot))
           (OS.set_file (snd (NewXPipe boot)) O
              (OS.mkFile false [] io_EOF [] []))
           O 1%nat); reflexivity.
Defined.

End PipeFacts.

(** ** The child command and the control channel between the two
       processes *)

Module ChannelFacts.
Import XPipe XPipeFacts ReadFacts PipeFacts.
Local Open Scope string_scope.

(** [Write] through a file that reports no error: the frame is taken whole
    and nothing else changes. *)
Lemma Write_clean (object : XPipe) (os : OS.state) (raw : list byte)
    (w : OS.fd) :
  WritePipe object = Some w ->
  OS.f_open (OS.file os w) = true ->
  IsClosed object = false ->
  no_failure (OS.f_write_plan (OS.file os w)) = true ->
  exists os',
    Write object os raw = Done (None, os') /\
    OS.f_open (OS.file os' w) = true /\
    OS.f_written (OS.file os' w) = OS.f_written (OS.file os w) ++ frame raw /\
    no_failure (OS.f_write_plan (OS.file os' w)) = true /\
    (forall g, g <> w -> OS.file os' g = OS.file os g).
Proof.
  intros Hw Ho Hc Hnf.
  destruct (Write_open object os raw w Hw Ho Hc)
    as (err & os1 & sent & used & plan' & E & A & P & N & F).
  assert (err = None) as ->.
  { destruct err as [e|]; [|reflexivity].
    destruct (F e eq_refl) as (_ & (n & Hi)).
    exfalso. apply (no_failure_In _ n e Hnf).
    rewrite P. apply in_or_app. left. exact Hi. }
  rewrite (N eq_refl) in A.
  destruct A as (A1 & A2 & A3 & A4 & A5 & A6).
  exists os1. split; [exact E|]. split; [exact A1|]. split; [exact A2|].
  split; [|exact A6].
  rewrite A3. rewrite P in Hnf. exact (no_failure_app _ _ Hnf).
Qed.

(** *** Closing a child command *)

(** Closing a file does not change what it has taken. *)
Lemma OS_Close_written (os : OS.state) (f : OS.fd) (err : option error)
    (os' : OS.state) :
  OS.Close os f = (err, os') ->
  forall g, OS.f_written (OS.file os' g) = OS.f_written (OS.file os g).
Proof.
  unfold OS.Close. destruct (OS.f_open (OS.file os f)).
  - intros E g. inversion E. subst.
    destruct (Nat.eq_dec g f) as [->|Hg].
    + rewrite file_set_file_same. reflexivity.
    + rewrite file_set_file_other by exact Hg. reflexivity.
  - intros E g. inversion E. reflexivity.
Qed.

Lemma Close_written (object : XPipe) (os : OS.state) (err : option error)
    (object' : XPipe) (os' : OS.state) :
  Close object os = (err, object', os') ->
  forall g, OS.f_written (OS.file os' g) = OS.f_written (OS.file os g).
Proof.
  unfold Close.
  destruct (CompareAndSwapInt32 (closed object) 0 1) as [flag swapped].
  destruct swapped; cbn [negb].
  2: { intros E g. inversion E. reflexivity. }
  cbn [ReadPipe WritePipe].
  destruct (ReadPipe object) as [r|]; cbv beta iota zeta; cbn [ReadPipe WritePipe SetReadPipe].
  - destruct (OS.Close os r) as [e1 os1] eqn:C1.
    pose proof (OS_Close_written _ _ _ _ C1) as K1.
    destruct e1 as [e1|]; cbv beta iota zeta; cbn [ReadPipe WritePipe SetReadPipe].
    + intros E g. inversion E. subst. apply K1.
    + cbn [SetReadPipe WritePipe].
      destruct (WritePipe object) as [w|]; cbv beta iota zeta; cbn [ReadPipe WritePipe SetReadPipe].
      * destruct (OS.Close os1 w) as [e2 os2] eqn:C2.
        pose proof (OS_Close_written _ _ _ _ C2) as K2.
        destruct e2 as [e2|]; cbv beta iota zeta; cbn [ReadPipe WritePipe SetReadPipe]; intros E g; inversion E;
          subst; rewrite K2; apply K1.
      * intros E g. inversion E. subst. apply K1.
  - destruct (WritePipe object) as [w|]; cbv beta iota zeta; cbn [ReadPipe WritePipe SetReadPipe].
    + destruct (OS.Close os w) as [e2 os2] eqn:C2.
      pose proof (OS_Close_written _ _ _ _ C2) as K2.
      destruct e2 as [e2|]; cbv beta iota zeta; cbn [ReadPipe WritePipe SetReadPipe]; intros E g; inversion E;
        subst; apply K2.
    + intros E g. inversion E. reflexivity.
Qed.

Lemma NewXCmd_others (os : OS.state) (g : OS.fd) :
  ~ (OS.next_fd os <= g < 4 + OS.next_fd os)%nat ->
  OS.file (snd (XCmd.NewXCmd os)) g = OS.file os g.
Proof.
  intros Hg. unfold XCmd.NewXCmd, NewXPipe, OS.Pipe.
  cbn [fst snd OS.file OS.next_fd].
  destruct (Nat.eqb_spec g (S (S (OS.next_fd os)))); [lia|].
  destruct (Nat.eqb_spec g (S (S (S (OS.next_fd os))))); [lia|].
  cbn [orb].
  destruct (Nat.eqb_spec g (OS.next_fd os)); [lia|].
  destruct (Nat.eqb_spec g (S (OS.next_fd os))); [lia|].
  reflexivity.
Qed.

(** X9: [Close] of a child command made by [NewXCmd] closes both ends of
    both pipes, the four descriptors [NewXCmd] opened, and no other file; it
    returns [nil].  From then on [ParentWrite] and [ParentRead] refuse with
    "XPipe closed" without touching a file or calling the visitor, and a
    second [Close] returns [nil] and changes nothing. *)
Theorem XCmd_Close_closes_both_pipes (os : OS.state) :
  let n := OS.next_fd os in
  let c := fst (XCmd.NewXCmd os) in
  let os1 := snd (XCmd.NewXCmd os) in
  exists c' os2,
    XCmd.Close c os1 = (None, c', os2) /\
    (forall g, (n <= g < 4 + n)%nat -> OS.f_open (OS.file os1 g) = true) /\
    (forall g, (n <= g < 4 + n)%nat -> OS.f_open (OS.file os2 g) = false) /\
    (forall g, ~ (n <= g < 4 + n)%nat -> OS.file os2 g = OS.file os g) /\
    XCmd.Close c' os2 = (None, c', os2) /\
    (forall raw,
       XCmd.ParentWrite c' os2 raw = Done (Some ErrXPipeClosed, os2)) /\
    (forall (S : Type) (callback : visitor S) (st : S),
       XCmd.ParentRead callback c' os2 st
       = Done (Some ErrXPipeClosed, os2, st)).
Proof.
  intros n c os1.
  destruct (NewXCmd_wiring os) as (Hrp & Hwp & Hx & _ & Hopen).
  fold n c os1 in Hrp, Hwp, Hx, Hopen.
  set (p := mkXPipe 0 (Some n) (Some (S n))) in *.
  set (q := mkXPipe 0 (Some (S (S n))) (Some (S (S (S n))))) in *.
  assert (Op : owns_open p os1).
  { unfold owns_open, p. cbn [closed ReadPipe WritePipe].
    split; [reflexivity|]. split; [|split].
    - intros r E. injection E as <-. apply Hopen. lia.
    - intros w E. injection E as <-. apply Hopen. lia.
    - intros r w E1 E2. injection E1 as <-. injection E2 as <-. lia. }
  destruct (Close_first p os1 Op) as (osa & Ea & Ra & Wa & Oa).
  assert (Oq : owns_open q osa).
  { unfold owns_open, q. cbn [closed ReadPipe WritePipe].
    split; [reflexivity|]. split; [|split].
    - intros r E. injection E as <-. rewrite Oa.
      + apply Hopen. lia.
      + unfold p. cbn [ReadPipe]. intros E. injection E as E. lia.
      + unfold p. cbn [WritePipe]. intros E. injection E as E. lia.
    - intros w E. injection E as <-. rewrite Oa.
      + apply Hopen. lia.
      + unfold p. cbn [ReadPipe]. intros E. injection E as E. lia.
      + unfold p. cbn [WritePipe]. intros E. injection E as E. lia.
    - intros r w E1 E2. injection E1 as <-. injection E2 as <-. lia. }
  destruct (Close_first q osa Oq) as (osb & Eb & Rb & Wb & Ob).
  exists (XCmd.mkXCmd (XCmd.nextFd c) (Some (mkXPipe 1 None None))
                      (Some (mkXPipe 1 None None)) (XCmd.ExtraFiles c)), osb.
  split; [|split; [exact Hopen|split; [|split; [|split; [|split]]]]].
  - unfold XCmd.Close. rewrite Hrp. cbv beta iota. rewrite Ea. cbv beta iota.
    rewrite Hwp. cbv beta iota. rewrite Eb. reflexivity.
  - intros g Hg.
    assert (Cases : g = n \/ g = S n \/ g = S (S n) \/ g = S (S (S n))) by lia.
    destruct Cases as [E0 | [E0 | [E0 | E0]]]; subst g.
    + rewrite Ob.
      * apply Ra. reflexivity.
      * unfold q. cbn [ReadPipe]. intros E. injection E as E. lia.
      * unfold q. cbn [WritePipe]. intros E. injection E as E. lia.
    + rewrite Ob.
      * apply Wa. reflexivity.
      * unfold q. cbn [ReadPipe]. intros E. injection E as E. lia.
      * unfold q. cbn [WritePipe]. intros E. injection E as E. lia.
    + apply Rb. reflexivity.
    + apply Wb. reflexivity.
  - intros g Hg. rewrite Ob, Oa.
    + apply NewXCmd_others. exact Hg.
    + unfold p. cbn [ReadPipe]. intros E. injection E as E. lia.
    + unfold p. cbn [WritePipe]. intros E. injection E as E. lia.
    + unfold q. cbn [ReadPipe]. intros E. injection E as E. lia.
    + unfold q. cbn [WritePipe]. intros E. injection E as E. lia.
  - reflexivity.
  - intros raw. reflexivity.
  - intros S callback st. reflexivity.
Qed.

(** *** The descriptors of the listeners *)

Lemma add_listeners_spec :
  forall (entries : list (String.string * option OS.fd)) (c : XCmd.XCmd)
         (fds : String.string -> option Z),
    NoDup (map fst entries) ->
    XCmd.nextFd c = 2 + len (XCmd.ExtraFiles c) ->
    len (XCmd.ExtraFiles c) + len entries + 2 <= int_max ->
    XCmd.ExtraFiles (fst (Listeners.add_listeners entries c fds))
      = XCmd.ExtraFiles c ++ map snd entries /\
    XCmd.readPipe (fst (Listeners.add_listeners entries c fds))
      = XCmd.readPipe c /\
    XCmd.writePipe (fst (Listeners.add_listeners entries c fds))
      = XCmd.writePipe c /\
    (forall k, ~ In k (map fst entries) ->
               snd (Listeners.add_listeners entries c fds) k = fds k) /\
    (forall i k f, nth_error entries i = Some (k, f) ->
       snd (Listeners.add_listeners entries c fds) k
       = Some (3 + len (XCmd.ExtraFiles c) + Z.of_nat i)).
Proof.
  induction entries as [|[k f] rest IH]; intros c fds Hnd Hn Hb.
  - cbn [Listeners.add_listeners fst snd map]. rewrite app_nil_r.
    repeat split; auto. intros i k f H. destruct i; discriminate.
  - cbn [Listeners.add_listeners].
    set (c1 := XCmd.AddFile f c).
    pose proof (len_nonneg (XCmd.ExtraFiles c)) as HE0.
    pose proof (len_nonneg rest) as Hr0.
    assert (Hlen : len ((k, f) :: rest) = 1 + len rest).
    { unfold len. cbn [length]. lia. }
    assert (HE1 : XCmd.ExtraFiles c1 = XCmd.ExtraFiles c ++ [f]) by reflexivity.
    assert (HL1 : len (XCmd.ExtraFiles c1) = len (XCmd.ExtraFiles c) + 1).
    { rewrite HE1, len_app. reflexivity. }
    assert (Hn1 : XCmd.nextFd c1 = 2 + len (XCmd.ExtraFiles c1)).
    { rewrite HL1. unfold c1, XCmd.AddFile. cbn [XCmd.nextFd]. rewrite Hn.
      rewrite wrap_int_small by (unfold int_min, int_max in *; lia). lia. }
    cbn [map] in Hnd. inversion Hnd as [|? ? Hk Hnd']; subst.
    destruct (IH c1 (Listeners.store fds k (XCmd.NextFd c1)) Hnd' Hn1)
      as (E & R & W & O & I).
    { rewrite HL1. lia. }
    split; [|split; [|split; [|split]]].
    + rewrite E, HE1, <- app_assoc. reflexivity.
    + rewrite R. reflexivity.
    + rewrite W. reflexivity.
    + intros k' Hk'. rewrite O.
      * unfold Listeners.store.
        destruct (String.eqb_spec k' k) as [->|Hne]; [|reflexivity].
        exfalso. apply Hk'. left. reflexivity.
      * intros Hin. apply Hk'. right. exact Hin.
    + intros i k' f' Hi. destruct i as [|j].
      * cbn [nth_error] in Hi. injection Hi as <- <-.
        rewrite (O k Hk). unfold Listeners.store. rewrite String.eqb_refl.
        unfold XCmd.NextFd. rewrite Hn1, HL1. f_equal. lia.
      * cbn [nth_error] in Hi. rewrite (I j k' f' Hi), HL1. f_equal. lia.
Qed.

(** X10: every listener is told the descriptor it is handed down on.
    [spawnChildProcess] appends each listener's file to [ExtraFiles] and
    records under the listener's name the number [AddFile(f).NextFd()].
    In whatever order the [range] visits the map, the number recorded for a
    name is 5 or more and is the descriptor under which the new process
    inherits that listener's file; names without a listener get no number,
    two names never get the same one, and descriptors 3 and 4 stay the
    child's ends of the control pipes: the read end of the pipe the parent
    writes to and the write end of the pipe it reads from. *)
Theorem listeners_are_told_their_descriptors
    (tcpLnFiles : list (String.string * option OS.fd)) (os : OS.state) :
  NoDup (map fst tcpLnFiles) ->
  len tcpLnFiles <= int_max - 4 ->
  let xCmdObj := fst (fst (Listeners.spawn_descriptors tcpLnFiles os)) in
  let tcpLnFds := snd (fst (Listeners.spawn_descriptors tcpLnFiles os)) in
  (forall k f, In (k, f) tcpLnFiles ->
     exists n, tcpLnFds k = Some n /\ 5 <= n /\
               Listeners.inherited xCmdObj n = Some f) /\
  (forall k, ~ In k (map fst tcpLnFiles) -> tcpLnFds k = None) /\
  (forall k1 k2 n, tcpLnFds k1 = Some n -> tcpLnFds k2 = Some n -> k1 = k2) /\
  (exists rp wp,
     XCmd.readPipe xCmdObj = Some rp /\ XCmd.writePipe xCmdObj = Some wp /\
     Listeners.inherited xCmdObj 3 = Some (GetReadPipe wp) /\
     Listeners.inherited xCmdObj 4 = Some (GetWritePipe rp)).
Proof.
  intros Hnd Hb xCmdObj tcpLnFds.
  pose proof (len_nonneg tcpLnFiles) as Hl0.
  set (c0 := fst (XCmd.NewXCmd os)).
  assert (Eo : xCmdObj = fst (Listeners.add_listeners tcpLnFiles c0 Listeners.empty))
    by reflexivity.
  assert (Ef : tcpLnFds = snd (Listeners.add_listeners tcpLnFiles c0 Listeners.empty))
    by reflexivity.
  destruct (NewXCmd_wiring os) as (Hrp & Hwp & Hx & _ & _).
  fold c0 in Hrp, Hwp, Hx.
  assert (HL0 : len (XCmd.ExtraFiles c0) = 2) by (rewrite Hx; reflexivity).
  destruct (add_listeners_spec tcpLnFiles c0 Listeners.empty Hnd)
    as (E & R & W & O & I).
  { rewrite HL0. reflexivity. }
  { rewrite HL0. lia. }
  rewrite <- Eo in E, R, W. rewrite <- Ef in O, I. rewrite HL0 in I.
  assert (Told : forall k n, tcpLnFds k = Some n ->
            exists i f, nth_error tcpLnFiles i = Some (k, f) /\
                        n = 3 + 2 + Z.of_nat i).
  { intros k n Hk.
    destruct (in_dec String.string_dec k (map fst tcpLnFiles)) as [Hin|Hout].
    - apply in_map_iff in Hin as ([k' f] & Hfst & Hin). cbn [fst] in Hfst.
      subst k'. apply In_nth_error in Hin as (i & Hi).
      exists i, f. split; [exact Hi|].
      rewrite (I i k f Hi) in Hk. injection Hk as <-. reflexivity.
    - rewrite (O k Hout) in Hk. discriminate. }
  split; [|split; [|split]].
  - intros k f Hin. apply In_nth_error in Hin as (i & Hi).
    exists (3 + 2 + Z.of_nat i). split; [exact (I i k f Hi)|].
    split; [lia|].
    unfold Listeners.inherited.
    destruct (Z.ltb_spec (3 + 2 + Z.of_nat i) 3) as [|_]; [lia|].
    replace (Z.to_nat (3 + 2 + Z.of_nat i - 3)) with (2 + i)%nat by lia.
    rewrite E, Hx. cbn [app nth_error Nat.add].
    apply (map_nth_error snd i tcpLnFiles Hi).
  - intros k Hk. rewrite (O k Hk). reflexivity.
  - intros k1 k2 n H1 H2.
    destruct (Told k1 n H1) as (i1 & f1 & N1 & M1).
    destruct (Told k2 n H2) as (i2 & f2 & N2 & M2).
    assert (i1 = i2) by lia. subst i2. rewrite N1 in N2.
    injection N2 as -> _. reflexivity.
  - exists (mkXPipe 0 (Some (OS.next_fd os)) (Some (S (OS.next_fd os)))),
           (mkXPipe 0 (Some (S (S (OS.next_fd os))))
                      (Some (S (S (S (OS.next_fd os)))))).
    rewrite R, W. split; [exact Hrp|]. split; [exact Hwp|].
    unfold Listeners.inherited. rewrite E, Hx. split; reflexivity.
Qed.

(** Two listeners on a fresh system. *)
Lemma listeners_are_told_their_descriptors_witness :
  let tcpLnFiles := [("web", Some 7%nat); ("admin", Some 9%nat)] in
  let xCmdObj := fst (fst (Listeners.spawn_descriptors tcpLnFiles boot)) in
  let tcpLnFds := snd (fst (Listeners.spawn_descriptors tcpLnFiles boot)) in
  (forall k f, In (k, f) tcpLnFiles ->
     exists n, tcpLnFds k = Some n /\ 5 <= n /\
               Listeners.inherited xCmdObj n = Some f) /\
  (forall k, ~ In k (map fst tcpLnFiles) -> tcpLnFds k = None) /\
  (forall k1 k2 n, tcpLnFds k1 = Some n -> tcpLnFds k2 = Some n -> k1 = k2) /\
  (exists rp wp,
     XCmd.readPipe xCmdObj = Some rp /\ XCmd.writePipe xCmdObj = Some wp /\
     Listeners.inherited xCmdObj 3 = Some (GetReadPipe wp) /\
     Listeners.inherited xCmdObj 4 = Some (GetWritePipe rp)).
Proof.
  apply (listeners_are_told_their_descriptors
           [("web", Some 7%nat); ("admin", Some 9%nat)] boot).
  - cbn [map fst]. constructor.
    + intros [E|[]]. discriminate.
    + constructor; [intros []|constructor].
  - vm_compute. discriminate.
Defined.

(** *** The two handshakes *)

(** The pipes of the child, as [XCmdFromFd(3, 4)] makes them. *)
Lemma XCmdFromFd_pipes :
  XCmd.readPipe (XCmd.XCmdFromFd 3%nat 4%nat) = Some (mkXPipe 0 (Some 3%nat) None) /\
  XCmd.writePipe (XCmd.XCmdFromFd 3%nat 4%nat) = Some (mkXPipe 0 None (Some 4%nat)).
Proof. split; reflexivity. Qed.

(** The closure of the child's goroutine, started with [ok] true, ends with
    [ok] false exactly when it was given a command to leave. *)
Lemma exit_listener_visits (payloads : list (list byte)) :
  visit_frames Child.exit_listener true payloads
  = (negb (existsb leave_command payloads),
     negb (existsb leave_command payloads)).
Proof.
  induction payloads as [|b bs IH]; [reflexivity|].
  cbn [visit_frames existsb]. unfold Child.exit_listener at 1, leave_command at 1 3.
  destruct (0 >=? len b); [reflexivity|].
  destruct (bytes_eqb b ExitRequest); [reflexivity|].
  cbn [orb]. exact IH.
Qed.

(** X11: the verdict of the child reaches the parent.  The goroutine of
    [runAsChild], on descriptors 3 and 4 and with a write end that takes
    what it is given, returns and has written one frame, [ReadyOK] for a
    true verdict and [ReadyError] for a false one.  From these bytes, in
    whatever pieces they arrive and whatever frames follow them, the
    readiness read of the parent ([ParentRead] with the closure of
    [replaceChildProcess]) returns [nil] with [ok] equal to the verdict. *)
Theorem verdict_reaches_parent (ready : bool) (osc : OS.state) :
  OS.f_open (OS.file osc 4%nat) = true ->
  OS.f_written (OS.file osc 4%nat) = [] ->
  no_failure (OS.f_write_plan (OS.file osc 4%nat)) = true ->
  exists exit_closed osc',
    Child.runAsChild_goroutine ready (XCmd.XCmdFromFd 3%nat 4%nat) osc
      = Done (exit_closed, osc') /\
    OS.f_written (OS.file osc' 4%nat) = frame (verdict_message ready) /\
    forall (c : XCmd.XCmd) (p : XPipe) (r : OS.fd) (osp : OS.state)
           (chunks : list (list byte)) (later : list (list byte)),
      XCmd.readPipe c = Some p -> IsClosed p = false -> ReadPipe p = Some r ->
      all_fit later ->
      concat chunks = OS.f_written (OS.file osc' 4%nat) ++ stream later ->
      seen_by_caller
        (XCmd.ParentRead ready_visitor c (arrives osp r chunks) false)
      = Done (None, ready).
Proof.
  intros Ho Hw Hnf.
  destruct XCmdFromFd_pipes as (Krp & Kwp).
  destruct (Write_clean (mkXPipe 0 None (Some 4%nat)) osc
              (verdict_message ready) 4%nat eq_refl Ho eq_refl Hnf)
    as (os1 & EW & O1 & W1 & _ & F1).
  rewrite Hw in W1. cbn [app] in W1.
  assert (Parent : forall osx, OS.f_written (OS.file osx 4%nat)
                               = frame (verdict_message ready) ->
    forall (c : XCmd.XCmd) (p : XPipe) (r : OS.fd) (osp : OS.state)
           (chunks : list (list byte)) (later : list (list byte)),
      XCmd.readPipe c = Some p -> IsClosed p = false -> ReadPipe p = Some r ->
      all_fit later ->
      concat chunks = OS.f_written (OS.file osx 4%nat) ++ stream later ->
      seen_by_caller
        (XCmd.ParentRead ready_visitor c (arrives osp r chunks) false)
      = Done (None, ready)).
  { intros osx Hx c p r osp chunks later Hp Hc Hr Hfit Hs.
    rewrite Hx in Hs. unfold XCmd.ParentRead. rewrite Hp.
    destruct (Read_visits_frames ready_visitor false p (arrives osp r chunks) r
                (verdict_message ready :: later) Hc Hr) as (os' & E).
    - unfold arrives. rewrite file_set_file_same. reflexivity.
    - unfold arrives. rewrite file_set_file_same. cbn [OS.f_incoming].
      rewrite Hs. reflexivity.
    - constructor; [|exact Hfit]. destruct ready; vm_compute; discriminate.
    - rewrite E. cbn [visit_frames seen_by_caller].
      destruct ready; reflexivity. }
  destruct ready.
  - (* the verdict is true: the goroutine goes on to read *)
    destruct (Read_returns Child.exit_listener true
                (mkXPipe 0 (Some 3%nat) None) os1) as (err & os2 & ok & ER).
    assert (F2 : OS.file os2 4%nat = OS.file os1 4%nat).
    { apply (Read_others _ _ _ _ _ _ _ ER). cbn [ReadPipe]. discriminate. }
    exists (negb ok), os2. split; [|split].
    + unfold Child.runAsChild_goroutine, XCmd.ChildWrite, XCmd.ChildRead.
      rewrite Kwp, Krp. cbn [negb]. change ReadyOK with (verdict_message true).
      rewrite EW, ER. reflexivity.
    + rewrite F2. exact W1.
    + apply Parent. rewrite F2. exact W1.
  - exists false, os1. split; [|split].
    + unfold Child.runAsChild_goroutine, XCmd.ChildWrite.
      rewrite Kwp. cbn [negb]. change ReadyError with (verdict_message false).
      rewrite EW. reflexivity.
    + exact W1.
    + apply Parent. exact W1.
Qed.

(** A child that is ready, on a system where descriptor 4 takes one byte
    at a time for a while. *)
Lemma verdict_reaches_parent_witness :
  let osc := OS.set_file boot 4%nat
               (OS.mkFile true [] io_EOF []
                          [OS.Accepts 1; OS.Accepts 1; OS.Accepts 0]) in
  exists exit_closed osc',
    Child.runAsChild_goroutine true (XCmd.XCmdFromFd 3%nat 4%nat) osc
      = Done (exit_closed, osc') /\
    OS.f_written (OS.file osc' 4%nat) = frame (verdict_message true) /\
    forall (c : XCmd.XCmd) (p : XPipe) (r : OS.fd) (osp : OS.state)
           (chunks : list (list byte)) (later : list (list byte)),
      XCmd.readPipe c = Some p -> IsClosed p = false -> ReadPipe p = Some r ->
      all_fit later ->
      concat chunks = OS.f_written (OS.file osc' 4%nat) ++ stream later ->
      seen_by_caller
        (XCmd.ParentRead ready_visitor c (arrives osp r chunks) false)
      = Done (None, true).
Proof.
  apply (verdict_reaches_parent true
           (OS.set_file boot 4%nat
              (OS.mkFile true [] io_EOF []
                         [OS.Accepts 1; OS.Accepts 1; OS.Accepts 0])));
    reflexivity.
Defined.

(** X12: the exit channel of the child is closed on a command only.
    After a true verdict the goroutine of [runAsChild] reads its
    descriptor 3 until the closure stops or the pipe ends, and then closes
    [exitCh] exactly when a frame with no payload or the frame [Exit] was
    among those it was given.  The end of the stream alone (the parent
    closed its end, or died) does not close [exitCh]: [Read] hands the
    closure no frame for it. *)
Theorem exit_channel_closes_on_command_only (osc : OS.state)
    (payloads : list (list byte)) :
  OS.f_open (OS.file osc 3%nat) = true ->
  concat (OS.f_incoming (OS.file osc 3%nat)) = stream payloads ->
  all_fit payloads ->
  exists osc',
    Child.runAsChild_goroutine true (XCmd.XCmdFromFd 3%nat 4%nat) osc
      = Done (existsb leave_command payloads, osc') /\
    (payloads = [] ->
     Child.runAsChild_goroutine true (XCmd.XCmdFromFd 3%nat 4%nat) osc
       = Done (false, osc')).
Proof.
  intros Ho Hs Hfit.
  destruct XCmdFromFd_pipes as (Krp & Kwp).
  destruct (Write_returns (mkXPipe 0 None (Some 4%nat)) osc ReadyOK)
    as (e & os1 & EW).
  assert (F1 : OS.file os1 3%nat = OS.file osc 3%nat).
  { apply (Write_others _ _ _ _ _ EW). cbn [WritePipe]. discriminate. }
  destruct (Read_visits_frames Child.exit_listener true
              (mkXPipe 0 (Some 3%nat) None) os1 3%nat payloads eq_refl eq_refl)
    as (os2 & ER); try (rewrite F1; assumption); try assumption.
  assert (Run : Child.runAsChild_goroutine true (XCmd.XCmdFromFd 3%nat 4%nat) osc
                = Done (existsb leave_command payloads, os2)).
  { unfold Child.runAsChild_goroutine, XCmd.ChildWrite, XCmd.ChildRead.
    rewrite Kwp, Krp. cbn [negb]. rewrite EW, ER.
    rewrite exit_listener_visits. cbn [fst snd].
    rewrite Bool.negb_involutive. reflexivity. }
  exists os2. split; [exact Run|].
  intros ->. exact Run.
Qed.

(** The parent sends a frame the child does not know and then closes its
    end. *)
Lemma exit_channel_closes_on_command_only_witness :
  exists osc',
    Child.runAsChild_goroutine true (XCmd.XCmdFromFd 3%nat 4%nat)
      (arrives boot 3%nat [frame [x2a]])
      = Done (existsb leave_command [[x2a]], osc') /\
    ([[x2a]] = [] ->
     Child.runAsChild_goroutine true (XCmd.XCmdFromFd 3%nat 4%nat)
       (arrives boot 3%nat [frame [x2a]])
       = Done (false, osc')).
Proof.
  apply (exit_channel_closes_on_command_only
           (arrives boot 3%nat [frame [x2a]]) [[x2a]]).
  - reflexivity.
  - reflexivity.
  - repeat constructor; vm_compute; discriminate.
Defined.

(** X13: the exit handshake completes.  What [ParentWrite] sends for the
    request [Exit], through a write end that takes what it is given, makes
    the child's goroutine close [exitCh], in whatever pieces it arrives.
    The end of [runAsChild] then writes the reply and closes the child's
    two descriptors; and from the bytes of that reply the exit read of the
    parent ([ParentRead] with the closure of [waitChildSafeExit]) returns
    [nil]. *)
Theorem exit_handshake_completes (c : XCmd.XCmd) (p q : XPipe)
    (r w : OS.fd) (osp osc : OS.state) :
  XCmd.writePipe c = Some q -> IsClosed q = false -> WritePipe q = Some w ->
  OS.f_open (OS.file osp w) = true ->
  OS.f_written (OS.file osp w) = [] ->
  no_failure (OS.f_write_plan (OS.file osp w)) = true ->
  XCmd.readPipe c = Some p -> IsClosed p = false -> ReadPipe p = Some r ->
  OS.f_open (OS.file osc 4%nat) = true ->
  no_failure (OS.f_write_plan (OS.file osc 4%nat)) = true ->
  exists osp1,
    XCmd.ParentWrite c osp ExitRequest = Done (None, osp1) /\
    forall request,
      concat request = OS.f_written (OS.file osp1 w) ->
      exists osc1,
        Child.runAsChild_goroutine true (XCmd.XCmdFromFd 3%nat 4%nat)
          (OS.set_file osc 3%nat (OS.mkFile true request io_EOF [] []))
          = Done (true, osc1) /\
        exists k' osc2,
          Child.runAsChild_leave (XCmd.XCmdFromFd 3%nat 4%nat) osc1
            = Done (None, k', osc2) /\
          OS.f_open (OS.file osc2 3%nat) = false /\
          OS.f_open (OS.file osc2 4%nat) = false /\
          OS.f_written (OS.file osc2 4%nat)
            = OS.f_written (OS.file osc1 4%nat) ++ frame ExitReply /\
          forall reply ospx,
            concat reply = frame ExitReply ->
            seen_by_caller
              (XCmd.ParentRead Daemon.exit_visitor c (arrives ospx r reply) tt)
            = Done (None, tt).
Proof.
  intros Hq Hqc Hqw Ho Hwr Hnf Hp Hpc Hpr Ho4 Hnf4.
  destruct XCmdFromFd_pipes as (Krp & Kwp).
  destruct (Write_clean q osp ExitRequest w Hqw Ho Hqc Hnf)
    as (osp1 & EW & _ & W1 & _ & _).
  rewrite Hwr in W1. cbn [app] in W1.
  exists osp1. split.
  { unfold XCmd.ParentWrite. rewrite Hq. exact EW. }
  intros request Hreq. rewrite W1 in Hreq.
  set (osc0 := OS.set_file osc 3%nat (OS.mkFile true request io_EOF [] [])).
  assert (F4 : OS.file osc0 4%nat = OS.file osc 4%nat).
  { unfold osc0. apply file_set_file_other. discriminate. }
  (* the goroutine: ReadyOK, then the read *)
  destruct (Write_clean (mkXPipe 0 None (Some 4%nat)) osc0 ReadyOK 4%nat
              eq_refl) as (os1 & EW1 & O1 & Wr1 & N1 & G1);
    try (rewrite F4; assumption); try reflexivity.
  destruct (Read_visits_frames Child.exit_listener true
              (mkXPipe 0 (Some 3%nat) None) os1 3%nat [ExitRequest]
              eq_refl eq_refl) as (os2 & ER).
  { rewrite G1 by discriminate. unfold osc0. rewrite file_set_file_same.
    reflexivity. }
  { rewrite G1 by discriminate. unfold osc0. rewrite file_set_file_same.
    cbn [OS.f_incoming]. rewrite Hreq. unfold stream. cbn [map concat].
    rewrite app_nil_r. reflexivity. }
  { repeat constructor. vm_compute. discriminate. }
  assert (G2 : forall g, g <> 3%nat -> OS.file os2 g = OS.file os1 g).
  { intros g Hg. apply (Read_others _ _ _ _ _ _ _ ER). cbn [ReadPipe].
    congruence. }
  assert (O3 : OS.f_open (OS.file os2 3%nat) = true).
  { eapply (Read_keeps_open Child.exit_listener
              (mkXPipe 0 (Some 3%nat) None) os1 true);
      [reflexivity| |exact ER].
    rewrite G1 by discriminate. unfold osc0. rewrite file_set_file_same.
    reflexivity. }
  exists os2. split.
  { unfold Child.runAsChild_goroutine, XCmd.ChildWrite, XCmd.ChildRead.
    rewrite Kwp, Krp. cbn [negb]. rewrite EW1, ER. reflexivity. }
  (* the end of runAsChild: the reply, then the close *)
  destruct (Write_clean (mkXPipe 0 None (Some 4%nat)) os2 ExitReply 4%nat
              eq_refl) as (os3 & EW3 & O43 & Wr3 & _ & G3);
    try (rewrite G2 by discriminate; assumption); try reflexivity.
  assert (Or : owns_open (mkXPipe 0 (Some 3%nat) None) os3).
  { unfold owns_open. cbn [closed ReadPipe WritePipe].
    split; [reflexivity|]. split; [|split].
    - intros r0 E. injection E as <-. rewrite G3 by discriminate. exact O3.
    - intros w0 E. discriminate E.
    - intros r0 w0 _ E. discriminate E. }
  destruct (Close_first _ _ Or) as (os4 & EC4 & R4 & _ & G4).
  assert (Ow : owns_open (mkXPipe 0 None (Some 4%nat)) os4).
  { unfold owns_open. cbn [closed ReadPipe WritePipe].
    split; [reflexivity|]. split; [|split].
    - intros r0 E. discriminate E.
    - intros w0 E. injection E as <-.
      rewrite G4 by (cbn [ReadPipe WritePipe]; discriminate). exact O43.
    - intros r0 w0 E _. discriminate E. }
  destruct (Close_first _ _ Ow) as (os5 & EC5 & _ & W5 & G5).
  exists (XCmd.mkXCmd 5 (Some (mkXPipe 1 None None))
                      (Some (mkXPipe 1 None None)) []), os5.
  split; [|split; [|split; [|split]]].
  - unfold Child.runAsChild_leave, XCmd.ChildWrite. rewrite Kwp, EW3.
    unfold XCmd.Close. rewrite Krp, Kwp. cbv beta iota.
    rewrite EC4. cbv beta iota. rewrite EC5. reflexivity.
  - rewrite G5 by (cbn [ReadPipe WritePipe]; discriminate).
    apply R4. reflexivity.
  - apply W5. reflexivity.
  - rewrite (Close_written _ _ _ _ _ EC5), (Close_written _ _ _ _ _ EC4).
    exact Wr3.
  - intros reply ospx Hreply. unfold XCmd.ParentRead. rewrite Hp.
    destruct (Read_visits_frames Daemon.exit_visitor tt p
                (arrives ospx r reply) r [ExitReply] Hpc Hpr) as (os' & E).
    + unfold arrives. rewrite file_set_file_same. reflexivity.
    + unfold arrives. rewrite file_set_file_same. cbn [OS.f_incoming].
      rewrite Hreply. unfold stream. cbn [map concat].
      rewrite app_nil_r. reflexivity.
    + repeat constructor. vm_compute. discriminate.
    + rewrite E. reflexivity.
Qed.

(** The parent's command fresh from [NewXCmd], the child on a system of its
    own. *)
Lemma exit_handshake_completes_witness :
  let c := fst (XCmd.NewXCmd boot) in
  let osp := snd (XCmd.NewXCmd boot) in
  exists osp1,
    XCmd.ParentWrite c osp ExitRequest = Done (None, osp1) /\
    forall request,
      concat request = OS.f_written (OS.file osp1 3%nat) ->
      exists osc1,
        Child.runAsChild_goroutine true (XCmd.XCmdFromFd 3%nat 4%nat)
          (OS.set_file boot 3%nat (OS.mkFile true request io_EOF [] []))
          = Done (true, osc1) /\
        exists k' osc2,
          Child.runAsChild_leave (XCmd.XCmdFromFd 3%nat 4%nat) osc1
            = Done (None, k', osc2) /\
          OS.f_open (OS.file osc2 3%nat) = false /\
          OS.f_open (OS.file osc2 4%nat) = false /\
          OS.f_written (OS.file osc2 4%nat)
            = OS.f_written (OS.file osc1 4%nat) ++ frame ExitReply /\
          forall reply ospx,
            concat reply = frame ExitReply ->
            seen_by_caller
              (XCmd.ParentRead Daemon.exit_visitor c (arrives ospx O reply) tt)
            = Done (None, tt).
Proof.
  apply (exit_handshake_completes (fst (XCmd.NewXCmd boot))
           (mkXPipe 0 (Some O) (Some 1%nat))
           (mkXPipe 0 (Some 2%nat) (Some 3%nat))
           O 3%nat (snd (XCmd.NewXCmd boot)) boot); reflexivity.
Defined.

End ChannelFacts.

(** ** The supervisor: what each handler does to the children *)

Module SupervisorFacts.
Import Daemon DaemonFacts.

Ltac run_handlers :=
  unfold step, parentSignalLoop, childExited, Bootstrap, replaceChildProcess,
    spawnChildProcess, waitChildSafeExit, wg_Wait, waitDone, Bootstrap_return,
    XPipe.CompareAndSwapInt32, exit_actions, exit_error in *;
  open_state; fields.

Ltac same_trace := repeat rewrite <- app_assoc; cbn [app]; reflexivity.

(** The readiness closure sets [ok] only when it stops, so [ParentRead]
    then returns [nil]. *)
Lemma ready_ok_no_error (up : upstream) :
  fst (ParentRead up ready_visitor false) = true ->
  ParentRead up ready_visitor false = (true, None).
Proof.
  unfold ParentRead. destruct up as [fs e]. cbn [frames ending].
  induction fs as [|f fs IH]; cbn [visit_frames].
  - simpl. discriminate.
  - unfold ready_visitor at 1 3.
    destruct (bytes_eqb f ReadyOK); [reflexivity|].
    destruct (bytes_eqb f ReadyError); [simpl; discriminate|].
    exact IH.
Qed.

(** [ReadyError] before any [ReadyOK] stops the readiness closure with
    [ok] false, and [ParentRead] returns [nil]. *)
Lemma ready_error_stops (up : upstream) (before after : list (list byte)) :
  frames up = before ++ ReadyError :: after ->
  ~ In ReadyOK before -> ~ In ReadyError before ->
  ParentRead up ready_visitor false = (false, None).
Proof.
  unfold ParentRead. destruct up as [fs e]. cbn [frames ending].
  intros ->. induction before as [|f before IH]; intros N1 N2;
    cbn [app visit_frames].
  - reflexivity.
  - unfold ready_visitor at 1.
    destruct (bytes_eqb f ReadyOK) eqn:E1.
    { apply bytes_eqb_eq in E1. exfalso. apply N1. left. exact E1. }
    destruct (bytes_eqb f ReadyError) eqn:E2.
    { apply bytes_eqb_eq in E2. exfalso. apply N2. left. exact E2. }
    apply IH; intros I; [apply N1|apply N2]; right; exact I.
Qed.

(** *** One handler *)

(** X14: a successful upgrade.  With a child installed and watched and no
    upgrade under way, [SIGUSR2] starts a new child and reads its
    readiness; only when it has reported [ReadyOK] is the old child asked to
    leave, killed (whether or not it answered), waited for and closed, and
    the new child installed and watched.  The budget is not touched and the
    upgrade flag is back at 0.  The parent stays in its loop only if the
    exit handshake with the old child went without error: if the old child
    did not take the request or closed its pipe without a reply,
    [Bootstrap] returns that error although the new child is installed
    and running. *)
Theorem upgrade_replaces_child (a : answers) (d : Daemon) (old : cmd) :
  xCmdObj d = Some old -> waited d = Some old -> upgradeFlag d = 0 ->
  starts_ready a ->
  let new := next_cmd d in
  let d' :=
    mkDaemon (rebootTimes d) 0 (killedFlag d) (Some new) (Some new)
             (deferred d) (S new)
             (trace d ++ [Start new; ParentReadReady new]
                ++ exit_actions a old
                ++ [Kill old; CloseCmd old; GoWait new]) in
  parentSignalLoop SIGUSR2 a d =
    (if is_some (exit_error a)
     then Bootstrap_return (exit_error a) d'
     else (d', Running)).
Proof.
  intros Hx Hw Hu (Hs & Hok) new d'. subst new d'.
  destruct d as [rt uf kf x w df nc tr]. fields. subst x w uf.
  apply ready_ok_no_error in Hok.
  run_handlers. rewrite Hs, Hok. cbn [negb Z.eqb Pos.eqb].
  destruct (exit_write_err a) as [e|]; fields.
  - cbn [Z.eqb Pos.eqb]. fields. destruct df; same_trace.
  - destruct (ParentRead (exit_reply a) exit_visitor tt) as [u err].
    fields. cbn [Z.eqb Pos.eqb]. fields.
    destruct err as [e|]; fields; destruct df; same_trace.
Qed.

(** The parent that is up is told to upgrade, and the old child answers the
    request to leave. *)
Lemma upgrade_replaces_child_witness :
  parentSignalLoop SIGUSR2 child_ready parent_up =
    (mkDaemon 3 0 0 (Some 1%nat) (Some 1%nat) (Some O) 2%nat
       [Start 0; ParentReadReady 0; GoWait 0;
        Start 1; ParentReadReady 1; ParentWriteExit 0; ParentReadExit 0;
        Kill 0; CloseCmd 0; GoWait 1]%nat,
     Running).
Proof.
  apply (upgrade_replaces_child child_ready parent_up O).
  - reflexivity.
  - reflexivity.
  - reflexivity.
  - split; reflexivity.
Defined.



(** The goroutine of a child that exits without plan while the budget
    lasts: the budget goes down by one, the child is released and closed, a
    new one is started, and it is installed and watched if it reports
    [ReadyOK] and closed if not. *)
Lemma childExited_restart (a : answers) (d : Daemon) (c : cmd) :
  supervising d c ->
  1 <= rebootTimes d <= int_max ->
  let new := next_cmd d in
  let ok := fst (ParentRead (ready a) ready_visitor false) in
  let installed :=
    match start_err a with
    | Some _ => None
    | None => if ok then Some new else None
    end in
  childExited a d =
    (mkDaemon (rebootTimes d - 1) 0 0 installed installed (deferred d) (S new)
       (trace d ++ [Release c; CloseCmd c; Start new]
          ++ match start_err a with
             | Some _ => []
             | None => [ParentReadReady new;
                        if ok then GoWait new else CloseCmd new]
             end),
     Running).
Proof.
  intros (Hx & Hw & Hu & Hk) Hrt new ok installed. subst new ok installed.
  destruct d as [rt uf kf x w df nc tr]. fields. subst x w uf kf.
  run_handlers. cbn [Z.eqb Pos.eqb]. fields.
  rewrite (wrap_int_small (rt - 1)) by (unfold int_min, int_max in *; lia).
  destruct (Z.gtb_spec 0 (rt - 1)) as [L|_]; [lia|]. fields.
  destruct (start_err a) as [e|]; fields.
  - same_trace.
  - destruct (ParentRead (ready a) ready_visitor false) as [ok err]. fields.
    destruct ok; fields; same_trace.
Qed.



(** X17: a stop signal after a restart that failed is a nil dereference.
    When the watched child exits without plan and the child started in its
    place cannot be started or does not report [ReadyOK], the parent is
    left with [xCmdObj] nil.  [SIGINT] or [SIGTERM] then passes
    [waitChildSafeExit], which checks for nil, and panics on
    [object.xCmdObj.Process.Kill()], which does not. *)
Theorem stop_after_failed_restart_panics (s : signal) (a a' : answers)
    (d : Daemon) (c : cmd) :
  supervising d c ->
  1 <= rebootTimes d <= int_max ->
  ~ starts_ready a ->
  stops_parent s = true ->
  snd (step (ChildExit a) d) = Running /\
  xCmdObj (fst (step (ChildExit a) d)) = None /\
  snd (step (Signal s a') (fst (step (ChildExit a) d))) = Panicked /\
  snd (run_parent d [ChildExit a; Signal s a']) = Panicked.
Proof.
  intros Hsup Hrt Hn Hs.
  pose proof (childExited_restart a d c Hsup Hrt) as E. cbv zeta in E.
  assert (Hinst : match start_err a with
                  | Some _ => None
                  | None => if fst (ParentRead (ready a) ready_visitor false)
                            then Some (next_cmd d) else None
                  end = None).
  { destruct (start_err a) as [e|] eqn:Hse; [reflexivity|].
    destruct (fst (ParentRead (ready a) ready_visitor false)) eqn:Hok;
      [|reflexivity].
    exfalso. apply Hn. split; assumption. }
  rewrite Hinst in E.
  cbn [run_parent step]. rewrite E. cbn [fst snd].
  assert (P : forall d0, xCmdObj d0 = None ->
                         snd (parentSignalLoop s a' d0) = Panicked).
  { intros d0 H0. destruct d0 as [rt uf kf x w df nc tr]. fields. subst x.
    destruct s; try discriminate; reflexivity. }
  split; [reflexivity|]. split; [reflexivity|].
  split; [apply P; reflexivity|].
  match goal with
  | |- context [parentSignalLoop s a' ?d1] =>
      pose proof (P d1 eq_refl) as Q;
      destruct (parentSignalLoop s a' d1) as [d2 st]
  end.
  cbn [snd] in Q. subst st. reflexivity.
Qed.

(** The child of the parent that is up crashes, the next one reports
    [ReadyError], and [SIGTERM] arrives. *)
Lemma stop_after_failed_restart_panics_witness :
  snd (step (ChildExit child_not_ready) parent_up) = Running /\
  xCmdObj (fst (step (ChildExit child_not_ready) parent_up)) = None /\
  snd (step (Signal SIGTERM child_ready)
         (fst (step (ChildExit child_not_ready) parent_up))) = Panicked /\
  snd (run_parent parent_up
         [ChildExit child_not_ready; Signal SIGTERM child_ready]) = Panicked.
Proof.
  apply (stop_after_failed_restart_panics SIGTERM child_not_ready child_ready
           parent_up O).
  - repeat split.
  - vm_compute. split; discriminate.
  - intros (_ & H). vm_compute in H. discriminate.
  - reflexivity.
Defined.

(** X18: an upgrade with no child to retire leaves the upgrade flag set,
    and the flag then hides a crash.  [SIGUSR2] sets the flag; it is the
    goroutine of the retired child that clears it.  With no child
    installed (a restart failed before) the upgrade installs its new child
    and nobody clears the flag.  When that child later exits on its own,
    its goroutine takes the flag for an upgrade under way: it clears it
    and ends.  The budget is not touched, nothing is released, closed or
    started, and the parent stays in its loop with a dead child installed
    and no goroutine. *)
Theorem upgrade_without_child_hides_next_crash (a a' : answers) (d : Daemon) :
  xCmdObj d = None -> upgradeFlag d = 0 ->
  starts_ready a ->
  let new := next_cmd d in
  let d1 :=
    mkDaemon (rebootTimes d) 1 (killedFlag d) (Some new) (Some new)
             (deferred d) (S new)
             (trace d ++ [Start new; ParentReadReady new; GoWait new]) in
  let d2 :=
    mkDaemon (rebootTimes d) 0 (killedFlag d) (Some new) None
             (deferred d) (S new) (trace d1) in
  step (Signal SIGUSR2 a) d = (d1, Running) /\
  step (ChildExit a') d1 = (d2, Running) /\
  run_parent d [Signal SIGUSR2 a; ChildExit a'] = ([d1; d2], Running).
Proof.
  intros Hx Hu (Hs & Hok) new d1 d2. subst new d1 d2.
  destruct d as [rt uf kf x w df nc tr]. fields. subst x uf.
  apply ready_ok_no_error in Hok.
  assert (E1 : step (Signal SIGUSR2 a) (mkDaemon rt 0 kf None w df nc tr) =
               (mkDaemon rt 1 kf (Some nc) (Some nc) df (S nc)
                  (tr ++ [Start nc; ParentReadReady nc; GoWait nc]), Running)).
  { run_handlers. rewrite Hs, Hok. cbn [negb Z.eqb Pos.eqb]. fields. same_trace. }
  assert (E2 : step (ChildExit a')
                 (mkDaemon rt 1 kf (Some nc) (Some nc) df (S nc)
                    (tr ++ [Start nc; ParentReadReady nc; GoWait nc])) =
               (mkDaemon rt 0 kf (Some nc) None df (S nc)
                  (tr ++ [Start nc; ParentReadReady nc; GoWait nc]), Running)).
  { run_handlers. reflexivity. }
  split; [exact E1|]. split; [exact E2|].
  cbn [run_parent]. rewrite E1, E2. reflexivity.
Qed.

(** The parent whose restart failed is told to upgrade, and the new child
    crashes. *)
Lemma upgrade_without_child_hides_next_crash_witness :
  let d := fst (step (ChildExit child_not_ready) parent_up) in
  let d1 :=
    mkDaemon (rebootTimes d) 1 (killedFlag d) (Some (next_cmd d))
             (Some (next_cmd d)) (deferred d) (S (next_cmd d))
             (trace d ++ [Start (next_cmd d); ParentReadReady (next_cmd d);
                          GoWait (next_cmd d)]) in
  let d2 :=
    mkDaemon (rebootTimes d) 0 (killedFlag d) (Some (next_cmd d)) None
             (deferred d) (S (next_cmd d)) (trace d1) in
  step (Signal SIGUSR2 child_ready) d = (d1, Running) /\
  step (ChildExit child_ready) d1 = (d2, Running) /\
  run_parent d [Signal SIGUSR2 child_ready; ChildExit child_ready]
    = ([d1; d2], Running).
Proof.
  apply (upgrade_without_child_hides_next_crash child_ready child_ready
           (fst (step (ChildExit child_not_ready) parent_up))).
  - reflexivity.
  - reflexivity.
  - split; reflexivity.
Defined.

(** X19: a start that the child refuses is reported as success.  When
    the first child starts and sends [ReadyError] (before any [ReadyOK]),
    [Bootstrap] closes it, starts no goroutine and never enters its signal
    loop, and the error it returns is [nil]: the closure stopped the read,
    so [ParentRead] had no error to give. *)
Theorem Bootstrap_returns_nil_on_ReadyError (reboot_times : Z) (a : answers)
    (before after : list (list byte)) :
  start_err a = None ->
  frames (ready a) = before ++ ReadyError :: after ->
  ~ In ReadyOK before -> ~ In ReadyError before ->
  Bootstrap reboot_times None a New =
    (mkDaemon reboot_times 0 0 None None None 1%nat
       [Start 0; ParentReadReady 0; CloseCmd 0]%nat,
     Returned None).
Proof.
  intros Hs Hf N1 N2.
  pose proof (ready_error_stops (ready a) before after Hf N1 N2) as Hr.
  unfold New. run_handlers. rewrite Hs, Hr. reflexivity.
Qed.

(** A child that reports [ReadyError]. *)
Lemma Bootstrap_returns_nil_on_ReadyError_witness :
  Bootstrap 3 None child_not_ready New =
    (mkDaemon 3 0 0 None None None 1%nat
       [Start 0; ParentReadReady 0; CloseCmd 0]%nat,
     Returned None).
Proof.
  apply (Bootstrap_returns_nil_on_ReadyError 3 child_not_ready [] []).
  - reflexivity.
  - reflexivity.
  - intros [].
  - intros [].
Defined.

(** *** Runs *)

Lemma last_cons {A : Type} (ds : list A) :
  forall d d', last (d' :: ds) d = last ds d'.
Proof.
  induction ds as [|x ds IH]; intros d d'; [reflexivity|].
  change (last (d' :: x :: ds) d) with (last (x :: ds) d).
  rewrite (IH d x), (IH d' x). reflexivity.
Qed.

Lemma run_parent_app (l1 l2 : list event) :
  forall d ds,
    run_parent d l1 = (ds, Running) ->
    run_parent d (l1 ++ l2) =
      (ds ++ fst (run_parent (last ds d) l2),
       snd (run_parent (last ds d) l2)).
Proof.
  induction l1 as [|ev l1 IH]; intros d ds; cbn [run_parent app].
  - intros E. inversion E. subst ds. cbn [last app].
    destruct (run_parent d l2); reflexivity.
  - destruct (step ev d) as [d' st].
    destruct st; try discriminate.
    destruct (run_parent d' l1) as [ds1 st1] eqn:E1.
    intros E. inversion E. subst ds st1.
    rewrite (IH d' ds1 E1).
    rewrite last_cons. reflexivity.
Qed.

(** While the budget lasts and every new child reports [ReadyOK], each
    unplanned exit is answered by a restart. *)
Lemma crashes_within_budget (l : list answers) :
  forall d c,
    supervising d c ->
    Z.of_nat (length l) <= rebootTimes d <= int_max ->
    Forall starts_ready l ->
    exists ds,
      run_parent d (crashes l) = (ds, Running) /\
      (exists c', supervising (last ds d) c') /\
      rebootTimes (last ds d) = rebootTimes d - Z.of_nat (length l) /\
      next_cmd (last ds d) = (next_cmd d + length l)%nat.
Proof.
  induction l as [|a l IH]; intros d c Hsup Hrt Hall.
  - exists []. cbn [crashes map run_parent last length Z.of_nat].
    split; [reflexivity|]. split; [exists c; exact Hsup|].
    split; [lia|]. apply plus_n_O.
  - inversion Hall as [|a0 l0 Ha Hl]. subst a0 l0.
    cbn [length] in Hrt. rewrite Nat2Z.inj_succ in Hrt.
    assert (Hrt1 : 1 <= rebootTimes d <= int_max) by lia.
    pose proof (childExited_restart a d c Hsup Hrt1) as E. cbv zeta in E.
    destruct Ha as (Hs & Hok). rewrite Hs, Hok in E.
    set (d1 := mkDaemon (rebootTimes d - 1) 0 0 (Some (next_cmd d))
                 (Some (next_cmd d)) (deferred d) (S (next_cmd d))
                 (trace d ++ [Release c; CloseCmd c; Start (next_cmd d)]
                    ++ [ParentReadReady (next_cmd d); GoWait (next_cmd d)]))
      in E.
    destruct (IH d1 (next_cmd d)) as (ds & R & Sup & B & N).
    + unfold supervising, d1. fields. repeat split.
    + unfold d1. fields. lia.
    + exact Hl.
    + exists (d1 :: ds). unfold crashes in *. cbn [map run_parent step].
      rewrite E, R. rewrite last_cons.
      split; [reflexivity|]. split; [exact Sup|].
      split.
      * rewrite B. unfold d1. fields. cbn [length].
        rewrite Nat2Z.inj_succ. lia.
      * rewrite N. unfold d1. fields. cbn [length]. lia.
Qed.

(** X20: what the reboot budget buys.  A parent that supervises a child
    with a budget of [n], whose children exit without plan one after the
    other, each replacement reporting [ReadyOK], restarts [n] times: it is
    then still in its loop, supervising the last replacement, with the
    budget at 0.  The exit after that ends the process with status -1, and
    the goroutine does nothing to the dead child before: it is neither
    released nor closed. *)
Theorem budget_pays_for_restarts (l : list answers) (a : answers) (d : Daemon)
    (c : cmd) :
  supervising d c ->
  rebootTimes d = Z.of_nat (length l) ->
  rebootTimes d <= int_max ->
  Forall starts_ready l ->
  let d' := final_state d (crashes l) in
  snd (run_parent d (crashes l)) = Running /\
  (exists c', supervising d' c') /\
  rebootTimes d' = 0 /\
  next_cmd d' = (next_cmd d + length l)%nat /\
  snd (run_parent d (crashes (l ++ [a]))) = Exited (-1) /\
  trace (final_state d (crashes (l ++ [a]))) = trace d'.
Proof.
  intros Hsup Hn Hmax Hall d'. subst d'. unfold final_state.
  destruct (crashes_within_budget l d c Hsup) as (ds & R & (c' & Sup) & B & N);
    [lia|exact Hall|].
  unfold crashes in *. rewrite map_app. cbn [map].
  rewrite (run_parent_app _ [ChildExit a] d ds R). rewrite R. cbn [fst snd].
  split; [reflexivity|]. split; [exists c'; exact Sup|].
  split; [lia|]. split; [exact N|].
  assert (B0 : rebootTimes (last ds d) = 0) by lia.
  destruct Sup as (Hx & Hw & Hu & Hk).
  destruct (last ds d) as [rt uf kf x w df nc tr] eqn:EL. fields.
  clear B. subst rt uf kf x w.
  assert (E : step (ChildExit a) (mkDaemon 0 0 0 (Some c') (Some c') df nc tr)
              = (mkDaemon (-1) 0 0 (Some c') (Some c') df nc tr, Exited (-1)))
    by reflexivity.
  cbn [run_parent]. rewrite E. cbn [fst snd].
  split; [reflexivity|].
  rewrite last_last. reflexivity.
Qed.

(** The parent that is up, with the default budget of 3, and four exits. *)
Lemma budget_pays_for_restarts_witness :
  let l := [child_ready; child_ready; child_ready] in
  let d' := final_state parent_up (crashes l) in
  snd (run_parent parent_up (crashes l)) = Running /\
  (exists c', supervising d' c') /\
  rebootTimes d' = 0 /\
  next_cmd d' = (next_cmd parent_up + length l)%nat /\
  snd (run_parent parent_up (crashes (l ++ [child_ready]))) = Exited (-1) /\
  trace (final_state parent_up (crashes (l ++ [child_ready]))) = trace d'.
Proof.
  apply (budget_pays_for_restarts [child_ready; child_ready; child_ready]
           child_ready parent_up O).
  - repeat split.
  - reflexivity.
  - vm_compute. discriminate.
  - repeat constructor.
Defined.

(** *** What no handler does *)

Ltac crack :=
  repeat (fields; change (1 =? 1) with true; change (0 =? 1) with false;
    cbv beta iota;
    match goal with
    | |- context [start_err ?a] => destruct (start_err a) eqn:?
    | |- context [ParentRead (ready ?a) ready_visitor false] =>
        destruct (ParentRead (ready a) ready_visitor false) as [[|] ?] eqn:?
    | |- context [exit_write_err ?a] => destruct (exit_write_err a)
    | |- context [ParentRead (exit_reply ?a) exit_visitor tt] =>
        destruct (ParentRead (exit_reply a) exit_visitor tt) as [? [?|]]
    | |- context [if ?b then _ else _] => destruct b eqn:?
    | |- context [match ?x with _ => _ end] => is_var x; destruct x
    end).

Ltac added_trace :=
  repeat rewrite <- app_assoc; cbn [app];
  first [ exists []; rewrite app_nil_r; split; [reflexivity|]
        | eexists; split; [reflexivity|] ].

Ltac in_cases I :=
  cbn [In] in I; repeat (destruct I as [I|I]; [try discriminate I|]);
  try contradiction.

Ltac read_case := split; [reflexivity|cbn [In]; auto 10].

Ltac watch_case :=
  split; [reflexivity|];
  split; [split; [assumption|];
          match goal with
          | H : ParentRead _ _ _ = _ |- _ => rewrite H; reflexivity
          end|];
  split; reflexivity.

(** X21: only a child that has reported [ReadyOK] is installed.  Whatever
    the state and whatever reaches the parent, a signal or the exit of the
    watched child, the handler reads the readiness only from a child it has
    started itself; it starts a goroutine only for such a child, only after
    that child reported [ReadyOK], and that child is then the one installed;
    and the installed child changes in no other way than to that child or to
    nil. *)
Theorem only_ready_children_are_installed (ev : event) (d : Daemon) :
  exists added,
    trace (fst (step ev d)) = trace d ++ added /\
    (forall c, In (ParentReadReady c) added ->
       c = next_cmd d /\ In (Start c) added) /\
    (forall c, In (GoWait c) added ->
       c = next_cmd d /\ starts_ready (event_answers ev) /\
       xCmdObj (fst (step ev d)) = Some c /\
       waited (fst (step ev d)) = Some c) /\
    (xCmdObj (fst (step ev d)) = xCmdObj d \/
     xCmdObj (fst (step ev d)) = None \/
     In (GoWait (next_cmd d)) added).
Proof.
  destruct d as [rt uf kf x w df nc tr].
  destruct ev as [[| | |n] a|a]; cbn [event_answers]; run_handlers; crack;
    fields; added_trace;
    (split; [intros k I; in_cases I; injection I as <-; read_case|]);
    (split; [intros k I; in_cases I; injection I as <-; watch_case|]);
    cbn [In]; auto 10.
Qed.

(** One handler keeps the goroutine on the installed child, never waits
    for a lock it holds itself, and dereferences nil only in the stop branch
    of the signal loop. *)
Lemma step_keeps_watch (ev : event) (d : Daemon) :
  watches_installed d ->
  watches_installed (fst (step ev d)) /\
  snd (step ev d) <> Blocked /\
  (snd (step ev d) = Panicked ->
   exists s a, ev = Signal s a /\ stops_parent s = true /\ xCmdObj d = None).
Proof.
  unfold watches_installed.
  destruct d as [rt uf kf x w df nc tr]. fields.
  intros [Hw|Hw]; subst w;
    destruct ev as [[| | |n] a|a]; run_handlers; crack; fields;
    (split; [auto|]); (split; [discriminate|]);
    intros E; try discriminate E;
    do 2 eexists; (split; [reflexivity|]); split; reflexivity.
Qed.

(** X22: the parent does not lock itself out, and it panics only on a stop
    signal that finds no child.  With the handlers run one at a time, from
    a state in which the goroutine, if there is one, watches the installed
    child: every state of a run is such a state again; no handler ends
    waiting for a goroutine that waits for the lock the handler holds (an
    upgrade sets the upgrade flag and a stop sets the killed flag before
    they wait, and either keeps the goroutine from a restart); and a nil
    dereference happens only when [SIGINT] or [SIGTERM] arrives while
    [xCmdObj] is nil. *)
Theorem parent_never_blocks (evs : list event) (d : Daemon) :
  watches_installed d ->
  Forall watches_installed (fst (run_parent d evs)) /\
  snd (run_parent d evs) <> Blocked /\
  (snd (run_parent d evs) = Panicked ->
   exists before s a after,
     evs = before ++ Signal s a :: after /\
     stops_parent s = true /\
     snd (run_parent d before) = Running /\
     xCmdObj (final_state d before) = None).
Proof.
  revert d. induction evs as [|ev evs IH]; intros d Hd.
  - cbn [run_parent fst snd]. split; [constructor|].
    split; discriminate.
  - cbn [run_parent].
    destruct (step_keeps_watch ev d Hd) as (W & NB & P).
    destruct (step ev d) as [d' st] eqn:Es. cbn [fst snd] in W, NB, P.
    assert (Stop : st <> Running ->
              Forall watches_installed [d'] /\
              st <> Blocked /\
              (st = Panicked ->
               exists before s a after,
                 ev :: evs = before ++ Signal s a :: after /\
                 stops_parent s = true /\
                 snd (run_parent d before) = Running /\
                 xCmdObj (final_state d before) = None)).
    { intros _. split; [constructor; [exact W|constructor]|]. split; [exact NB|].
      intros E. destruct (P E) as (s & a & -> & Hs & Hx).
      exists [], s, a, evs. repeat split; assumption. }
    destruct st; try (apply Stop; discriminate).
    destruct (IH d' W) as (F & NB' & P').
    destruct (run_parent d' evs) as [ds st']. cbn [fst snd] in *.
    split; [constructor; assumption|]. split; [exact NB'|].
    intros E. destruct (P' E) as (before & s & a & after & -> & Hs & Hr & Hx).
    exists (ev :: before), s, a, after.
    split; [reflexivity|]. split; [exact Hs|].
    unfold final_state in *. cbn [run_parent]. rewrite Es.
    destruct (run_parent d' before) as [ds0 st0]. cbn [fst snd] in *.
    subst st0. cbn [fst snd]. split; [reflexivity|].
    rewrite last_cons. exact Hx.
Qed.

(** The parent that is up: its child exits, the restart fails, and
    [SIGTERM] arrives. *)
Lemma parent_never_blocks_witness :
  Forall watches_installed
    (fst (run_parent parent_up
            [ChildExit child_not_ready; Signal SIGTERM child_ready])) /\
  snd (run_parent parent_up
         [ChildExit child_not_ready; Signal SIGTERM child_ready]) <> Blocked /\
  (snd (run_parent parent_up
          [ChildExit child_not_ready; Signal SIGTERM child_ready]) = Panicked ->
   exists before s a after,
     [ChildExit child_not_ready; Signal SIGTERM child_ready]
       = before ++ Signal s a :: after /\
     stops_parent s = true /\
     snd (run_parent parent_up before) = Running /\
     xCmdObj (final_state parent_up before) = None).
Proof.
  apply (parent_never_blocks
           [ChildExit child_not_ready; Signal SIGTERM child_ready] parent_up).
  right. reflexivity.
Defined.

End SupervisorFacts.
